(** * Estate Sale Connect: access policy, token checks, validation and
      rate limiting of the Netlify functions, embedded in Rocq.

    Every handler of the repository is a request/response transform over
    JavaScript values.  The embedding keeps that shape: JSON values are an
    inductive type, objects read by the handlers are finite maps from
    property names to values, the in-process [Map]s of the rate limiters
    and the [Companies] table are explicit stores threaded through the
    handlers, and the clock ([Date.now()], [new Date()]) is an explicit
    argument in milliseconds since the epoch. *)

From Stdlib Require Import ZArith QArith Lia Ascii.
From stdpp Require Import gmap strings list.

Open Scope Z_scope.
Set Warnings "-register-all".

(** ** JavaScript values *)

Module JS.

(** Numbers are IEEE doubles in the source; the finite ones are embedded as
    exact rationals, next to the three non-finite values. *)
Inductive jsnum :=
  | NaN
  | PosInf
  | NegInf
  | Fin (q : Q).

Inductive jsval :=
  | VUndefined
  | VNull
  | VBool (b : bool)
  | VNum (n : jsnum)
  | VStr (s : string)
  | VArr (items : list jsval)
  | VObj (props : list (string * jsval)).

(** An object whose properties a handler reads or writes by name. *)
Abbreviation jsobj := (gmap string jsval).

(** [o.k]: reading a property that is not there gives [undefined]. *)
Definition get (o : jsobj) (k : string) : jsval := default VUndefined (o !! k).

(** ToBoolean. *)
Definition truthy (v : jsval) : bool :=
  match v with
  | VUndefined | VNull => false
  | VBool b => b
  | VNum NaN => false
  | VNum (Fin q) => negb (Qeq_bool q 0)
  | VNum _ => true
  | VStr s => negb (bool_decide (s = ""))
  | VArr _ | VObj _ => true
  end.

(** [a || b] *)
Definition or_else (a b : jsval) : jsval := if truthy a then a else b.

(** [v === s] for a string literal [s]. *)
Definition strict_eq_str (v : jsval) (s : string) : bool :=
  match v with
  | VStr t => bool_decide (t = s)
  | _ => false
  end.

(** [typeof v === 'string'] *)
Definition is_string (v : jsval) : bool :=
  match v with VStr _ => true | _ => false end.

(** [Array.isArray(v)] *)
Definition isArray (v : jsval) : bool :=
  match v with VArr _ => true | _ => false end.

(** Time values: [Some t] is [t] milliseconds since the epoch, [None] is
    the NaN of an invalid date. *)
Definition timeval := option Z.

(** TimeClip of a number: non-finite values and magnitudes above 8.64e15
    are invalid, other values are truncated towards zero. *)
Definition time_clip (n : jsnum) : timeval :=
  match n with
  | Fin q =>
      if Qle_bool (-8640000000000000) q && Qle_bool q 8640000000000000
      then Some (Z.quot (Qnum q) (Zpos (Qden q)))
      else None
  | _ => None
  end.

Section Dates.
(** The runtime's [Date.parse] on strings and its string conversion of
    arrays and objects are not code of the repository. *)
Variable Date_parse : string -> timeval.
Variable Object_toString : jsval -> string.

(** [new Date(v)] for a JSON value [v]. *)
Definition new_Date (v : jsval) : timeval :=
  match v with
  | VUndefined => None
  | VNull => Some 0
  | VBool b => Some (if b then 1 else 0)
  | VNum n => time_clip n
  | VStr s => Date_parse s
  | VArr _ | VObj _ => Date_parse (Object_toString v)
  end.
End Dates.

(** [(now - t) / (1000 * 60 * 60)] with [now] a valid date: NaN when [t]
    is invalid.  Both operands of the subtraction are integers below 2^54,
    so the difference is exact; the quotient is kept as a rational. *)
Definition hours_between (now : Z) (t : timeval) : option Q :=
  match t with
  | Some t0 => Some (inject_Z (now - t0) / inject_Z (1000 * 60 * 60))%Q
  | None => None
  end.

(** [h < 24]: false on NaN.  A quotient of an integer by 3600000 that is
    below 24 is below it by at least 1/3600000, far more than the rounding
    of the double division, so the comparison on rationals decides as the
    one on doubles does. *)
Definition lt_num (h : option Q) (bound : Q) : bool :=
  match h with
  | Some q => negb (Qle_bool bound q)
  | None => false
  end.

(** *** Strings

    A string is its sequence of code units; the embedding covers code
    units below 256, so the white space of [trim] and [parseInt] is
    TAB, LF, VT, FF, CR, SPACE and NBSP. *)

Definition code (c : ascii) : Z := Z.of_nat (nat_of_ascii c).

Definition is_space (c : ascii) : bool :=
  let n := code c in
  ((9 <=? n) && (n <=? 13)) || (n =? 32) || (n =? 160).

Definition chars (s : string) : list ascii := String.list_ascii_of_string s.
Definition of_chars (l : list ascii) : string := String.string_of_list_ascii l.

Fixpoint drop_space (l : list ascii) : list ascii :=
  match l with
  | c :: l' => if is_space c then drop_space l' else l
  | [] => []
  end.

(** [s.trim()] *)
Definition trim (s : string) : string :=
  of_chars (rev (drop_space (rev (drop_space (chars s))))).

(** [s.toLowerCase()]: the capital letters below 256 are A-Z and the
    Latin-1 capitals (192-222 but for the multiplication sign 215). *)
Definition lower_char (c : ascii) : ascii :=
  let n := code c in
  if ((65 <=? n) && (n <=? 90))
     || ((192 <=? n) && (n <=? 222) && negb (n =? 215))
  then ascii_of_nat (Z.to_nat (n + 32))
  else c.

Definition toLowerCase (s : string) : string :=
  of_chars (map lower_char (chars s)).

(** [s.startsWith(p)] *)
Fixpoint starts (p s : list ascii) : bool :=
  match p with
  | [] => true
  | c :: p' =>
      match s with
      | x :: s' => Ascii.eqb x c && starts p' s'
      | [] => false
      end
  end.

Definition startsWith (s p : string) : bool := starts (chars p) (chars s).

(** [s.substring(n)] and [s.substring(0, n)] for [n >= 0]. *)
Definition substring_from (n : nat) (s : string) : string :=
  of_chars (drop n (chars s)).
Definition substring_to (n : nat) (s : string) : string :=
  of_chars (take n (chars s)).

(** [s.length] *)
Definition strlen (s : string) : Z := Z.of_nat (String.length s).

(** [s.split(c)] for a one-character separator: the pieces between the
    separators, empty ones included. *)
Fixpoint split_chars (c : ascii) (cur : list ascii) (l : list ascii)
  : list (list ascii) :=
  match l with
  | [] => [rev cur]
  | x :: l' =>
      if Ascii.eqb x c then rev cur :: split_chars c [] l'
      else split_chars c (x :: cur) l'
  end.

Definition split (c : ascii) (s : string) : list string :=
  map of_chars (split_chars c [] (chars s)).

(** [parseInt(s)] without a radix argument: leading white space, an
    optional sign, an optional [0x] prefix selecting base 16, then the
    longest run of digits; [None] is NaN (no digit at all). *)
Definition digit_of (radix : Z) (c : ascii) : option Z :=
  let n := code c in
  let d :=
    if (48 <=? n) && (n <=? 57) then n - 48
    else if (97 <=? n) && (n <=? 122) then n - 97 + 10
    else if (65 <=? n) && (n <=? 90) then n - 65 + 10
    else 36 in
  if d <? radix then Some d else None.

Fixpoint read_digits (radix : Z) (acc : option Z) (l : list ascii) : option Z :=
  match l with
  | [] => acc
  | c :: l' =>
      match digit_of radix c with
      | Some d => read_digits radix (Some (default 0 acc * radix + d)) l'
      | None => acc
      end
  end.

Definition strip_sign (l : list ascii) : Z * list ascii :=
  match l with
  | c :: l' =>
      if code c =? 45 then (-1, l')
      else if code c =? 43 then (1, l')
      else (1, l)
  | [] => (1, [])
  end.

Definition strip_hex (l : list ascii) : Z * list ascii :=
  match l with
  | z :: x :: l' =>
      if (code z =? 48) && ((code x =? 120) || (code x =? 88)) then (16, l')
      else (10, l)
  | _ => (10, l)
  end.

Definition parseInt (s : string) : option Z :=
  let '(sign, l1) := strip_sign (drop_space (chars s)) in
  let '(radix, l2) := strip_hex l1 in
  match read_digits radix None l2 with
  | Some n => Some (sign * n)
  | None => None
  end.

(** [parseInt(s) || d] *)
Definition parseInt_or (s : string) (d : Z) : Z :=
  match parseInt s with
  | Some n => if n =? 0 then d else n
  | None => d
  end.

(** [a.slice(start, end)]: negative positions count from the end and
    everything is clamped to the array. *)
Definition slice_pos (len rel : Z) : Z :=
  if rel <? 0 then Z.max (len + rel) 0 else Z.min rel len.

Definition slice {A} (l : list A) (start stop : Z) : list A :=
  let len := Z.of_nat (length l) in
  let k := slice_pos len start in
  let final := slice_pos len stop in
  take (Z.to_nat (Z.max (final - k) 0)) (drop (Z.to_nat k) l).

(** *** Conversions and [<]

    The runtime's conversion of strings to numbers (StringToNumber) is a
    parameter, as is the conversion of arrays and objects to strings. *)
Section Conversions.
Variable String_toNumber : string -> jsnum.
Variable Object_toString : jsval -> string.

Definition ToNumber (v : jsval) : jsnum :=
  match v with
  | VUndefined => NaN
  | VNull => Fin 0
  | VBool b => Fin (if b then 1 else 0)
  | VNum n => n
  | VStr s => String_toNumber s
  | VArr _ | VObj _ => String_toNumber (Object_toString v)
  end.

Definition num_lt (a b : jsnum) : bool :=
  match a, b with
  | NaN, _ | _, NaN => false
  | _, NegInf => false
  | PosInf, _ => false
  | NegInf, _ => true
  | Fin _, PosInf => true
  | Fin x, Fin y => negb (Qle_bool y x)
  end.

(** [v < n] for a number [n]. *)
Definition lt_number (v : jsval) (n : jsnum) : bool := num_lt (ToNumber v) n.
End Conversions.

(** *** [RegExp.prototype.test] for anchored patterns

    A pattern of the form [^r$] without lookaround tests membership of the
    whole string in the language of [r], which derivatives decide. *)
Inductive regex :=
  | Void
  | Eps
  | Class (p : ascii -> bool)
  | Seq (r1 r2 : regex)
  | Alt (r1 r2 : regex)
  | Star (r : regex).

Definition Plus (r : regex) : regex := Seq r (Star r).

Fixpoint accepts_empty (r : regex) : bool :=
  match r with
  | Void => false
  | Eps => true
  | Class _ => false
  | Seq r1 r2 => accepts_empty r1 && accepts_empty r2
  | Alt r1 r2 => accepts_empty r1 || accepts_empty r2
  | Star _ => true
  end.

Definition seq (r1 r2 : regex) : regex :=
  match r1 with
  | Void => Void
  | Eps => r2
  | _ => Seq r1 r2
  end.

Definition alt (r1 r2 : regex) : regex :=
  match r1, r2 with
  | Void, _ => r2
  | _, Void => r1
  | _, _ => Alt r1 r2
  end.

Fixpoint deriv (c : ascii) (r : regex) : regex :=
  match r with
  | Void | Eps => Void
  | Class p => if p c then Eps else Void
  | Seq r1 r2 =>
      alt (seq (deriv c r1) r2) (if accepts_empty r1 then deriv c r2 else Void)
  | Alt r1 r2 => alt (deriv c r1) (deriv c r2)
  | Star r0 => seq (deriv c r0) (Star r0)
  end.

Fixpoint matches (r : regex) (l : list ascii) : bool :=
  match l with
  | [] => accepts_empty r
  | c :: l' => matches (deriv c r) l'
  end.

Definition test (r : regex) (s : string) : bool := matches r (chars s).

Definition char_is (c : ascii) : ascii -> bool := Ascii.eqb c.

(** [/^[^\s@]+@[^\s@]+\.[^\s@]+$/] *)
Definition not_space_or_at (c : ascii) : bool :=
  negb (is_space c) && negb (char_is "@" c).

Definition emailRegex : regex :=
  Seq (Plus (Class not_space_or_at))
   (Seq (Class (char_is "@"))
    (Seq (Plus (Class not_space_or_at))
     (Seq (Class (char_is "."))
      (Plus (Class not_space_or_at))))).

(** *** Responses

    [body] is the value handed to [JSON.stringify] (or the literal string
    of an empty body); object bodies list their properties in order.  The
    [details] property of 500 responses, filled in development mode only,
    is left out. *)
Record response := { statusCode : Z; body : jsval }.

Definition error_body (msg : string) : jsval := VObj [("error", VStr msg)].

(** [v.k] on a parsed JSON value: [None] is the TypeError of reading a
    property of [null] or [undefined]. *)
Fixpoint assoc (k : string) (props : list (string * jsval)) : jsval :=
  match props with
  | (k', v) :: rest => if bool_decide (k' = k) then v else assoc k rest
  | [] => VUndefined
  end.

Definition prop (v : jsval) (k : string) : option jsval :=
  match v with
  | VUndefined | VNull => None
  | VObj props => Some (assoc k props)
  | _ => Some VUndefined
  end.

(** [Math.ceil(x / d)] for integers [x] and [d > 0]. *)
Definition ceil_div (x d : Z) : Z := - ((- x) / d).

(** [s.charAt(i)]: the empty string outside the string. *)
Definition charAt (s : string) (i : nat) : string :=
  match chars s !! i with
  | Some c => String c ""
  | None => ""
  end.

(** [a || d] for a header or environment variable [a] (a string or
    undefined) and a string [d]. *)
Definition str_or (a : option string) (d : string) : string :=
  match a with
  | Some s => if bool_decide (s = "") then d else s
  | None => d
  end.

(** [a > b] is [b < a]; a comparison with NaN is false. *)
Definition num_gt (a b : jsnum) : bool := num_lt b a.

(** [a === b] for two values read from one parsed JSON document: numbers,
    strings, booleans and null compare by value, arrays and objects by
    identity, which two reads of different properties never share. *)
Definition num_eq (a b : jsnum) : bool :=
  match a, b with
  | PosInf, PosInf | NegInf, NegInf => true
  | Fin x, Fin y => Qeq_bool x y
  | _, _ => false
  end.

Definition strict_eq (a b : jsval) : bool :=
  match a, b with
  | VUndefined, VUndefined | VNull, VNull => true
  | VBool x, VBool y => Bool.eqb x y
  | VNum x, VNum y => num_eq x y
  | VStr x, VStr y => bool_decide (x = y)
  | _, _ => false
  end.

(** [v === true] *)
Definition is_true (v : jsval) : bool :=
  match v with VBool b => b | _ => false end.

End JS.

Import JS.

(** ** secure-leads-api.js, the variant serving the in-file leads *)

Module SecureLeadsDemo.

Section Projection.
Variable Date_parse : string -> timeval.
Variable Object_toString : jsval -> string.

Definition isInExclusiveWindow (now : Z) (lead : jsobj) : bool :=
  let submissionTime := new_Date Date_parse Object_toString (get lead "created_at") in
  let hoursSinceSubmission := hours_between now submissionTime in
  lt_num hoursSinceSubmission 24 && negb (truthy (get lead "exclusivePurchasedBy")).

Definition hasContactAccess (lead user : jsobj) : bool :=
  strict_eq_str (get user "subscriptionStatus") "active"
  && negb (truthy (get lead "exclusivePurchasedBy")).

(** The object literal of the always-visible fields. *)
Definition base_lead (now : Z) (lead : jsobj) : jsobj :=
  <["exclusivePurchaseDate" := get lead "exclusivePurchaseDate"]>
  (<["exclusivePurchasedBy" := get lead "exclusivePurchasedBy"]>
  (<["isInExclusiveWindow" := VBool (isInExclusiveWindow now lead)]>
  (<["price" := or_else (get lead "price") (VNum (Fin 39.99))]>
  (<["dateSubmitted" := get lead "dateSubmitted"]>
  (<["zipCode" := get lead "zipCode"]>
  (<["photos" := if isArray (get lead "photos") then get lead "photos" else VArr []]>
  (<["details" := or_else (get lead "details") (VStr "")]>
  (<["timeline" := get lead "timeline"]>
  (<["propertyType" := get lead "propertyType"]>
  (<["id" := get lead "id"]> ∅)))))))))).

Definition sanitizeLead (now : Z) (lead user : jsobj) : jsobj :=
  let sanitizedLead := base_lead now lead in
  if hasContactAccess lead user then
    <["address" := get lead "address"]>
    (<["phone" := get lead "phone"]>
    (<["email" := get lead "email"]>
    (<["lastName" := get lead "lastName"]>
    (<["firstName" := get lead "firstName"]> sanitizedLead))))
  else
    <["address" := VStr "Subscription required to view address"]>
    (<["phone" := VStr "***-***-****"]>
    (<["email" := VStr "subscription@required.com"]>
    (<["lastName" := VStr "to view"]>
    (<["firstName" := VStr "Subscribe"]> sanitizedLead)))).
End Projection.

(** The in-file table of leads served by this variant. *)
Definition demo_lead (id : Q) (firstName lastName email phone address zipCode
    propertyType timeline details : string) (photos : list string)
    (dateSubmitted : string) (isInWindow : bool) (created_at : string) : jsobj :=
  list_to_map
    [("id", VNum (Fin id)); ("firstName", VStr firstName);
     ("lastName", VStr lastName); ("email", VStr email); ("phone", VStr phone);
     ("address", VStr address); ("zipCode", VStr zipCode);
     ("propertyType", VStr propertyType); ("timeline", VStr timeline);
     ("details", VStr details); ("photos", VArr (map VStr photos));
     ("dateSubmitted", VStr dateSubmitted); ("price", VNum (Fin 39.99));
     ("isInExclusiveWindow", VBool isInWindow);
     ("exclusivePurchasedBy", VNull); ("exclusivePurchaseDate", VNull);
     ("created_at", VStr created_at)].

Definition DEMO_LEADS : list jsobj :=
  [ demo_lead 1 "John" "Smith" "john.smith@email.com" "(555) 123-4567"
      "123 Main Street, Charlotte, NC 28202" "28202" "house" "asap"
      "Large estate sale with antique furniture, jewelry collection, and household items. Family moving out of state."
      ["https://res.cloudinary.com/demo/image/upload/v1234567890/sample.jpg";
       "https://res.cloudinary.com/demo/image/upload/v1234567891/sample2.jpg"]
      "2024-01-15" true "2024-01-15T10:00:00Z";
    demo_lead 2 "Mary" "Johnson" "mary.johnson@email.com" "(555) 987-6543"
      "456 Oak Avenue, Huntersville, NC 28078" "28078" "condo" "month"
      "Downsizing sale with furniture, electronics, and collectibles. Need professional estate sale company."
      ["https://res.cloudinary.com/demo/image/upload/v1234567892/sample3.jpg"]
      "2024-01-14" false "2024-01-14T15:30:00Z";
    demo_lead 3 "Robert" "Williams" "bob.williams@email.com" "(555) 456-7890"
      "789 Pine Street, Matthews, NC 28105" "28105" "house" "flexible"
      "Complete household contents including tools, furniture, and vintage items. Timeline is flexible."
      [] "2024-01-13" false "2024-01-13T09:15:00Z" ].

Inductive auth_result :=
  | AuthFailure (error : string)
  | AuthSuccess (user : jsobj).

Section Authentication.
Variable String_toNumber : string -> jsnum.
Variable Object_toString : jsval -> string.
(** [jwt.verify(token, secret)] of the jsonwebtoken package: the decoded
    payload, or [None] when it throws.  A payload that is not an object
    has none of the properties read below, like the empty object. *)
Variable jwt_verify : string -> string -> option jsobj.
(** [process.env.JWT_SECRET] *)
Variable JWT_SECRET : option string.

(** [process.env.JWT_SECRET || fallback] *)
Definition secret_or (fallback : string) : string :=
  match JWT_SECRET with
  | Some s => if bool_decide (s = "") then fallback else s
  | None => fallback
  end.

(** The body of [authenticateRequest]; the two variants of the file
    differ in the fallback secret only.  A truthy header that is not a
    string has no [startsWith]: the TypeError lands in the catch. *)
Definition authenticate (fallback : string) (now : Z) (headers : jsobj)
  : auth_result :=
  let authHeader :=
    or_else (get headers "authorization") (get headers "Authorization") in
  if negb (truthy authHeader) then
    AuthFailure "No valid authorization token provided"
  else
    match authHeader with
    | VStr h =>
        if negb (startsWith h "Bearer ") then
          AuthFailure "No valid authorization token provided"
        else
          let token := substring_from 7 h in
          match jwt_verify token (secret_or fallback) with
          | None => AuthFailure "Invalid token"
          | Some decoded =>
              if lt_number String_toNumber Object_toString
                   (get decoded "exp") (Fin (inject_Z (now / 1000)))
              then AuthFailure "Token expired"
              else if negb (strict_eq_str (get decoded "subscriptionStatus") "active")
              then AuthFailure "Active subscription required"
              else AuthSuccess
                (<["subscriptionStatus" := get decoded "subscriptionStatus"]>
                (<["companyName" := get decoded "companyName"]>
                (<["email" := get decoded "email"]>
                (<["userId" := get decoded "userId"]> ∅))))
          end
    | _ => AuthFailure "Invalid token"
    end.

Definition authenticateRequest := authenticate "demo-secret-key-12345".
End Authentication.

(** The event of a GET request: method, headers and query string. *)
Record event := {
  httpMethod : string;
  headers : jsobj;
  queryStringParameters : gmap string string
}.

Record page_meta := {
  meta_count : Z;
  meta_offset : Z;
  meta_limit : Z;
  meta_hasMore : bool;
  meta_total : Z
}.

Inductive leads_body :=
  | BodyEmpty
  | BodyError (error : string)
  | BodyLeads (data : list jsobj) (meta : page_meta).

Record response := { statusCode : Z; body : leads_body }.

(** [if (q) leads = leads.filter(lead => lead[field] === q)] *)
Definition filter_if (field : string) (q : option string) (leads : list jsobj)
  : list jsobj :=
  match q with
  | Some v =>
      if bool_decide (v = "") then leads
      else List.filter (fun lead => strict_eq_str (get lead field) v) leads
  | None => leads
  end.

Section Handler.
Variable Date_parse : string -> timeval.
Variable String_toNumber : string -> jsnum.
Variable Object_toString : jsval -> string.
Variable jwt_verify : string -> string -> option jsobj.
Variable JWT_SECRET : option string.

(** Pagination of the filtered leads: the page and its [meta]. *)
Definition limitNum (q : gmap string string) : Z :=
  parseInt_or (default "20" (q !! "limit")) 20.
Definition offsetNum (q : gmap string string) : Z :=
  parseInt_or (default "0" (q !! "offset")) 0.

Definition paginate (q : gmap string string) (filteredLeads : list jsobj)
  : list jsobj :=
  slice filteredLeads (offsetNum q) (offsetNum q + limitNum q).

Definition filtered (q : gmap string string) (leads : list jsobj) : list jsobj :=
  filter_if "zipCode" (q !! "zipCode")
    (filter_if "propertyType" (q !! "propertyType")
      (filter_if "timeline" (q !! "timeline") leads)).

(** The handler over a table of leads; the deployed one serves
    [DEMO_LEADS].  Nothing in its [try] block throws on an event of this
    shape, so the 500 response of the [catch] is not reachable. *)
Definition handler_on (leads : list jsobj) (now : Z) (ev : event) : response :=
  if bool_decide (httpMethod ev = "OPTIONS") then
    {| statusCode := 200; body := BodyEmpty |}
  else if negb (bool_decide (httpMethod ev = "GET")) then
    {| statusCode := 405; body := BodyError "Method not allowed" |}
  else
    match authenticateRequest String_toNumber Object_toString jwt_verify
            JWT_SECRET now (headers ev) with
    | AuthFailure e => {| statusCode := 401; body := BodyError e |}
    | AuthSuccess user =>
        let q := queryStringParameters ev in
        let filteredLeads := filtered q leads in
        let paginatedLeads := paginate q filteredLeads in
        let sanitizedLeads :=
          map (fun lead => sanitizeLead Date_parse Object_toString now lead user)
              paginatedLeads in
        {| statusCode := 200;
           body := BodyLeads sanitizedLeads
             {| meta_count := Z.of_nat (length sanitizedLeads);
                meta_offset := offsetNum q;
                meta_limit := limitNum q;
                meta_hasMore :=
                  offsetNum q + limitNum q <? Z.of_nat (length filteredLeads);
                meta_total := Z.of_nat (length filteredLeads) |} |}
    end.

Definition handler := handler_on DEMO_LEADS.
End Handler.

End SecureLeadsDemo.

(** ** secure-leads-api.js, datastore variant *)

Module SecureLeads.

(** A row of the [Leads] table as selected by [fetchLeadsSecurely].  The
    two columns on which [sanitizeLead] calls string methods are nullable
    strings, as validate-lead-data.js inserts them; the other columns are
    only copied or tested for truthiness and are kept as JSON values. *)
Record lead_row := {
  id : jsval;
  first_name : jsval;
  last_name : jsval;
  email : jsval;
  phone : jsval;
  address : jsval;
  zip_code : jsval;
  property_type : jsval;
  timeline : jsval;
  details : jsval;
  photo_urls : option string;
  price : jsval;
  created_at : option string;
  purchased_by : jsval;
  exclusive_purchased_by : jsval;
  exclusive_purchase_date : jsval
}.

(** A nullable column as the JSON value the datastore returns. *)
Definition nullable (o : option string) : jsval :=
  match o with
  | Some s => VStr s
  | None => VNull
  end.

Section Projection.
Variable Date_parse : string -> timeval.
Variable Object_toString : jsval -> string.

Definition isInExclusiveWindow (now : Z) (lead : lead_row) : bool :=
  let submissionTime :=
    new_Date Date_parse Object_toString (nullable (created_at lead)) in
  let hoursSinceSubmission := hours_between now submissionTime in
  lt_num hoursSinceSubmission 24 && negb (truthy (exclusive_purchased_by lead)).

Definition hasContactAccess (lead : lead_row) (user : jsobj) : bool :=
  strict_eq_str (get user "subscriptionStatus") "active"
  && negb (truthy (exclusive_purchased_by lead)).

(** [lead.photo_urls ? lead.photo_urls.split(' ').filter(url => url.trim()) : []] *)
Definition photos_of (lead : lead_row) : jsval :=
  match photo_urls lead with
  | Some s =>
      if bool_decide (s = "") then VArr []
      else VArr (map VStr
             (List.filter (fun url => negb (bool_decide (trim url = "")))
                          (split " " s)))
  | None => VArr []
  end.

(** [lead.created_at ? lead.created_at.split('T')[0] : null] *)
Definition dateSubmitted_of (lead : lead_row) : jsval :=
  match created_at lead with
  | Some s =>
      if bool_decide (s = "") then VNull
      else match split "T" s with
           | d :: _ => VStr d
           | [] => VUndefined
           end
  | None => VNull
  end.

Definition base_lead (now : Z) (lead : lead_row) : jsobj :=
  <["exclusivePurchaseDate" := exclusive_purchase_date lead]>
  (<["exclusivePurchasedBy" := exclusive_purchased_by lead]>
  (<["isInExclusiveWindow" := VBool (isInExclusiveWindow now lead)]>
  (<["price" := or_else (price lead) (VNum (Fin 39.99))]>
  (<["dateSubmitted" := dateSubmitted_of lead]>
  (<["zipCode" := zip_code lead]>
  (<["photos" := photos_of lead]>
  (<["details" := or_else (details lead) (VStr "")]>
  (<["timeline" := timeline lead]>
  (<["propertyType" := property_type lead]>
  (<["id" := id lead]> ∅)))))))))).

Definition sanitizeLead (now : Z) (lead : lead_row) (user : jsobj) : jsobj :=
  let sanitizedLead := base_lead now lead in
  if hasContactAccess lead user then
    <["address" := address lead]>
    (<["phone" := phone lead]>
    (<["email" := email lead]>
    (<["lastName" := last_name lead]>
    (<["firstName" := first_name lead]> sanitizedLead))))
  else
    <["address" := VStr "Subscription required to view address"]>
    (<["phone" := VStr "***-***-****"]>
    (<["email" := VStr "subscription@required.com"]>
    (<["lastName" := VStr "to view"]>
    (<["firstName" := VStr "Subscribe"]> sanitizedLead)))).
End Projection.

Section Authentication.
Variable String_toNumber : string -> jsnum.
Variable Object_toString : jsval -> string.
Variable jwt_verify : string -> string -> option jsobj.
Variable JWT_SECRET : option string.

Definition authenticateRequest :=
  SecureLeadsDemo.authenticate String_toNumber Object_toString jwt_verify
    JWT_SECRET "your-super-secret-jwt-key-change-this-in-production".
End Authentication.

(** The rate limiter of the listing endpoint: an in-process [Map] from
    keys to a counter and the time at which its window ends. *)
Record limit_entry := { count : Z; resetTime : Z }.
Record limit_result := { allowed : bool; remaining : Z }.

Section FixedWindow.
(** [windowMs] and [maxRequests] are constants of each limiter of the
    repository; the body is the same in both. *)
Variable windowMs : Z.
Variable maxRequests : Z.

Definition fixed_window (now : Z) (key : string)
    (rateLimitStorage : gmap string limit_entry)
  : limit_result * gmap string limit_entry :=
  match rateLimitStorage !! key with
  | None =>
      ({| allowed := true; remaining := maxRequests - 1 |},
       <[key := {| count := 1; resetTime := now + windowMs |}]> rateLimitStorage)
  | Some userLimit =>
      if resetTime userLimit <? now then
        ({| allowed := true; remaining := maxRequests - 1 |},
         <[key := {| count := 1; resetTime := now + windowMs |}]> rateLimitStorage)
      else if maxRequests <=? count userLimit then
        ({| allowed := false; remaining := 0 |}, rateLimitStorage)
      else
        let userLimit' :=
          {| count := count userLimit + 1; resetTime := resetTime userLimit |} in
        ({| allowed := true; remaining := maxRequests - count userLimit' |},
         <[key := userLimit']> rateLimitStorage)
  end.
End FixedWindow.

Section RateLimit.
(** The string a template literal makes of [userId]. *)
Variable ToString : jsval -> string.

Definition checkRateLimit (now : Z) (userId : jsval) (clientIP : string)
    (rateLimitStorage : gmap string limit_entry)
  : limit_result * gmap string limit_entry :=
  let windowMs := 60 * 60 * 1000 in
  let maxRequests := 1000 in
  let key := ToString userId +:+ "-" +:+ clientIP in
  fixed_window windowMs maxRequests now key rateLimitStorage.
End RateLimit.

End SecureLeads.

(** ** get-config.js: [isRateLimited] *)

Module GetConfig.

(** Despite its name the function answers whether the request may
    proceed: the handler replies 429 when it returns [false]. *)
Definition isRateLimited (now : Z) (clientIP : string)
    (rateLimitStorage : gmap string SecureLeads.limit_entry)
  : bool * gmap string SecureLeads.limit_entry :=
  let windowMs := 60 * 60 * 1000 in
  let maxRequests := 60 in
  let '(r, st) :=
    SecureLeads.fixed_window windowMs maxRequests now clientIP rateLimitStorage in
  (SecureLeads.allowed r, st).

(** The two configurations the endpoint serves. *)
Definition company_config (environment : string) : jsval :=
  VObj
    [("environment", VStr environment);
     ("apiVersion", VStr "1.0.0");
     ("features", VObj
        [("photoUpload", VBool true);
         ("subscriptions", VBool true);
         ("exclusivePurchases", VBool true)]);
     ("limits", VObj
        [("maxPhotos", VNum (Fin 12));
         ("maxLeadsPerPage", VNum (Fin 100));
         ("rateLimit", VNum (Fin 1000))])].

Definition public_config (environment : string) : jsval :=
  VObj
    [("environment", VStr environment);
     ("apiVersion", VStr "1.0.0");
     ("features", VObj
        [("photoUpload", VBool true);
         ("subscriptions", VBool false);
         ("exclusivePurchases", VBool false)]);
     ("limits", VObj
        [("maxPhotos", VNum (Fin 12));
         ("rateLimit", VNum (Fin 100))])].

Section Handler.
Variable String_toNumber : string -> jsnum.
Variable Object_toString : jsval -> string.
Variable jwt_verify : string -> string -> option jsobj.
(** [process.env.JWT_SECRET] and [process.env.NODE_ENV] *)
Variable JWT_SECRET : option string.
Variable NODE_ENV : option string.

(** The body of the inner [try]: a token that does not verify leaves the
    request public. *)
Definition isAuthenticated (now : Z) (authHeader : string) : bool :=
  if negb (bool_decide (authHeader = "")) && startsWith authHeader "Bearer " then
    let token := substring_from 7 authHeader in
    match jwt_verify token
            (str_or JWT_SECRET "your-super-secret-jwt-key-change-this-in-production")
    with
    | Some decoded =>
        num_gt (ToNumber String_toNumber Object_toString (get decoded "exp"))
               (Fin (inject_Z (now / 1000)))
    | None => false
    end
  else false.

(** The handler of get-config.js on an event whose header values are
    strings, as the platform delivers them; an absent header is
    undefined.  Nothing in its [try] block throws on such an event. *)
Definition handler (now : Z) (httpMethod : string) (headers : gmap string string)
    (rateLimitStorage : gmap string SecureLeads.limit_entry)
  : response * gmap string SecureLeads.limit_entry :=
  if bool_decide (httpMethod = "OPTIONS") then
    ({| statusCode := 200; body := VStr "" |}, rateLimitStorage)
  else if negb (bool_decide (httpMethod = "GET")) then
    ({| statusCode := 405; body := error_body "Method not allowed" |},
     rateLimitStorage)
  else
    let authHeader :=
      str_or (headers !! "authorization") (str_or (headers !! "Authorization") "") in
    let authenticated := isAuthenticated now authHeader in
    let clientIP :=
      str_or (headers !! "client-ip")
        (str_or (headers !! "x-forwarded-for") "unknown") in
    let '(ok, storage) := isRateLimited now clientIP rateLimitStorage in
    if negb ok then
      ({| statusCode := 429; body := error_body "Too many requests" |}, storage)
    else if authenticated then
      ({| statusCode := 200;
          body := company_config (str_or NODE_ENV "production") |}, storage)
    else
      ({| statusCode := 200;
          body := public_config (str_or NODE_ENV "production") |}, storage).
End Handler.

End GetConfig.

(** ** The [Companies] table of the datastore *)

Module Companies.

(** The columns the verification handlers read or write.  The table is
    the list of its rows in the order a query returns them. *)
Record company := {
  id : Z;
  email : string;
  company_name : string;
  first_name : string;
  email_verified : bool;
  account_status : string;
  verification_token : option string;
  created_at : string
}.

(** [GET Companies?verification_token=eq.<token>]: the matching rows.  A
    row whose token is null matches no token. *)
Definition select_by_token (token : string) (db : list company) : list company :=
  List.filter (fun c => bool_decide (verification_token c = Some token)) db.

(** [GET Companies?email=eq.<email>] *)
Definition select_by_email (e : string) (db : list company) : list company :=
  List.filter (fun c => bool_decide (email c = e)) db.

(** [PATCH Companies?id=eq.<companyId>] with the columns [f] rewrites. *)
Definition patch_by_id (companyId : Z) (f : company -> company)
    (db : list company) : list company :=
  map (fun c => if bool_decide (id c = companyId) then f c else c) db.

(** What the datastore answers to the calls of one request: whether the
    query and the update come back with [response.ok]. *)
Record upstream := { query_ok : bool; update_ok : bool }.

End Companies.

(** ** verify-email.js *)

Module VerifyEmail.
Import Companies.

(** [token.replace(/[^a-zA-Z0-9]/g, '')] *)
Definition is_alnum (c : ascii) : bool :=
  let n := code c in
  ((97 <=? n) && (n <=? 122)) || ((65 <=? n) && (n <=? 90))
  || ((48 <=? n) && (n <=? 57)).

Definition sanitize_token (token : string) : string :=
  of_chars (List.filter is_alnum (chars token)).

(** [findCompanyByToken]: [None] is the thrown error of a failed query,
    [Some None] is [null]. *)
Definition findCompanyByToken (up : upstream) (token : string)
    (db : list company) : option (option company) :=
  if query_ok up then Some (head (select_by_token token db)) else None.

(** [updateCompanyVerification]: the success flag and the table after. *)
Definition updateCompanyVerification (up : upstream) (companyId : Z)
    (db : list company) : bool * list company :=
  if update_ok up then
    (true,
     patch_by_id companyId
       (fun c => {| id := id c; email := email c;
                    company_name := company_name c;
                    first_name := first_name c;
                    email_verified := true;
                    account_status := "email_verified";
                    verification_token := None;
                    created_at := created_at c |}) db)
  else (false, db).

Definition internal_error : response :=
  {| statusCode := 500;
     body := error_body
       "Internal server error during verification. Please try again later." |}.

Section Handler.
Variable Date_parse : string -> timeval.

(** The request is its method and the outcome of [JSON.parse(event.body)]
    ([None] when it throws). *)
Definition handler (up : upstream) (now : Z) (httpMethod : string)
    (parsed : option jsval) (db : list company) : response * list company :=
  if bool_decide (httpMethod = "OPTIONS") then
    ({| statusCode := 200; body := VStr "" |}, db)
  else if negb (bool_decide (httpMethod = "POST")) then
    ({| statusCode := 405; body := error_body "Method not allowed" |}, db)
  else
    match parsed ≫= (fun requestData => prop requestData "token") with
    | None =>
        ({| statusCode := 400;
            body := error_body "Invalid JSON in request body" |}, db)
    | Some token =>
        match token with
        | VStr t =>
            if bool_decide (t = "") then
              ({| statusCode := 400;
                  body := error_body "Verification token is required" |}, db)
            else
              let sanitizedToken := sanitize_token t in
              if negb (strlen sanitizedToken =? strlen t)
                 || (strlen sanitizedToken <? 16) then
                ({| statusCode := 400;
                    body := error_body "Invalid verification token format" |}, db)
              else
                match findCompanyByToken up sanitizedToken db with
                | None => (internal_error, db)
                | Some None =>
                    ({| statusCode := 404;
                        body := error_body
                          "Invalid or expired verification token. The link may have already been used or expired." |},
                     db)
                | Some (Some company) =>
                    if email_verified company then
                      ({| statusCode := 200;
                          body := VObj
                            [("success", VBool true);
                             ("message", VStr "Email is already verified");
                             ("company", VObj
                                [("company_name", VStr (company_name company));
                                 ("email", VStr (email company));
                                 ("account_status", VStr (account_status company))]);
                             ("alreadyVerified", VBool true)] |}, db)
                    else
                      let maxAge := 24 * 60 * 60 * 1000 in
                      let expired :=
                        match Date_parse (created_at company) with
                        | Some t0 => maxAge <? now - t0
                        | None => false
                        end in
                      if expired then
                        ({| statusCode := 400;
                            body := error_body
                              "Verification token has expired. Please request a new verification email." |},
                         db)
                      else
                        let '(ok, db') :=
                          updateCompanyVerification up (id company) db in
                        if negb ok then (internal_error, db')
                        else
                          ({| statusCode := 200;
                              body := VObj
                                [("success", VBool true);
                                 ("message", VStr
                                    "Email verified successfully! Your account is now active.");
                                 ("company", VObj
                                    [("company_name", VStr (company_name company));
                                     ("email", VStr (email company));
                                     ("account_status", VStr "email_verified");
                                     ("first_name", VStr (first_name company))])] |},
                           db')
                end
        | _ =>
            ({| statusCode := 400;
                body := error_body "Verification token is required" |}, db)
        end
    end.
End Handler.

End VerifyEmail.

(** ** resend-verification.js *)

Module ResendVerification.
Import Companies.

(** [findCompanyByEmail] *)
Definition findCompanyByEmail (up : upstream) (e : string) (db : list company)
  : option (option company) :=
  if query_ok up then Some (head (select_by_email e db)) else None.

(** [updateVerificationToken] *)
Definition updateVerificationToken (up : upstream) (companyId : Z)
    (newToken : string) (db : list company) : bool * list company :=
  if update_ok up then
    (true,
     patch_by_id companyId
       (fun c => {| id := id c; email := email c;
                    company_name := company_name c;
                    first_name := first_name c;
                    email_verified := email_verified c;
                    account_status := account_status c;
                    verification_token := Some newToken;
                    created_at := created_at c |}) db)
  else (false, db).

(** [sendVerificationEmail] only prepares the message and reports
    success with the link it would send. *)
Definition sendVerificationEmail (URL : string) (verificationToken : string)
  : bool * string :=
  (true, URL +:+ "/company-verify-email.html?token=" +:+ verificationToken).

(** The in-process store of the limiter: per key, the times of the
    recorded attempts in the order they were pushed. *)
Abbreviation attempts_store := (gmap string (list Z)).

Definition windowMs : Z := 15 * 60 * 1000.
Definition maxAttempts : Z := 3.

(** [Math.min(...l)]; only called on a list of at least [maxAttempts]
    elements. *)
Definition list_min (l : list Z) : Z :=
  match l with
  | x :: xs => foldr Z.min x xs
  | [] => 0
  end.

Record rate_result := { allowed : bool; retryAfter : option Z }.

Definition recent (now : Z) (attempts : list Z) : list Z :=
  List.filter (fun timestamp => now - timestamp <? windowMs) attempts.

Definition checkRateLimit (now : Z) (e : string) (rateLimitStore : attempts_store)
  : rate_result :=
  let key := "resend_" +:+ e in
  let attempts := default [] (rateLimitStore !! key) in
  let recentAttempts := recent now attempts in
  if maxAttempts <=? Z.of_nat (length recentAttempts) then
    let oldestAttempt := list_min recentAttempts in
    {| allowed := false;
       retryAfter := Some (ceil_div (windowMs - (now - oldestAttempt)) 1000) |}
  else {| allowed := true; retryAfter := None |}.

Definition cleanupRateLimit (now : Z) (rateLimitStore : attempts_store)
  : attempts_store :=
  omap (fun attempts =>
          match recent now attempts with
          | [] => None
          | recentAttempts => Some recentAttempts
          end) rateLimitStore.

(** The clock readings and random draws of one request, in program order:
    [Date.now()] in [checkRateLimit], in [recordRateLimitAttempt] and in
    [cleanupRateLimit], the token [generateVerificationToken] draws, and
    whether [Math.random() < 0.1] triggers the cleanup. *)
Record draws := {
  at_check : Z;
  at_record : Z;
  at_cleanup : Z;
  newVerificationToken : string;
  cleanup : bool
}.

Definition recordRateLimitAttempt (d : draws) (e : string)
    (rateLimitStore : attempts_store) : attempts_store :=
  let key := "resend_" +:+ e in
  let attempts := default [] (rateLimitStore !! key) in
  let store' := <[key := attempts ++ [at_record d]]> rateLimitStore in
  if cleanup d then cleanupRateLimit (at_cleanup d) store' else store'.

Definition internal_error : response :=
  {| statusCode := 500;
     body := error_body "Internal server error. Please try again later." |}.

Section Handler.
(** [process.env.URL] *)
Variable URL : string.

Definition handler (up : upstream) (d : draws) (httpMethod : string)
    (parsed : option jsval) (db : list company) (rateLimitStore : attempts_store)
  : response * list company * attempts_store :=
  if bool_decide (httpMethod = "OPTIONS") then
    ({| statusCode := 200; body := VStr "" |}, db, rateLimitStore)
  else if negb (bool_decide (httpMethod = "POST")) then
    ({| statusCode := 405; body := error_body "Method not allowed" |},
     db, rateLimitStore)
  else
    match parsed ≫= (fun requestData => prop requestData "email") with
    | None =>
        ({| statusCode := 400;
            body := error_body "Invalid JSON in request body" |},
         db, rateLimitStore)
    | Some (VStr e) =>
        if bool_decide (e = "") then
          ({| statusCode := 400;
              body := error_body "Email address is required" |},
           db, rateLimitStore)
        else
          let cleanEmail := toLowerCase (trim e) in
          if negb (test emailRegex cleanEmail) || (254 <? strlen cleanEmail) then
            ({| statusCode := 400;
                body := error_body "Invalid email address format" |},
             db, rateLimitStore)
          else
            match findCompanyByEmail up cleanEmail db with
            | None => (internal_error, db, rateLimitStore)
            | Some None =>
                ({| statusCode := 200;
                    body := VObj
                      [("success", VBool true);
                       ("message", VStr
                          "If an account with this email exists, a verification email has been sent.")] |},
                 db, rateLimitStore)
            | Some (Some company) =>
                if email_verified company then
                  ({| statusCode := 200;
                      body := VObj
                        [("success", VBool true);
                         ("message", VStr
                            "Your email is already verified. You can sign in to your account.");
                         ("alreadyVerified", VBool true)] |},
                   db, rateLimitStore)
                else
                  let rateLimitResult :=
                    checkRateLimit (at_check d) cleanEmail rateLimitStore in
                  if negb (allowed rateLimitResult) then
                    ({| statusCode := 429;
                        body := VObj
                          [("error", VStr
                              "Too many verification emails sent. Please wait before requesting another.");
                           ("retryAfter",
                            match retryAfter rateLimitResult with
                            | Some n => VNum (Fin (inject_Z n))
                            | None => VUndefined
                            end)] |},
                     db, rateLimitStore)
                  else
                    let '(ok, db') :=
                      updateVerificationToken up (id company)
                        (newVerificationToken d) db in
                    if negb ok then (internal_error, db', rateLimitStore)
                    else
                      let '(sent, verificationUrl) :=
                        sendVerificationEmail URL (newVerificationToken d) in
                      if negb sent then
                        ({| statusCode := 500;
                            body := error_body
                              "Failed to send verification email. Please try again later." |},
                         db', rateLimitStore)
                      else
                        ({| statusCode := 200;
                            body := VObj
                              [("success", VBool true);
                               ("message", VStr
                                  "Verification email sent successfully! Please check your inbox and spam folder.");
                               ("verificationUrl", VStr verificationUrl)] |},
                         db',
                         recordRateLimitAttempt d cleanEmail rateLimitStore)
            end
    | Some _ =>
        ({| statusCode := 400;
            body := error_body "Email address is required" |},
         db, rateLimitStore)
    end.
End Handler.

(** [generateVerificationToken]: 32 rounds, each appending the character
    at a random position of [characters].  [pick i] is the value of
    [Math.floor(Math.random() * characters.length)] in round [i]. *)
Definition characters : string :=
  "ABCDEFGHIJKLMNOPQRSTUVWXYZabcdefghijklmnopqrstuvwxyz0123456789".

Definition generateVerificationToken (pick : nat -> nat) : string :=
  foldl (fun result i => result +:+ charAt characters (pick i)) ""
        (List.seq 0%nat 32%nat).

End ResendVerification.

(** ** validate-lead-data.js: [validateLeadData] *)

Module ValidateLeadData.

(** The accumulators of the validator: the messages pushed so far and the
    sanitized fields set so far. *)
Record validation := { data : jsobj; errors : list string }.

Definition push (msg : string) (st : validation) : validation :=
  {| data := data st; errors := errors st ++ [msg] |}.

Definition set (k : string) (v : jsval) (st : validation) : validation :=
  {| data := <[k := v]> (data st); errors := errors st |}.

(** [/[^0-9+\-() ]/g] removes every character outside this class. *)
Definition phone_char (c : ascii) : bool :=
  let n := code c in
  ((48 <=? n) && (n <=? 57))
  || char_is "+" c || char_is "-" c || char_is "(" c || char_is ")" c
  || char_is " " c.

Definition sanitizePhone (phone : jsval) : string :=
  match phone with
  | VStr s =>
      let cleaned := trim (of_chars (List.filter phone_char (chars s))) in
      if (10 <=? strlen cleaned) && (strlen cleaned <=? 20) then cleaned else ""
  | _ => ""
  end.

Definition isValidEmail (e : string) : bool :=
  test emailRegex e && (strlen e <=? 254).

Definition validPropertyTypes : list string :=
  ["house"; "condo"; "apartment"; "storage"; "other"].
Definition validTimelines : list string :=
  ["asap"; "month"; "1-3months"; "flexible"; "planning"].

(** [list.includes(v)] for a list of string literals. *)
Definition includes (l : list string) (v : jsval) : bool :=
  match v with
  | VStr s => bool_decide (s ∈ l)
  | _ => false
  end.

(** [!v || typeof v !== 'string'] *)
Definition missing (v : jsval) : bool := negb (truthy v) || negb (is_string v).

Section Validator.
(** [s.replace(re, '')] for the unanchored patterns of [sanitizeText]:
    where the matches lie is decided by the search of the runtime's
    regular-expression engine, given the source and flags of [re]. *)
Variable remove_matches : string -> string -> string -> string.

Definition sanitizeText (input : jsval) (maxLength : Z) : string :=
  match input with
  | VStr s =>
      let cleaned :=
        trim
          (remove_matches "<[^>]*>" "g"
          (remove_matches "on\w+\s*=" "gi"
          (remove_matches "javascript:" "gi"
          (remove_matches "<iframe\b[^<]*(?:(?!<\/iframe>)<[^<]*)*<\/iframe>" "gi"
          (remove_matches "<script\b[^<]*(?:(?!<\/script>)<[^<]*)*<\/script>" "gi"
             s))))) in
      if maxLength <? strlen cleaned
      then substring_to (Z.to_nat maxLength) cleaned
      else cleaned
  | _ => ""
  end.

(** A required free-text field: sanitized to [maxLength] characters and
    required to keep at least [minLength] of them. *)
Definition validate_text (field : string) (maxLength minLength : Z)
    (required tooShort : string) (input : jsobj) (st : validation) : validation :=
  if missing (get input field) then push required st
  else
    let cleaned := sanitizeText (get input field) maxLength in
    let st' := set field (VStr cleaned) st in
    if strlen cleaned <? minLength then push tooShort st' else st'.

Definition validate_firstName :=
  validate_text "firstName" 50 1 "First name is required" "First name cannot be empty".

Definition validate_lastName :=
  validate_text "lastName" 50 1 "Last name is required" "Last name cannot be empty".

Definition validate_email (input : jsobj) (st : validation) : validation :=
  match get input "email" with
  | VStr s =>
      if bool_decide (s = "") then push "Email is required" st
      else
        let cleanEmail := toLowerCase (trim s) in
        if negb (isValidEmail cleanEmail) then push "Invalid email format" st
        else set "email" (VStr cleanEmail) st
  | _ => push "Email is required" st
  end.

Definition validate_phone (input : jsobj) (st : validation) : validation :=
  if missing (get input "phone") then push "Phone number is required" st
  else
    let cleaned := sanitizePhone (get input "phone") in
    let st' := set "phone" (VStr cleaned) st in
    if bool_decide (cleaned = "") then push "Invalid phone number format" st'
    else st'.

Definition validate_address :=
  validate_text "address" 200 10 "Address is required"
    "Address must be at least 10 characters".

Definition validate_enum (field : string) (allowedValues : list string)
    (msg : string) (input : jsobj) (st : validation) : validation :=
  if negb (truthy (get input field)) || negb (includes allowedValues (get input field))
  then push msg st
  else set field (get input field) st.

Definition validate_propertyType :=
  validate_enum "propertyType" validPropertyTypes "Invalid property type".

Definition validate_timeline :=
  validate_enum "timeline" validTimelines "Invalid timeline".

Definition validate_details :=
  validate_text "details" 2000 10 "Details are required"
    "Details must be at least 10 characters".

Definition validate_photoUrls (input : jsobj) (st : validation) : validation :=
  let st0 := set "photoUrls" (VStr "") st in
  match get input "photo-urls" with
  | VStr s =>
      if bool_decide (s = "") then st0
      else
        let urls :=
          List.filter (fun url => negb (bool_decide (trim url = "")))
                      (split " " s) in
        let validUrls :=
          List.filter
            (fun url => startsWith url "https://res.cloudinary.com/"
                        || startsWith url "data:image/") urls in
        set "photoUrls" (VStr (String.concat " " (take 12 validUrls))) st0
  | _ => st0
  end.

(** The checks in the order of the source, each continuing from the
    accumulators the previous one left. *)
Definition validateLeadData (input : jsobj) : validation :=
  validate_photoUrls input
    (validate_details input
      (validate_timeline input
        (validate_propertyType input
          (validate_address input
            (validate_phone input
              (validate_email input
                (validate_lastName input
                  (validate_firstName input
                    {| data := ∅; errors := [] |})))))))).
End Validator.

End ValidateLeadData.

(** ** auth-verify.js *)

Module AuthVerify.

Definition invalid_token : response :=
  {| statusCode := 401; body := error_body "Invalid token" |}.

Section Handler.
Variable String_toNumber : string -> jsnum.
Variable Object_toString : jsval -> string.
(** [jwt.verify(token, secret)]: the decoded payload, or [None] when it
    throws; it throws on a token that is not a string. *)
Variable jwt_verify : string -> string -> option jsobj.
Variable JWT_SECRET : option string.

(** [authHeader?.startsWith('Bearer ') ? authHeader.substring(7) : token];
    [None] is the TypeError of calling [startsWith] on a header that is
    neither nullish nor a string. *)
Definition jwtToken_of (authHeader token : jsval) : option jsval :=
  match authHeader with
  | VUndefined | VNull => Some token
  | VStr h =>
      Some (if startsWith h "Bearer " then VStr (substring_from 7 h) else token)
  | _ => None
  end.

(** [parsed] is the outcome of [JSON.parse(event.body || '{}')], [None]
    when it throws.  Every exception lands in the one [catch]. *)
Definition handler (now : Z) (httpMethod : string) (headers : jsobj)
    (parsed : option jsval) : response :=
  if negb (bool_decide (httpMethod = "POST")) then
    {| statusCode := 405; body := error_body "Method not allowed" |}
  else
    let authHeader := get headers "authorization" in
    match parsed ≫= (fun requestData => prop requestData "token") with
    | None => invalid_token
    | Some token =>
        match jwtToken_of authHeader token with
        | None => invalid_token
        | Some jwtToken =>
            if negb (truthy jwtToken) then
              {| statusCode := 401; body := error_body "No token provided" |}
            else
              match jwtToken with
              | VStr t =>
                  match jwt_verify t
                          (str_or JWT_SECRET
                             "your-super-secret-jwt-key-change-this-in-production")
                  with
                  | None => invalid_token
                  | Some decoded =>
                      if lt_number String_toNumber Object_toString
                           (get decoded "exp") (Fin (inject_Z (now / 1000)))
                      then {| statusCode := 401;
                              body := error_body "Token expired" |}
                      else
                        {| statusCode := 200;
                           body := VObj
                             [("valid", VBool true);
                              ("user", VObj
                                 [("id", get decoded "userId");
                                  ("email", get decoded "email");
                                  ("companyName", get decoded "companyName");
                                  ("subscriptionStatus",
                                   get decoded "subscriptionStatus")])] |}
                  end
              | _ => invalid_token
              end
        end
    end.
End Handler.

End AuthVerify.

(** ** auth-login.js *)

Module AuthLogin.

Record secure_company := {
  id : Z;
  email : string;
  passwordHash : string;
  companyName : string;
  isActive : bool;
  subscriptionStatus : string;
  createdAt : string
}.

Definition SECURE_COMPANIES : list secure_company :=
  [ {| id := 1; email := "demo@estatesales.com";
       passwordHash := "$2a$12$LQv3c1yqBWVHxkd0LQ1lqe.RqWpkC6Bt7FKwfG9rKt8qlgFYD7.Fi";
       companyName := "Demo Estate Sales"; isActive := true;
       subscriptionStatus := "active"; createdAt := "2024-01-01T00:00:00Z" |};
    {| id := 2; email := "premium@estatesales.com";
       passwordHash := "$2a$12$8Hqx9kQjFz2kS7gL9PmNde.jQwE5rXtY6bVcH8fM1nOp3sKlGhDwq";
       companyName := "Premium Estate Sales"; isActive := true;
       subscriptionStatus := "active"; createdAt := "2024-01-01T00:00:00Z" |};
    {| id := 3; email := "charlotte@estatesales.com";
       passwordHash := "$2a$12$mN7vQ2fK8bT5wR9xE1cYte.pL3dS6jH9gA2nV4kM7qO8rT1lUiExF";
       companyName := "Charlotte Estate Solutions"; isActive := true;
       subscriptionStatus := "active"; createdAt := "2024-01-01T00:00:00Z" |} ].

Definition demoPasswords : list (string * string) :=
  [("demo@estatesales.com", "demo123");
   ("premium@estatesales.com", "premium123");
   ("charlotte@estatesales.com", "charlotte123")].

Definition invalid_credentials : response :=
  {| statusCode := 401; body := error_body "Invalid credentials" |}.

Definition internal_error : response :=
  {| statusCode := 500;
     body := VObj
       [("error", VStr "Internal server error");
        ("message", VStr "An unexpected error occurred during authentication")] |}.

(** The claims signed into the token at time [now]. *)
Definition tokenPayload (now : Z) (user : secure_company) : jsobj :=
  <["exp" := VNum (Fin (inject_Z (now / 1000 + 24 * 60 * 60)))]>
  (<["iat" := VNum (Fin (inject_Z (now / 1000)))]>
  (<["subscriptionStatus" := VStr (subscriptionStatus user)]>
  (<["companyName" := VStr (companyName user)]>
  (<["email" := VStr (email user)]>
  (<["userId" := VNum (Fin (inject_Z (id user)))]> ∅))))).

Section Handler.
(** ToString of a value that is not a string, for [emailRegex.test]. *)
Variable ToString : jsval -> string.
(** [await bcrypt.compare(password, hash)], [None] when it throws. *)
Variable bcrypt_compare : jsval -> string -> option bool.
(** [jwt.sign(payload, secret)] *)
Variable jwt_sign : jsobj -> string -> string.
Variable JWT_SECRET : option string.
(** [parseError.message] and [new Date().toISOString()] *)
Variable parse_message : string.
Variable loginTime : string.

(** The password check: bcrypt first, and the plain demo passwords when
    bcrypt throws.  [demoPasswords[email]] is read with the address as it
    was sent. *)
Definition isValidPassword (e : string) (password : jsval)
    (user : secure_company) : bool :=
  match bcrypt_compare password (passwordHash user) with
  | Some b => b
  | None =>
      match (list_to_map demoPasswords : gmap string string) !! e with
      | Some plain => negb (bool_decide (plain = "")) && strict_eq_str password plain
      | None => false
      end
  end.

Definition handler (now : Z) (httpMethod : string) (parsed : option jsval)
  : response :=
  if bool_decide (httpMethod = "OPTIONS") then
    {| statusCode := 200; body := VStr "" |}
  else if negb (bool_decide (httpMethod = "POST")) then
    {| statusCode := 405; body := error_body "Method not allowed" |}
  else
    match parsed with
    | None =>
        {| statusCode := 400;
           body := VObj [("error", VStr "Invalid JSON in request body");
                         ("details", VStr parse_message)] |}
    | Some requestData =>
        match prop requestData "email", prop requestData "password" with
        | Some e, Some password =>
            if negb (truthy e) || negb (truthy password) then
              {| statusCode := 400;
                 body := error_body "Email and password are required" |}
            else
              match e with
              | VStr s =>
                  if negb (test emailRegex s) then
                    {| statusCode := 400;
                       body := error_body "Invalid email format" |}
                  else
                    match
                      List.find
                        (fun u => bool_decide
                                    (toLowerCase (email u) = toLowerCase s))
                        SECURE_COMPANIES
                    with
                    | None => invalid_credentials
                    | Some user =>
                        if negb (isActive user) then
                          {| statusCode := 403;
                             body := error_body "Account is deactivated" |}
                        else if negb (isValidPassword s password user) then
                          invalid_credentials
                        else
                          let jwtSecret :=
                            str_or JWT_SECRET "fallback-secret-key-for-demo" in
                          let token := jwt_sign (tokenPayload now user) jwtSecret in
                          {| statusCode := 200;
                             body := VObj
                               [("success", VBool true);
                                ("user", VObj
                                   [("id", VNum (Fin (inject_Z (id user))));
                                    ("email", VStr (email user));
                                    ("companyName", VStr (companyName user));
                                    ("subscriptionStatus",
                                     VStr (subscriptionStatus user));
                                    ("loginTime", VStr loginTime)]);
                                ("token", VStr token);
                                ("message", VStr "Login successful")] |}
                    end
              | _ =>
                  (* [test] converts the value to a string; past it,
                     [email.toLowerCase()] is a TypeError *)
                  if negb (test emailRegex (ToString e)) then
                    {| statusCode := 400;
                       body := error_body "Invalid email format" |}
                  else internal_error
              end
        | _, _ => internal_error
        end
    end.
End Handler.

End AuthLogin.

(** ** secure-leads-api.js: [validateQueryParams] *)

Module LeadsQuery.

(** The object the handler passes: the three numbers are results of
    [parseInt] ([None] is NaN), the three strings are query parameters
    ([None] is undefined), [purchased] is a comparison. *)
Record params := {
  limit : option Z;
  offset : option Z;
  zipCode : option string;
  radius : option Z;
  timeline : option string;
  propertyType : option string;
  purchased : bool
}.

Record validated := { validatedParams : params; errors : list string }.

Definition is_digit (c : ascii) : bool := (48 <=? code c) && (code c <=? 57).

(** [/^\d{5}$/] *)
Definition zipRegex : regex :=
  Seq (Class is_digit)
   (Seq (Class is_digit)
    (Seq (Class is_digit)
     (Seq (Class is_digit) (Class is_digit)))).

Definition validTimelines : list string :=
  ["asap"; "month"; "1-3months"; "flexible"; "planning"].
Definition validPropertyTypes : list string :=
  ["house"; "condo"; "apartment"; "storage"; "other"].

(** [n < lo || n > hi]; both comparisons are false on NaN. *)
Definition outside (lo hi : Z) (n : option Z) : bool :=
  match n with
  | Some n => (n <? lo) || (hi <? n)
  | None => false
  end.

(** A string parameter is truthy when present and not empty. *)
Definition given (s : option string) : bool :=
  match s with
  | Some s => negb (bool_decide (s = ""))
  | None => false
  end.

Definition listed (allowedValues : list string) (s : option string) : bool :=
  match s with
  | Some s => bool_decide (s ∈ allowedValues)
  | None => false
  end.

(** The seven checks in the order of the source; a string parameter that
    is not set stays undefined. *)
Definition validateQueryParams (p : params) : validated :=
  let limit_bad := outside 1 100 (limit p) in
  let offset_bad := match offset p with Some n => n <? 0 | None => false end in
  let zip_bad := given (zipCode p) && negb (test zipRegex (default "" (zipCode p))) in
  let radius_bad := outside 1 1000 (radius p) in
  let timeline_bad := given (timeline p) && negb (listed validTimelines (timeline p)) in
  let type_bad :=
    given (propertyType p) && negb (listed validPropertyTypes (propertyType p)) in
  {| validatedParams :=
       {| limit := if limit_bad then Some 20 else limit p;
          offset := if offset_bad then Some 0 else offset p;
          zipCode := if given (zipCode p) && negb zip_bad then zipCode p else None;
          radius := if radius_bad then Some 25 else radius p;
          timeline :=
            if given (timeline p) && negb timeline_bad then timeline p else None;
          propertyType :=
            if given (propertyType p) && negb type_bad then propertyType p
            else None;
          purchased := purchased p |};
     errors :=
       (if limit_bad then ["Limit must be between 1 and 100, defaulting to 20"]
        else [])
       ++ (if offset_bad then ["Offset must be non-negative, defaulting to 0"]
           else [])
       ++ (if zip_bad then ["Invalid zip code format"] else [])
       ++ (if radius_bad
           then ["Radius must be between 1 and 1000 miles, defaulting to 25"]
           else [])
       ++ (if timeline_bad then ["Invalid timeline value"] else [])
       ++ (if type_bad then ["Invalid property type"] else []) |}.

(** The object the handler builds from the query string, with the
    defaults of its destructuring. *)
Definition params_of (q : gmap string string) : params :=
  {| limit := parseInt (default "20" (q !! "limit"));
     offset := parseInt (default "0" (q !! "offset"));
     zipCode := q !! "zipCode";
     radius := parseInt (default "25" (q !! "radius"));
     timeline := q !! "timeline";
     propertyType := q !! "propertyType";
     purchased := bool_decide (default "false" (q !! "purchased") = "true") |}.

End LeadsQuery.

(** ** validate-lead-data.js: the handler and [extractZipCode] *)

Module LeadSubmission.

(** [\w] *)
Definition is_word (c : ascii) : bool :=
  VerifyEmail.is_alnum c || char_is "_" c.

(** Whether [/\b\d{5}(-\d{4})?\b/] matches at the head of [l], the
    character before being [prev]: five digits, not preceded by a word
    character, and followed by the end or by a character that is no word
    character.  (When the optional group matches but is followed by a word
    character, the pattern still matches without the group, since the
    hyphen is no word character; either way the first five characters of
    the match are the five digits.) *)
Definition zip_at (prev : option ascii) (l : list ascii) : option (list ascii) :=
  match l with
  | d1 :: d2 :: d3 :: d4 :: d5 :: rest =>
      if forallb LeadsQuery.is_digit [d1; d2; d3; d4; d5]
         && negb (from_option is_word false prev)
         && negb (from_option is_word false (head rest))
      then Some [d1; d2; d3; d4; d5]
      else None
  | _ => None
  end.

(** The leftmost match. *)
Fixpoint find_zip (prev : option ascii) (l : list ascii) : option (list ascii) :=
  match zip_at prev l with
  | Some z => Some z
  | None =>
      match l with
      | c :: l' => find_zip (Some c) l'
      | [] => None
      end
  end.

(** [extractZipCode] on the sanitized address, a string. *)
Definition extractZipCode (address : string) : string :=
  if bool_decide (address = "") then ""
  else match find_zip None (chars address) with
       | Some z => of_chars z
       | None => ""
       end.

(** The value [data.k] reads from a parsed body: [None] is the TypeError
    on null; a later duplicate key wins; values that are no objects have
    none of the properties read. *)
Definition fields_of (v : jsval) : option jsobj :=
  match v with
  | VUndefined | VNull => None
  | VObj props => Some (foldl (fun m kv => <[kv.1 := kv.2]> m) ∅ props)
  | _ => Some ∅
  end.

Definition failed : response :=
  {| statusCode := 500; body := error_body "Failed to process submission" |}.

Section Handler.
Variable remove_matches : string -> string -> string -> string.

(** The row sent to the [Leads] table. *)
Definition leadData (created_at : string) (data : jsobj) : jsobj :=
  list_to_map
    [("first_name", get data "firstName");
     ("last_name", get data "lastName");
     ("email", get data "email");
     ("phone", get data "phone");
     ("address", get data "address");
     ("zip_code",
      VStr (match get data "address" with
            | VStr a => extractZipCode a
            | _ => ""
            end));
     ("property_type", get data "propertyType");
     ("timeline", get data "timeline");
     ("details", get data "details");
     ("photo_urls", get data "photoUrls");
     ("price", VNum (Fin 39.99));
     ("purchased", VBool false);
     ("purchased_by", VNull);
     ("exclusive_purchased_by", VNull);
     ("created_at", VStr created_at)].

(** [parsed] is the outcome of [JSON.parse(event.body)], [created_at]
    the reading of [new Date().toISOString()], [insert_ok] whether the
    datastore answers the insert with [response.ok]; the table is the list
    of the rows inserted so far. *)
Definition handler (insert_ok : bool) (created_at : string)
    (httpMethod : string) (parsed : option jsval) (leads : list jsobj)
  : response * list jsobj :=
  if negb (bool_decide (httpMethod = "POST")) then
    ({| statusCode := 405; body := error_body "Method not allowed" |}, leads)
  else
    match parsed ≫= fields_of with
    | None => (failed, leads)
    | Some rawData =>
        let validatedData :=
          ValidateLeadData.validateLeadData remove_matches rawData in
        match ValidateLeadData.errors validatedData with
        | _ :: _ =>
            ({| statusCode := 400;
                body := VObj
                  [("error", VStr "Validation failed");
                   ("details",
                    VArr (map VStr (ValidateLeadData.errors validatedData)))] |},
             leads)
        | [] =>
            if negb insert_ok then (failed, leads)
            else
              ({| statusCode := 200;
                  body := VObj
                    [("success", VBool true);
                     ("message", VStr "Lead submitted successfully")] |},
               leads ++ [leadData created_at (ValidateLeadData.data validatedData)])
        end
    end.
End Handler.

End LeadSubmission.

(** ** company-signup.js *)

Module CompanySignup.
Import ValidateLeadData.

Definition requiredFields : list string :=
  ["firstName"; "lastName"; "companyName"; "email"; "phone"; "password";
   "confirmPassword"; "businessAddress"; "businessType"; "yearsInBusiness";
   "serviceAreas"].

Definition validBusinessTypes : list string :=
  ["estate_sale_company"; "auction_house"; "liquidation_service";
   "antique_dealer"; "consignment_shop"; "other"].

Definition validYears : list string := ["0-1"; "1-3"; "3-5"; "5-10"; "10+"].

(** [!v || typeof v !== 'string' || !v.trim()] *)
Definition blank (v : jsval) : bool :=
  match v with
  | VStr s => bool_decide (trim s = "")
  | _ => true
  end.

(** [/^[\+]?[1-9][\d\-\s\(\)]{8,}$/] *)
Definition phone_tail (c : ascii) : bool :=
  LeadsQuery.is_digit c || char_is "-" c || is_space c
  || char_is "(" c || char_is ")" c.

Definition phoneRegex : regex :=
  Seq (Alt (Class (char_is "+")) Eps)
   (Seq (Class (fun c => (49 <=? code c) && (code c <=? 57)))
    (Seq (Class phone_tail) (Seq (Class phone_tail) (Seq (Class phone_tail)
     (Seq (Class phone_tail) (Seq (Class phone_tail) (Seq (Class phone_tail)
      (Seq (Class phone_tail) (Seq (Class phone_tail)
        (Star (Class phone_tail))))))))))).

(** [/^(?=.*[a-z])(?=.*[A-Z])(?=.*\d)[a-zA-Z\d@$!%*?&]{8,}$/] tests that
    the string has at least eight characters, all of the class, among
    them a small letter, a capital and a digit: a string of the class has
    no line break, so each lookahead finds its character wherever it is. *)
Definition is_lower (c : ascii) : bool := (97 <=? code c) && (code c <=? 122).
Definition is_upper (c : ascii) : bool := (65 <=? code c) && (code c <=? 90).

Definition password_char (c : ascii) : bool :=
  is_lower c || is_upper c || LeadsQuery.is_digit c
  || char_is "@" c || char_is "$" c || char_is "!" c || char_is "%" c
  || char_is "*" c || char_is "?" c || char_is "&" c.

Definition passwordRegex_test (s : string) : bool :=
  existsb is_lower (chars s) && existsb is_upper (chars s)
  && existsb LeadsQuery.is_digit (chars s)
  && forallb password_char (chars s) && (8 <=? strlen s).

(** [/^https?:\/\/.+\..+$/]; the dot matches all but line breaks. *)
Definition no_line_break (c : ascii) : bool :=
  negb ((code c =? 10) || (code c =? 13)).

Definition urlRegex : regex :=
  Seq (Class (char_is "h")) (Seq (Class (char_is "t")) (Seq (Class (char_is "t"))
   (Seq (Class (char_is "p")) (Seq (Alt (Class (char_is "s")) Eps)
    (Seq (Class (char_is ":")) (Seq (Class (char_is "/")) (Seq (Class (char_is "/"))
     (Seq (Plus (Class no_line_break))
      (Seq (Class (char_is ".")) (Plus (Class no_line_break))))))))))).

Section Validator.
Variable remove_matches : string -> string -> string -> string.
(** ToString of a value that is not a string, for [RegExp.prototype.test]. *)
Variable ToString : jsval -> string.

Definition string_of (v : jsval) : string :=
  match v with VStr s => s | _ => ToString v end.

Definition check_required (input : jsobj) (st : validation) : validation :=
  foldl (fun st field =>
           if blank (get input field) then push (field +:+ " is required") st
           else st)
        st requiredFields.

(** A text field that is present: sanitized, stored, and reported when
    shorter than [minLength]. *)
Definition check_text (field : string) (maxLength minLength : Z) (msg : string)
    (input : jsobj) (st : validation) : validation :=
  if truthy (get input field) then
    let cleaned := sanitizeText remove_matches (get input field) maxLength in
    let st' := set field (VStr cleaned) st in
    if strlen cleaned <? minLength then push msg st' else st'
  else st.

(** [None] is the TypeError of [data.email.trim()] on a truthy value that
    is no string. *)
Definition check_email (input : jsobj) (st : validation) : option validation :=
  if truthy (get input "email") then
    match get input "email" with
    | VStr s =>
        let cleanEmail := toLowerCase (trim s) in
        if negb (test emailRegex cleanEmail) || (254 <? strlen cleanEmail)
        then Some (push "Invalid email format" st)
        else Some (set "email" (VStr cleanEmail) st)
    | _ => None
    end
  else Some st.

(** [None] is the TypeError of [data.phone.replace(...)]. *)
Definition check_phone (input : jsobj) (st : validation) : option validation :=
  if truthy (get input "phone") then
    match get input "phone" with
    | VStr s =>
        let cleanPhone := trim (of_chars (List.filter phone_char (chars s))) in
        if negb (test phoneRegex cleanPhone)
        then Some (push "Invalid phone number format" st)
        else Some (set "phone" (VStr cleanPhone) st)
    | _ => None
    end
  else Some st.

Definition check_password (input : jsobj) (st : validation) : validation :=
  if truthy (get input "password") then
    if negb (passwordRegex_test (string_of (get input "password"))) then
      push "Password must be at least 8 characters with uppercase, lowercase, and number" st
    else if negb (strict_eq (get input "password") (get input "confirmPassword"))
    then push "Passwords do not match" st
    else set "password" (get input "password") st
  else st.

Definition check_enum (field : string) (allowedValues : list string)
    (msg : string) (input : jsobj) (st : validation) : validation :=
  if truthy (get input field) && negb (includes allowedValues (get input field))
  then push msg st
  else set field (get input field) st.

Definition check_optional (field : string) (maxLength : Z)
    (input : jsobj) (st : validation) : validation :=
  if truthy (get input field)
  then set field (VStr (sanitizeText remove_matches (get input field) maxLength)) st
  else st.

Definition check_websiteUrl (input : jsobj) (st : validation) : validation :=
  if truthy (get input "websiteUrl") then
    if negb (test urlRegex (string_of (get input "websiteUrl")))
    then push "Invalid website URL format" st
    else set "websiteUrl" (get input "websiteUrl") st
  else st.

Definition check_agreements (input : jsobj) (st : validation) : validation :=
  let termsAgreement := is_true (get input "termsAgreement") in
  let backgroundCheck := is_true (get input "backgroundCheck") in
  let communicationConsent := is_true (get input "communicationConsent") in
  let professionalConduct := is_true (get input "professionalConduct") in
  let st1 :=
    set "professionalConduct" (VBool professionalConduct)
      (set "communicationConsent" (VBool communicationConsent)
        (set "backgroundCheck" (VBool backgroundCheck)
          (set "termsAgreement" (VBool termsAgreement) st))) in
  let st2 :=
    if negb termsAgreement
    then push "Terms of service agreement is required" st1 else st1 in
  let st3 :=
    if negb backgroundCheck
    then push "Background check consent is required" st2 else st2 in
  if negb professionalConduct
  then push "Professional conduct agreement is required" st3 else st3.

(** The checks in the order of the source; [isValid] is
    [errors.length === 0]. *)
Definition validateSignupData (input : jsobj) : option validation :=
  let st1 :=
    check_text "companyName" 100 2 "Company name must be at least 2 characters" input
      (check_text "lastName" 50 2 "Last name must be at least 2 characters" input
        (check_text "firstName" 50 2 "First name must be at least 2 characters" input
          (check_required input {| data := ∅; errors := [] |}))) in
  st2 ← check_email input st1;
  st3 ← check_phone input st2;
  Some
    (check_agreements input
      (check_websiteUrl input
        (check_optional "insuranceCarrier" 100 input
          (check_optional "licenseNumber" 50 input
            (check_text "serviceAreas" 500 5
               "Service areas must be at least 5 characters" input
              (check_enum "yearsInBusiness" validYears
                 "Invalid years in business" input
                (check_enum "businessType" validBusinessTypes
                   "Invalid business type" input
                  (check_text "businessAddress" 200 10
                     "Business address must be complete" input
                    (check_password input st3))))))))).

Definition isValid (v : validation) : bool :=
  match errors v with [] => true | _ => false end.
End Validator.

(** What the datastore answers to the calls of one signup: whether the
    lookup by email and the insert come back with [response.ok], and the
    id the inserted row is given. *)
Record datastore := { lookup_ok : bool; insert_ok : bool; assigned_id : Z }.

(** [checkExistingUser]: a failed lookup counts as "no such user". *)
Definition checkExistingUser (ds : datastore) (e : string)
    (db : list Companies.company) : bool :=
  if lookup_ok ds
  then match Companies.select_by_email e db with [] => false | _ => true end
  else false.

(** [saveCompanyToDatabase], on the columns of the table the verification
    handlers use: the success flag and the table after.  A row is stored
    whenever the insert is answered, also when no id comes back. *)
Definition saveCompanyToDatabase (ds : datastore) (row : Companies.company)
    (db : list Companies.company) : bool * list Companies.company :=
  if insert_ok ds
  then (negb (assigned_id ds =? 0), db ++ [row])
  else (false, db).

Definition internal_error : response :=
  {| statusCode := 500;
     body := error_body "Internal server error. Please try again later." |}.

Section Handler.
Variable remove_matches : string -> string -> string -> string.
Variable ToString : jsval -> string.

(** A sanitized field of a valid submission, a string. *)
Definition field (v : validation) (k : string) : string :=
  match get (data v) k with VStr s => s | _ => "" end.

(** [pick] are the draws of [generateVerificationToken], [created_at] the
    reading of [new Date().toISOString()].  Reading a property of a body
    that parsed to null throws inside the inner [try], which answers as
    for a body that does not parse. *)
Definition handler (ds : datastore) (pick : nat -> nat) (created_at : string)
    (httpMethod : string) (parsed : option jsval) (db : list Companies.company)
  : response * list Companies.company :=
  if bool_decide (httpMethod = "OPTIONS") then
    ({| statusCode := 200; body := VStr "" |}, db)
  else if negb (bool_decide (httpMethod = "POST")) then
    ({| statusCode := 405; body := error_body "Method not allowed" |}, db)
  else
    match parsed ≫= LeadSubmission.fields_of with
    | None =>
        ({| statusCode := 400;
            body := error_body "Invalid JSON in request body" |}, db)
    | Some requestData =>
        match validateSignupData remove_matches ToString requestData with
        | None => (internal_error, db)
        | Some validationResult =>
            if negb (isValid validationResult) then
              ({| statusCode := 400;
                  body := VObj
                    [("error", VStr "Validation failed");
                     ("details", VArr (map VStr (errors validationResult)))] |},
               db)
            else if checkExistingUser ds (field validationResult "email") db then
              ({| statusCode := 409;
                  body := error_body
                    "An account with this email already exists. Please sign in or use a different email address." |},
               db)
            else
              let verificationToken :=
                ResendVerification.generateVerificationToken pick in
              let companyData :=
                {| Companies.id := assigned_id ds;
                   Companies.email := field validationResult "email";
                   Companies.company_name := field validationResult "companyName";
                   Companies.first_name := field validationResult "firstName";
                   Companies.email_verified := false;
                   Companies.account_status := "pending_verification";
                   Companies.verification_token := Some verificationToken;
                   Companies.created_at := created_at |} in
              let '(success, db') := saveCompanyToDatabase ds companyData db in
              if negb success then (internal_error, db')
              else
                ({| statusCode := 201;
                    body := VObj
                      [("success", VBool true);
                       ("message", VStr
                          "Account created successfully! Please check your email for verification instructions.");
                       ("companyId", VNum (Fin (inject_Z (assigned_id ds))));
                       ("verificationRequired", VBool true)] |},
                 db')
        end
    end.
End Handler.

End CompanySignup.

(** ** secure-leads-api.js, datastore variant: the handler *)

Module SecureLeadsApi.

Record page_meta := {
  count : Z;
  offset : option Z;
  limit : option Z;
  hasMore : bool
}.

Inductive reply_body :=
  | BodyEmpty
  | BodyError (error : string)
  | BodyTooMany (error : string) (retryAfter : Z)
  | BodyInvalid (error : string) (details : list string)
  | BodyLeads (data : list jsobj) (meta : page_meta).

Record response := { statusCode : Z; body : reply_body }.

Section Handler.
Variable Date_parse : string -> timeval.
Variable String_toNumber : string -> jsnum.
Variable Object_toString : jsval -> string.
Variable jwt_verify : string -> string -> option jsobj.
Variable JWT_SECRET : option string.
(** ToString, for the key of the limiter. *)
Variable ToString : jsval -> string.
(** [fetchLeadsSecurely]: the rows the datastore returns for the query
    built from the validated parameters and the caller, [None] when it
    throws. *)
Variable fetchLeadsSecurely :
  LeadsQuery.params -> jsobj -> option (list SecureLeads.lead_row).

(** [event.headers['client-ip'] || 'unknown'], as the template literal of
    the limiter's key reads it. *)
Definition clientIP (headers : jsobj) : string :=
  match or_else (get headers "client-ip") (VStr "unknown") with
  | VStr s => s
  | v => ToString v
  end.

Definition handler (now : Z) (ev : SecureLeadsDemo.event)
    (rateLimitStorage : gmap string SecureLeads.limit_entry)
  : response * gmap string SecureLeads.limit_entry :=
  if bool_decide (SecureLeadsDemo.httpMethod ev = "OPTIONS") then
    ({| statusCode := 200; body := BodyEmpty |}, rateLimitStorage)
  else if negb (bool_decide (SecureLeadsDemo.httpMethod ev = "GET")) then
    ({| statusCode := 405; body := BodyError "Method not allowed" |},
     rateLimitStorage)
  else
    match SecureLeads.authenticateRequest String_toNumber Object_toString
            jwt_verify JWT_SECRET now (SecureLeadsDemo.headers ev) with
    | SecureLeadsDemo.AuthFailure e =>
        ({| statusCode := 401; body := BodyError e |}, rateLimitStorage)
    | SecureLeadsDemo.AuthSuccess user =>
        let '(rateLimitResult, storage) :=
          SecureLeads.checkRateLimit ToString now (get user "userId")
            (clientIP (SecureLeadsDemo.headers ev)) rateLimitStorage in
        if negb (SecureLeads.allowed rateLimitResult) then
          ({| statusCode := 429;
              body := BodyTooMany "Too many requests. Please try again later."
                        3600 |}, storage)
        else
          let validatedParams :=
            LeadsQuery.validateQueryParams
              (LeadsQuery.params_of (SecureLeadsDemo.queryStringParameters ev)) in
          match LeadsQuery.errors validatedParams with
          | _ :: _ =>
              ({| statusCode := 400;
                  body := BodyInvalid "Invalid parameters"
                            (LeadsQuery.errors validatedParams) |}, storage)
          | [] =>
              let params := LeadsQuery.validatedParams validatedParams in
              match fetchLeadsSecurely params user with
              | None =>
                  ({| statusCode := 500;
                      body := BodyError "Internal server error" |}, storage)
              | Some leads =>
                  let sanitizedLeads :=
                    map (fun lead =>
                           SecureLeads.sanitizeLead Date_parse Object_toString
                             now lead user) leads in
                  ({| statusCode := 200;
                      body := BodyLeads sanitizedLeads
                        {| count := Z.of_nat (length sanitizedLeads);
                           offset := LeadsQuery.offset params;
                           limit := LeadsQuery.limit params;
                           hasMore :=
                             match LeadsQuery.limit params with
                             | Some n => Z.of_nat (length sanitizedLeads) =? n
                             | None => false
                             end |} |}, storage)
              end
          end
    end.
End Handler.

End SecureLeadsApi.

(** * Vocabulary of the statements *)

Module Spec.

(** The five contact fields of a projected lead, in the order first name,
    last name, email, phone, address. *)
Definition contact_keys : list string :=
  ["firstName"; "lastName"; "email"; "phone"; "address"].

Definition contact_view (out : jsobj) : list (option jsval) :=
  map (fun k => out !! k) contact_keys.

Definition placeholders : list (option jsval) :=
  [Some (VStr "Subscribe"); Some (VStr "to view");
   Some (VStr "subscription@required.com"); Some (VStr "***-***-****");
   Some (VStr "Subscription required to view address")].

(** The caller's subscription status is the string [active]. *)
Definition subscribed (user : jsobj) : bool :=
  strict_eq_str (get user "subscriptionStatus") "active".

(** An exclusive buyer is recorded when the column holds a truthy value
    (a company name), as opposed to null, undefined or an empty string. *)
Definition has_buyer (buyer : jsval) : bool := truthy buyer.

(** The sixteen properties of a projected lead. *)
Definition output_keys : gset string :=
  list_to_set
    ["id"; "propertyType"; "timeline"; "details"; "photos"; "zipCode";
     "dateSubmitted"; "price"; "isInExclusiveWindow"; "exclusivePurchasedBy";
     "exclusivePurchaseDate"; "firstName"; "lastName"; "email"; "phone";
     "address"].

Definition day_ms : Z := 24 * 60 * 60 * 1000.

(** The [exp] claim of a decoded token lies before the current time in
    whole seconds. *)
Definition exp_passed (String_toNumber : string -> jsnum)
    (Object_toString : jsval -> string) (now : Z) (decoded : jsobj) : bool :=
  lt_number String_toNumber Object_toString (get decoded "exp")
    (Fin (inject_Z (now / 1000))).

(** The four claims handed to the endpoint. *)
Definition claims_of (decoded : jsobj) : jsobj :=
  <["subscriptionStatus" := get decoded "subscriptionStatus"]>
  (<["companyName" := get decoded "companyName"]>
  (<["email" := get decoded "email"]>
  (<["userId" := get decoded "userId"]> ∅))).

(** The answers of a fixed-window limiter to calls for one key at the
    given times, and the store they leave. *)
Fixpoint calls (windowMs maxRequests : Z) (key : string) (times : list Z)
    (st : gmap string SecureLeads.limit_entry)
  : list bool * gmap string SecureLeads.limit_entry :=
  match times with
  | [] => ([], st)
  | t :: rest =>
      let '(r, st1) := SecureLeads.fixed_window windowMs maxRequests t key st in
      let '(rs, st2) := calls windowMs maxRequests key rest st1 in
      (SecureLeads.allowed r :: rs, st2)
  end.

(** A POST body carrying a verification token. *)
Definition token_request (token : string) : option jsval :=
  Some (VObj [("token", VStr token)]).

(** The reply of verify-email.js to a token whose lookup finds no row. *)
Definition token_not_found : response :=
  {| statusCode := 404;
     body := error_body
       "Invalid or expired verification token. The link may have already been used or expired." |}.

(** A row as [updateCompanyVerification] leaves it. *)
Definition verified (c : Companies.company) : Prop :=
  Companies.email_verified c = true
  /\ Companies.account_status c = "email_verified"
  /\ Companies.verification_token c = None.

(** A POST body asking to resend the verification email to [raw]. *)
Definition email_request (raw : string) : option jsval :=
  Some (VObj [("email", VStr raw)]).

(** The address as the handler normalises it. *)
Definition clean_email (raw : string) : string := toLowerCase (trim raw).

(** One resend request as the process sees it: what the datastore will
    answer, the clock readings and random draws, and the address sent. *)
Record resend_call := {
  call_upstream : Companies.upstream;
  call_draws : ResendVerification.draws;
  call_email : string
}.

Definition serve (URL : string) (c : resend_call)
    (state : list Companies.company * ResendVerification.attempts_store)
  : response * list Companies.company * ResendVerification.attempts_store :=
  ResendVerification.handler URL (call_upstream c) (call_draws c) "POST"
    (email_request (call_email c)) state.1 state.2.

(** The clock readings of a call in program order, and of two calls one
    after the other. *)
Definition clock_ordered (c : resend_call) : Prop :=
  ResendVerification.at_check (call_draws c)
    <= ResendVerification.at_record (call_draws c)
  /\ ResendVerification.at_record (call_draws c)
    <= ResendVerification.at_cleanup (call_draws c).

Definition before (c1 c2 : resend_call) : Prop :=
  ResendVerification.at_cleanup (call_draws c1)
    <= ResendVerification.at_check (call_draws c2).

(** The whole seconds until the oldest of the attempts that are recent
    at time [now] leaves the window. *)
Definition seconds_left (now : Z) (attempts : list Z) : Z :=
  ceil_div
    (ResendVerification.windowMs
     - (now - ResendVerification.list_min (ResendVerification.recent now attempts)))
    1000.

(** The replies of resend-verification.js to a request that went through
    and to one refused by the limiter. *)
Definition resend_sent (URL : string) (d : ResendVerification.draws) : response :=
  {| statusCode := 200;
     body := VObj
       [("success", VBool true);
        ("message", VStr
           "Verification email sent successfully! Please check your inbox and spam folder.");
        ("verificationUrl", VStr
           (URL +:+ "/company-verify-email.html?token="
                +:+ ResendVerification.newVerificationToken d))] |}.

Definition resend_refused (retryAfter : option Z) : response :=
  {| statusCode := 429;
     body := VObj
       [("error", VStr
           "Too many verification emails sent. Please wait before requesting another.");
        ("retryAfter",
         match retryAfter with
         | Some n => VNum (Fin (inject_Z n))
         | None => VUndefined
         end)] |}.

(** The schema of a lead submission: for each required field its name,
    the check [validateLeadData] runs for it, the form a supplied string
    takes once sanitized, and the rule a supplied string has to pass. *)
Record field_rule := {
  field_name : string;
  field_check : jsobj -> ValidateLeadData.validation -> ValidateLeadData.validation;
  field_cleaned : string -> string;
  field_valid : string -> bool
}.

Definition phone_cleaned (s : string) : string :=
  trim (of_chars (List.filter ValidateLeadData.phone_char (chars s))).

Section Schema.
Variable remove_matches : string -> string -> string -> string.

Definition text_rule (name : string) (maxLength minLength : Z)
    (check : jsobj -> ValidateLeadData.validation -> ValidateLeadData.validation)
  : field_rule :=
  let cleaned s := ValidateLeadData.sanitizeText remove_matches (VStr s) maxLength in
  {| field_name := name;
     field_check := check;
     field_cleaned := cleaned;
     field_valid := fun s => minLength <=? strlen (cleaned s) |}.

Definition enum_rule (name : string) (allowedValues : list string)
    (check : jsobj -> ValidateLeadData.validation -> ValidateLeadData.validation)
  : field_rule :=
  {| field_name := name;
     field_check := check;
     field_cleaned := trim;
     field_valid := fun s => bool_decide (s ∈ allowedValues) |}.

Definition lead_schema : list field_rule :=
  [ text_rule "firstName" 50 1
      (ValidateLeadData.validate_firstName remove_matches);
    text_rule "lastName" 50 1
      (ValidateLeadData.validate_lastName remove_matches);
    {| field_name := "email";
       field_check := ValidateLeadData.validate_email;
       field_cleaned := fun s => toLowerCase (trim s);
       field_valid := fun s =>
         test emailRegex (toLowerCase (trim s))
         && (strlen (toLowerCase (trim s)) <=? 254) |};
    {| field_name := "phone";
       field_check := ValidateLeadData.validate_phone;
       field_cleaned := phone_cleaned;
       field_valid := fun s =>
         (10 <=? strlen (phone_cleaned s)) && (strlen (phone_cleaned s) <=? 20) |};
    text_rule "address" 200 10
      (ValidateLeadData.validate_address remove_matches);
    enum_rule "propertyType" ValidateLeadData.validPropertyTypes
      ValidateLeadData.validate_propertyType;
    enum_rule "timeline" ValidateLeadData.validTimelines
      ValidateLeadData.validate_timeline;
    text_rule "details" 2000 10
      (ValidateLeadData.validate_details remove_matches) ].
End Schema.

(** The accumulators before the first check. *)
Definition nothing_yet : ValidateLeadData.validation :=
  {| ValidateLeadData.data := ∅; ValidateLeadData.errors := [] |}.

(** The messages the check of one field reports when run on its own. *)
Definition field_errors (input : jsobj) (rule : field_rule) : list string :=
  ValidateLeadData.errors (field_check rule input nothing_yet).

(** The field is supplied as a non-empty string that passes its rule. *)
Definition accepted (input : jsobj) (rule : field_rule) : bool :=
  match get input (field_name rule) with
  | VStr s => negb (bool_decide (s = "")) && field_valid rule s
  | _ => false
  end.

(** The field is absent (or otherwise falsy), not a string, or a string
    that is blank after sanitization. *)
Definition unusable (input : jsobj) (rule : field_rule) : Prop :=
  ValidateLeadData.missing (get input (field_name rule)) = true
  \/ exists s, get input (field_name rule) = VStr s /\ field_cleaned rule s = "".

(** The reply of resend-verification.js when no row has the address. *)
Definition resend_generic : response :=
  {| statusCode := 200;
     body := VObj
       [("success", VBool true);
        ("message", VStr
           "If an account with this email exists, a verification email has been sent.")] |}.

(** The page and the [meta] of a listing reply. *)
Definition page_of (b : SecureLeadsDemo.leads_body) : list jsobj :=
  match b with
  | SecureLeadsDemo.BodyLeads data _ => data
  | _ => []
  end.

Definition meta_of (b : SecureLeadsDemo.leads_body)
  : option SecureLeadsDemo.page_meta :=
  match b with
  | SecureLeadsDemo.BodyLeads _ meta => Some meta
  | _ => None
  end.

End Spec.

(** * Sample inputs *)

Module Sample.

(** A runtime whose date parser and conversions know no string. *)
Definition no_date : string -> timeval := fun _ => None.
Definition no_matches : string -> string -> string -> string := fun _ _ s => s.
Definition no_string : jsval -> string := fun _ => "".
Definition no_number : string -> jsnum := fun _ => NaN.

(** A lead submitted at the epoch. *)
Definition lead_of_epoch : jsobj := <["created_at" := VNum (Fin 0)]> ∅.

(** A verifier that accepts the token [good] only, with a payload expiring
    at second 2000. *)
Definition payload : jsobj :=
  list_to_map
    [("userId", VNum (Fin 1)); ("email", VStr "demo@estatesales.com");
     ("companyName", VStr "Demo Estate Sales");
     ("subscriptionStatus", VStr "active");
     ("iat", VNum (Fin 1000)); ("exp", VNum (Fin 2000))].

Definition verifier (token secret : string) : option jsobj :=
  if bool_decide (token = "good") then Some payload else None.

Definition bearer_good : jsobj := <["authorization" := VStr "Bearer good"]> ∅.

(** A parser that reads every string as the epoch. *)
Definition epoch_date : string -> timeval := fun _ => Some 0.

Definition all_ok : Companies.upstream :=
  {| Companies.query_ok := true; Companies.update_ok := true |}.

(** One pending account and its 20-character token. *)
Definition pending_token : string := "abcdefghij0123456789".

Definition pending_company : Companies.company :=
  {| Companies.id := 7;
     Companies.email := "owner@example.com";
     Companies.company_name := "Example Estates";
     Companies.first_name := "Pat";
     Companies.email_verified := false;
     Companies.account_status := "pending_verification";
     Companies.verification_token := Some pending_token;
     Companies.created_at := "2024-01-15T10:00:00Z" |}.

Definition verified_company : Companies.company :=
  {| Companies.id := 7;
     Companies.email := "owner@example.com";
     Companies.company_name := "Example Estates";
     Companies.first_name := "Pat";
     Companies.email_verified := true;
     Companies.account_status := "email_verified";
     Companies.verification_token := None;
     Companies.created_at := "2024-01-15T10:00:00Z" |}.

(** A resend request for the sample account, and the clock readings and
    random draws of serving it at time [t]. *)
Definition resend_request : option jsval :=
  Some (VObj [("email", VStr "Owner@Example.com ")]).

Definition draws_at (t : Z) : ResendVerification.draws :=
  {| ResendVerification.at_check := t;
     ResendVerification.at_record := t + 1;
     ResendVerification.at_cleanup := t + 2;
     ResendVerification.newVerificationToken := "ZYXWVUTSRQPONMLKJIHGFEDCBA987654";
     ResendVerification.cleanup := true |}.

Definition site : string := "https://estatesaleconnect.com".

Definition resend_at (t : Z) : Spec.resend_call :=
  {| Spec.call_upstream := all_ok;
     Spec.call_draws := draws_at t;
     Spec.call_email := "Owner@Example.com " |}.

(** An authenticated listing request asking for a page of [-1] leads. *)
Definition negative_limit_event : SecureLeadsDemo.event :=
  {| SecureLeadsDemo.httpMethod := "GET";
     SecureLeadsDemo.headers := bearer_good;
     SecureLeadsDemo.queryStringParameters := {["limit" := "-1"]} |}.

End Sample.

(** * Further vocabulary and sample inputs *)

Module Notions.

(** A stored entry of the fixed-window limiter. *)
Definition entry (c r : Z) : SecureLeads.limit_entry :=
  {| SecureLeads.count := c; SecureLeads.resetTime := r |}.

(** How many of [n] calls a window lets through when its counter stands
    at [c] and its maximum is [N]. *)
Definition room (N c : Z) (n : nat) : nat :=
  Z.to_nat (Z.min (Z.of_nat n) (Z.max (N - c) 0)).

(** Two rows of the Companies table that agree on the columns no
    verification handler writes. *)
Definition same_account (c c' : Companies.company) : Prop :=
  Companies.id c' = Companies.id c
  /\ Companies.email c' = Companies.email c
  /\ Companies.company_name c' = Companies.company_name c
  /\ Companies.first_name c' = Companies.first_name c
  /\ Companies.created_at c' = Companies.created_at c.

(** A token made of at least 16 letters and digits. *)
Definition well_formed_token (t : string) : bool :=
  forallb VerifyEmail.is_alnum (chars t) && (16 <=? strlen t).

(** Two replies of verify-email.js. *)
Definition token_format_error : response :=
  {| statusCode := 400;
     body := error_body "Invalid verification token format" |}.

Definition token_expired : response :=
  {| statusCode := 400;
     body := error_body
       "Verification token has expired. Please request a new verification email." |}.

(** A row as [updateVerificationToken] leaves it. *)
Definition with_token (newToken : string) (c : Companies.company)
  : Companies.company :=
  {| Companies.id := Companies.id c; Companies.email := Companies.email c;
     Companies.company_name := Companies.company_name c;
     Companies.first_name := Companies.first_name c;
     Companies.email_verified := Companies.email_verified c;
     Companies.account_status := Companies.account_status c;
     Companies.verification_token := Some newToken;
     Companies.created_at := Companies.created_at c |}.

(** The reply of verify-email.js to a first successful verification. *)
Definition verification_done (company : Companies.company) : response :=
  {| statusCode := 200;
     body := VObj
       [("success", VBool true);
        ("message", VStr
           "Email verified successfully! Your account is now active.");
        ("company", VObj
           [("company_name", VStr (Companies.company_name company));
            ("email", VStr (Companies.email company));
            ("account_status", VStr "email_verified");
            ("first_name", VStr (Companies.first_name company))])] |}.

(** The filters a listing request carries: for each of the three
    parameters given with a non-empty value, the lead's field is that
    string. *)
Definition passes (q : gmap string string) (lead : jsobj) : Prop :=
  forall k v, k ∈ ["timeline"; "propertyType"; "zipCode"] ->
              q !! k = Some v -> v <> "" -> get lead k = VStr v.

(** The five raw contact fields of a lead of the demo table. *)
Definition raw_contacts (lead : jsobj) : list (option jsval) :=
  map (fun k => Some (get lead k)) Spec.contact_keys.

(** A listing request with the sample bearer token and no query. *)
Definition listing_event : SecureLeadsDemo.event :=
  {| SecureLeadsDemo.httpMethod := "GET";
     SecureLeadsDemo.headers := Sample.bearer_good;
     SecureLeadsDemo.queryStringParameters := ∅ |}.

Definition no_meta : SecureLeadsDemo.page_meta :=
  {| SecureLeadsDemo.meta_count := 0; SecureLeadsDemo.meta_offset := 0;
     SecureLeadsDemo.meta_limit := 0; SecureLeadsDemo.meta_hasMore := false;
     SecureLeadsDemo.meta_total := 0 |}.

(** The free-text columns of a lead with the least and the greatest
    length validateLeadData lets through. *)
Definition text_columns : list (string * (Z * Z)) :=
  [("firstName", (1, 50)); ("lastName", (1, 50));
   ("address", (10, 200)); ("details", (10, 2000))].

(** A submission that passes every check. *)
Definition valid_lead : jsobj :=
  list_to_map
    [("firstName", VStr "Pat"); ("lastName", VStr "Doe");
     ("email", VStr " Pat.Doe@Example.com");
     ("phone", VStr "(555) 123-4567 ext");
     ("address", VStr "123 Main Street, Charlotte, NC 28202");
     ("propertyType", VStr "house"); ("timeline", VStr "asap");
     ("details", VStr "Whole household, furniture and tools.");
     ("photo-urls", VStr "https://res.cloudinary.com/demo/a.jpg  ftp://x/b.jpg data:image/png;base64,AAAA")].

(** The reply of auth-verify.js to a token it accepts, from the claims. *)
Definition token_is_valid (claims : jsobj) : response :=
  {| statusCode := 200;
     body := VObj
       [("valid", VBool true);
        ("user", VObj
           [("id", get claims "userId");
            ("email", get claims "email");
            ("companyName", get claims "companyName");
            ("subscriptionStatus", get claims "subscriptionStatus")])] |}.

(** A request carrying its token in the Authorization header, and one
    carrying it in the body. *)
Definition bearer (token : string) : jsobj :=
  <["authorization" := VStr ("Bearer " +:+ token)]> ∅.

Definition token_body (token : string) : option jsval :=
  Some (VObj [("token", VStr token)]).

(** A login request. *)
Definition login_body (e password : string) : option jsval :=
  Some (VObj [("email", VStr e); ("password", VStr password)]).

(** A bcrypt that knows the demo password only, and a signer whose
    tokens the verifier [reads] back. *)
Definition bcrypt_demo (password : jsval) (hash : string) : option bool :=
  Some (strict_eq_str password "demo123").

Definition signs (payload : jsobj) (secret : string) : string :=
  match get payload "email" with
  | VStr e => e
  | _ => ""
  end.


(** A signup body makes the validator throw: its email or its phone is
    truthy but no string. *)
Definition crashing (input : jsobj) : bool :=
  (truthy (get input "email") && negb (is_string (get input "email")))
  || (truthy (get input "phone") && negb (is_string (get input "phone"))).

(** The text fields of a signup with their least length and the message
    for a shorter value. *)
Definition signup_text_fields : list (string * string) :=
  [("firstName", "First name must be at least 2 characters");
   ("lastName", "Last name must be at least 2 characters");
   ("companyName", "Company name must be at least 2 characters");
   ("businessAddress", "Business address must be complete");
   ("serviceAreas", "Service areas must be at least 5 characters")].

(** A signup that passes every check, and a datastore that answers. *)
Definition valid_signup : jsobj :=
  list_to_map
    [("firstName", VStr "Pat"); ("lastName", VStr "Doe");
     ("companyName", VStr "Example Estates");
     ("email", VStr "Owner@Example.com ");
     ("phone", VStr "+1 704-555-0100");
     ("password", VStr "Secret123"); ("confirmPassword", VStr "Secret123");
     ("businessAddress", VStr "123 Main Street, Charlotte");
     ("businessType", VStr "auction_house");
     ("yearsInBusiness", VStr "3-5");
     ("serviceAreas", VStr "Charlotte");
     ("termsAgreement", VBool true); ("backgroundCheck", VBool true);
     ("professionalConduct", VBool true)].

Definition valid_signup_body : option jsval :=
  Some (VObj
    [("firstName", VStr "Pat"); ("lastName", VStr "Doe");
     ("companyName", VStr "Example Estates");
     ("email", VStr "Owner@Example.com ");
     ("phone", VStr "+1 704-555-0100");
     ("password", VStr "Secret123"); ("confirmPassword", VStr "Secret123");
     ("businessAddress", VStr "123 Main Street, Charlotte");
     ("businessType", VStr "auction_house");
     ("yearsInBusiness", VStr "3-5");
     ("serviceAreas", VStr "Charlotte");
     ("termsAgreement", VBool true); ("backgroundCheck", VBool true);
     ("professionalConduct", VBool true)]).

Definition answering : CompanySignup.datastore :=
  {| CompanySignup.lookup_ok := true; CompanySignup.insert_ok := true;
     CompanySignup.assigned_id := 8 |}.

(** The row a signup stores for a valid submission. *)
Definition pending_row (ds : CompanySignup.datastore) (pick : nat -> nat)
    (created_at : string) (v : ValidateLeadData.validation)
  : Companies.company :=
  {| Companies.id := CompanySignup.assigned_id ds;
     Companies.email := CompanySignup.field v "email";
     Companies.company_name := CompanySignup.field v "companyName";
     Companies.first_name := CompanySignup.field v "firstName";
     Companies.email_verified := false;
     Companies.account_status := "pending_verification";
     Companies.verification_token :=
       Some (ResendVerification.generateVerificationToken pick);
     Companies.created_at := created_at |}.

End Notions.

(** * Properties *)

(** The string primitives on small inputs. *)
Example parseInt_examples :
  map parseInt ["20"; "  -5x"; "abc"; "0x1f"; ""; "0"; "12.5"]
    = [Some 20; Some (-5); None; Some 31; None; Some 0; Some 12].
Proof. vm_compute. reflexivity. Qed.

Example slice_examples :
  (slice [1; 2; 3] 0 (-1), slice [1; 2; 3] 1 21, slice [1; 2; 3] (-2) (-1),
   slice [1; 2; 3] 5 25)
    = ([1; 2], [2; 3], [2], []).
Proof. vm_compute. reflexivity. Qed.

Example string_examples :
  (trim "  a b  ", toLowerCase "AbC@x.COM", split " " "a b  c", split " " "")
    = ("a b", "abc@x.com", ["a"; "b"; ""; "c"], [""]).
Proof. vm_compute. reflexivity. Qed.

Example emailRegex_examples :
  map (test emailRegex)
      ["owner@example.com"; "a@b.c.d"; ""; "a@b"; "a b@c.d"; "a@@b.c"; "a@b."]
    = [true; true; false; false; false; false; false].
Proof. vm_compute. reflexivity. Qed.

(** Reading a property of an object built by successive assignments. *)
Ltac read_prop :=
  repeat (rewrite lookup_insert_ne by discriminate);
  first [rewrite lookup_insert_eq | rewrite lookup_empty].

(** A handler past its method checks, for a POST whose parsed body has the
    property [field]. *)
Ltac post_request field :=
  rewrite (bool_decide_eq_false_2 ("POST" = "OPTIONS")) by discriminate;
  rewrite (bool_decide_eq_true_2 ("POST" = "POST")) by reflexivity;
  rewrite (bool_decide_eq_true_2 (field = field)) by reflexivity;
  cbn [negb].

(** One goal per rule of a schema given as a list. *)
Ltac each_rule := repeat apply Forall_cons_2; [.. | apply Forall_nil_2].

Section LeadProjection.
Variable Date_parse : string -> timeval.
Variable Object_toString : jsval -> string.

Abbreviation sanitizeDemo := (SecureLeadsDemo.sanitizeLead Date_parse Object_toString).
Abbreviation sanitizeRow := (SecureLeads.sanitizeLead Date_parse Object_toString).

Lemma demo_contact_view now lead user :
  Spec.contact_view (sanitizeDemo now lead user) =
    if Spec.subscribed user && negb (Spec.has_buyer (get lead "exclusivePurchasedBy"))
    then [Some (get lead "firstName"); Some (get lead "lastName");
          Some (get lead "email"); Some (get lead "phone");
          Some (get lead "address")]
    else Spec.placeholders.
Proof.
  unfold SecureLeadsDemo.sanitizeLead, SecureLeadsDemo.hasContactAccess,
    Spec.subscribed, Spec.has_buyer, Spec.contact_view, Spec.contact_keys.
  destruct (strict_eq_str _ _ && _); cbn [map]; repeat (read_prop; f_equal).
Qed.

Lemma row_contact_view now (row : SecureLeads.lead_row) user :
  Spec.contact_view (sanitizeRow now row user) =
    if Spec.subscribed user && negb (Spec.has_buyer (SecureLeads.exclusive_purchased_by row))
    then [Some (SecureLeads.first_name row); Some (SecureLeads.last_name row);
          Some (SecureLeads.email row); Some (SecureLeads.phone row);
          Some (SecureLeads.address row)]
    else Spec.placeholders.
Proof.
  unfold SecureLeads.sanitizeLead, SecureLeads.hasContactAccess,
    Spec.subscribed, Spec.has_buyer, Spec.contact_view, Spec.contact_keys.
  destruct (strict_eq_str _ _ && _); cbn [map]; repeat (read_prop; f_equal).
Qed.

(** The comparison of the age in hours with 24 is the comparison of the
    age in milliseconds with a day. *)
Lemma lt_24_hours now t :
  lt_num (hours_between now (Some t)) 24 = true <-> now - t < Spec.day_ms.
Proof.
  unfold lt_num, hours_between, Spec.day_ms.
  rewrite negb_true_iff, <- not_true_iff_false, Qle_bool_iff.
  change (inject_Z (1000 * 60 * 60)) with (3600000 # 1)%Q.
  unfold Qle, Qdiv, Qmult, Qinv, inject_Z; cbn [Qnum Qden].
  change (Z.pos (1 * 3600000)) with 3600000.
  change (Qnum 24) with 24. change (Z.pos (Qden 24)) with 1.
  lia.
Qed.

Lemma demo_window_value now lead user :
  sanitizeDemo now lead user !! "isInExclusiveWindow" =
    Some (VBool (SecureLeadsDemo.isInExclusiveWindow Date_parse Object_toString now lead)).
Proof.
  unfold SecureLeadsDemo.sanitizeLead, SecureLeadsDemo.base_lead.
  destruct (SecureLeadsDemo.hasContactAccess lead user); read_prop; reflexivity.
Qed.

Lemma demo_window_iff now lead :
  SecureLeadsDemo.isInExclusiveWindow Date_parse Object_toString now lead = true <->
    (exists t, new_Date Date_parse Object_toString (get lead "created_at") = Some t
               /\ now - t < Spec.day_ms)
    /\ Spec.has_buyer (get lead "exclusivePurchasedBy") = false.
Proof.
  unfold SecureLeadsDemo.isInExclusiveWindow, Spec.has_buyer.
  rewrite andb_true_iff, negb_true_iff.
  destruct (new_Date Date_parse Object_toString (get lead "created_at")) as [t|].
  - rewrite lt_24_hours. split.
    + intros [Hage Hb]. split; [exists t; auto | exact Hb].
    + intros [[t' [Ht' Hage]] Hb]. injection Ht' as ->. auto.
  - cbn. split.
    + intros [Hf _]. discriminate.
    + intros [[t' [Ht' _]] _]. discriminate.
Qed.
End LeadProjection.

(** C1. For every lead and every caller, in both variants of
    [sanitizeLead], the five contact fields of the projection are the raw
    fields of the lead exactly when the caller's subscription status is
    [active] and the lead has no exclusive buyer, and are the five fixed
    placeholders in every other case: the view is one list or the other,
    never a mix, and the projection is a total function. *)
Theorem sanitizeLead_contact_policy
    (Date_parse : string -> timeval) (Object_toString : jsval -> string)
    (now : Z) (user : jsobj) :
  (forall lead : jsobj,
     Spec.contact_view
       (SecureLeadsDemo.sanitizeLead Date_parse Object_toString now lead user) =
     if Spec.subscribed user
        && negb (Spec.has_buyer (get lead "exclusivePurchasedBy"))
     then [Some (get lead "firstName"); Some (get lead "lastName");
           Some (get lead "email"); Some (get lead "phone");
           Some (get lead "address")]
     else Spec.placeholders)
  /\
  (forall row : SecureLeads.lead_row,
     Spec.contact_view
       (SecureLeads.sanitizeLead Date_parse Object_toString now row user) =
     if Spec.subscribed user
        && negb (Spec.has_buyer (SecureLeads.exclusive_purchased_by row))
     then [Some (SecureLeads.first_name row); Some (SecureLeads.last_name row);
           Some (SecureLeads.email row); Some (SecureLeads.phone row);
           Some (SecureLeads.address row)]
     else Spec.placeholders).
Proof.
  split; intros; [apply demo_contact_view | apply row_contact_view].
Qed.

(** C2. The [isInExclusiveWindow] field of the projection is [true] if and
    only if the lead's creation time is a valid date less than 24 hours
    before [now] and no exclusive buyer is recorded; it is always a
    boolean computed from these two inputs, and once it is [false] it is
    [false] at every later time for the same creation time, provided a
    recorded buyer stays recorded. *)
Theorem isInExclusiveWindow_derived_and_monotone
    (Date_parse : string -> timeval) (Object_toString : jsval -> string)
    (now : Z) (lead user : jsobj) :
  let window n l u :=
    SecureLeadsDemo.sanitizeLead Date_parse Object_toString n l u
      !! "isInExclusiveWindow" in
  (window now lead user = Some (VBool true) <->
     (exists t, new_Date Date_parse Object_toString (get lead "created_at") = Some t
                /\ now - t < Spec.day_ms)
     /\ Spec.has_buyer (get lead "exclusivePurchasedBy") = false)
  /\ (exists b, window now lead user = Some (VBool b))
  /\ (forall (now' : Z) (lead' user' : jsobj),
        now <= now' ->
        get lead' "created_at" = get lead "created_at" ->
        (Spec.has_buyer (get lead "exclusivePurchasedBy") = true ->
         Spec.has_buyer (get lead' "exclusivePurchasedBy") = true) ->
        window now lead user = Some (VBool false) ->
        window now' lead' user' = Some (VBool false)).
Proof.
  cbv zeta. split; [|split].
  - rewrite demo_window_value, <- demo_window_iff.
    split; [intros [= ->]; reflexivity | intros ->; reflexivity].
  - rewrite demo_window_value. eauto.
  - intros now' lead' user' Hnow Hcreated Hbuyer.
    rewrite !demo_window_value. intros [= Hoff]. do 2 f_equal.
    apply not_true_iff_false. intros Hon.
    apply demo_window_iff in Hon as [[t [Ht Hage]] Hfree].
    rewrite Hcreated in Ht.
    assert (SecureLeadsDemo.isInExclusiveWindow Date_parse Object_toString
              now lead = true) as Hwas; [|congruence].
    apply demo_window_iff. split.
    + exists t. split; [exact Ht | lia].
    + destruct (Spec.has_buyer (get lead "exclusivePurchasedBy")) eqn:Hb;
        [|reflexivity].
      rewrite Hbuyer in Hfree by reflexivity. discriminate.
Qed.

Lemma isInExclusiveWindow_monotone_witness :
  SecureLeadsDemo.sanitizeLead Sample.no_date Sample.no_string 90000001
      Sample.lead_of_epoch ∅ !! "isInExclusiveWindow" = Some (VBool false).
Proof.
  apply (proj2 (proj2 (isInExclusiveWindow_derived_and_monotone
                         Sample.no_date Sample.no_string 90000000
                         Sample.lead_of_epoch ∅))).
  - lia.
  - reflexivity.
  - intros H. exact H.
  - vm_compute. reflexivity.
Defined.

(** C9. The demo projection is a total function of the lead object,
    whatever properties it has: its result has exactly the sixteen output
    fields; [details] is the empty string when the lead has none, [photos]
    is the empty list when the stored value is not an array, and [price]
    is 39.99 when the stored price is missing, null or zero. *)
Theorem sanitizeLead_complete_record
    (Date_parse : string -> timeval) (Object_toString : jsval -> string)
    (now : Z) (lead user : jsobj) :
  let out := SecureLeadsDemo.sanitizeLead Date_parse Object_toString now lead user in
  dom out = Spec.output_keys
  /\ (lead !! "details" = None -> out !! "details" = Some (VStr ""))
  /\ (isArray (get lead "photos") = false -> out !! "photos" = Some (VArr []))
  /\ (lead !! "price" = None \/ lead !! "price" = Some VNull
      \/ (exists q, lead !! "price" = Some (VNum (Fin q)) /\ (q == 0)%Q) ->
      out !! "price" = Some (VNum (Fin 39.99))).
Proof.
  cbv zeta. unfold SecureLeadsDemo.sanitizeLead, SecureLeadsDemo.base_lead.
  split; [|split; [|split]].
  - destruct (SecureLeadsDemo.hasContactAccess lead user);
      rewrite !dom_insert_L, dom_empty_L; unfold Spec.output_keys;
      cbn [list_to_set foldr]; set_solver.
  - intros Hd.
    destruct (SecureLeadsDemo.hasContactAccess lead user); read_prop;
      unfold get; rewrite Hd; reflexivity.
  - intros Hp.
    destruct (SecureLeadsDemo.hasContactAccess lead user); read_prop;
      rewrite Hp; reflexivity.
  - intros Hprice.
    assert (truthy (get lead "price") = false) as Hfalsy.
    { unfold get. destruct Hprice as [-> | [-> | [q [-> Hq]]]]; cbn; auto.
      apply negb_false_iff, Qeq_bool_iff, Hq. }
    destruct (SecureLeadsDemo.hasContactAccess lead user); read_prop;
      unfold or_else; rewrite Hfalsy; reflexivity.
Qed.

Lemma sanitizeLead_complete_record_witness :
  let out := SecureLeadsDemo.sanitizeLead Sample.no_date Sample.no_string 0
               Sample.lead_of_epoch ∅ in
  out !! "details" = Some (VStr "") /\ out !! "photos" = Some (VArr [])
  /\ out !! "price" = Some (VNum (Fin 39.99)).
Proof.
  destruct (sanitizeLead_complete_record Sample.no_date Sample.no_string 0
              Sample.lead_of_epoch ∅) as (_ & Hd & Hp & Hprice).
  split; [apply Hd; reflexivity|].
  split; [apply Hp; reflexivity|].
  apply Hprice. left. reflexivity.
Defined.

Section TokenVerification.
Variable String_toNumber : string -> jsnum.
Variable Object_toString : jsval -> string.
Variable jwt_verify : string -> string -> option jsobj.
Variable JWT_SECRET : option string.

Lemma bearer_header_truthy token : truthy (VStr ("Bearer " +:+ token)) = true.
Proof. cbn. rewrite bool_decide_eq_false_2 by discriminate. reflexivity. Qed.

Lemma bearer_token token : substring_from 7 ("Bearer " +:+ token) = token.
Proof.
  unfold substring_from, of_chars, chars. cbn.
  apply String.string_of_list_ascii_of_string.
Qed.

(** Past the header, [authenticate] is a cascade over the outcome of
    [jwt.verify]. *)
Lemma authenticate_bearer fallback now headers token :
  or_else (get headers "authorization") (get headers "Authorization")
    = VStr ("Bearer " +:+ token) ->
  SecureLeadsDemo.authenticate String_toNumber Object_toString jwt_verify
      JWT_SECRET fallback now headers =
    match jwt_verify token (SecureLeadsDemo.secret_or JWT_SECRET fallback) with
    | None => SecureLeadsDemo.AuthFailure "Invalid token"
    | Some decoded =>
        if Spec.exp_passed String_toNumber Object_toString now decoded
        then SecureLeadsDemo.AuthFailure "Token expired"
        else if negb (Spec.subscribed decoded)
        then SecureLeadsDemo.AuthFailure "Active subscription required"
        else SecureLeadsDemo.AuthSuccess (Spec.claims_of decoded)
    end.
Proof.
  intros Hh. unfold SecureLeadsDemo.authenticate.
  rewrite Hh, bearer_header_truthy. cbn [negb].
  change (startsWith ("Bearer " +:+ token) "Bearer ") with true. cbn [negb].
  rewrite bearer_token. reflexivity.
Qed.
End TokenVerification.



Section FixedWindowLimiter.
Variable W : Z.
Variable N : Z.
Variable key : string.

Abbreviation limiter := (SecureLeads.fixed_window W N).
Abbreviation entry c r := ({| SecureLeads.count := c; SecureLeads.resetTime := r |}).

Lemma limiter_first_use now st :
  st !! key = None ->
  limiter now key st =
    ({| SecureLeads.allowed := true; SecureLeads.remaining := N - 1 |},
     <[key := entry 1 (now + W)]> st).
Proof. intros H. unfold SecureLeads.fixed_window. rewrite H. reflexivity. Qed.

Lemma limiter_in_window now st c r :
  st !! key = Some (entry c r) -> now <= r ->
  limiter now key st =
    if bool_decide (c < N)
    then ({| SecureLeads.allowed := true; SecureLeads.remaining := N - (c + 1) |},
          <[key := entry (c + 1) r]> st)
    else ({| SecureLeads.allowed := false; SecureLeads.remaining := 0 |}, st).
Proof.
  intros H Hr. unfold SecureLeads.fixed_window. rewrite H. cbn.
  destruct (r <? now) eqn:E; [lia|].
  case_bool_decide; destruct (N <=? c) eqn:E'; try lia; reflexivity.
Qed.

Lemma limiter_after_window now st c r :
  st !! key = Some (entry c r) -> r < now ->
  limiter now key st =
    ({| SecureLeads.allowed := true; SecureLeads.remaining := N - 1 |},
     <[key := entry 1 (now + W)]> st).
Proof.
  intros H Hr. unfold SecureLeads.fixed_window. rewrite H. cbn.
  destruct (r <? now) eqn:E; [reflexivity | lia].
Qed.

(** While the counter has room, every call inside the window is let
    through and counted. *)
Lemma calls_with_room times : forall st c r,
  st !! key = Some (entry c r) ->
  Forall (fun t => t <= r) times ->
  c + Z.of_nat (length times) <= N ->
  exists st',
    Spec.calls W N key times st = (replicate (length times) true, st')
    /\ st' !! key = Some (entry (c + Z.of_nat (length times)) r).
Proof.
  induction times as [|t rest IH]; intros st c r Hst Hin Hroom.
  - exists st. cbn. rewrite Z.add_0_r. auto.
  - inversion Hin as [|? ? Ht Hrest]; subst.
    cbn [Spec.calls length replicate].
    rewrite (limiter_in_window t st c r Hst Ht).
    rewrite bool_decide_eq_true_2 by (cbn [length] in Hroom; lia).
    destruct (IH (<[key := entry (c + 1) r]> st) (c + 1) r) as [st' [Hc Hk]].
    + apply lookup_insert_eq.
    + exact Hrest.
    + cbn [length] in Hroom. lia.
    + rewrite Hc. exists st'. split; [reflexivity|].
      rewrite Hk. f_equal. f_equal. cbn [length]. lia.
Qed.

Lemma calls_app ts1 : forall ts2 st,
  Spec.calls W N key (ts1 ++ ts2) st =
    let '(rs1, st1) := Spec.calls W N key ts1 st in
    let '(rs2, st2) := Spec.calls W N key ts2 st1 in
    (rs1 ++ rs2, st2).
Proof.
  induction ts1 as [|t rest IH]; intros ts2 st.
  - cbn. destruct (Spec.calls W N key ts2 st). reflexivity.
  - cbn [app Spec.calls].
    destruct (limiter t key st) as [r st1]. rewrite IH.
    destruct (Spec.calls W N key rest st1) as [rs1 st2].
    destruct (Spec.calls W N key ts2 st2) as [rs2 st3]. reflexivity.
Qed.
End FixedWindowLimiter.

(** C6. For every key, window length [W] and maximum [N], the fixed-window
    limiter shared by [checkRateLimit] (W one hour, N 1000) and
    [isRateLimited] (W one hour, N 60) behaves as follows.  The first use
    of a key is allowed and stores count 1 with reset time [now + W].  A
    use no later than the reset time is allowed iff the count is below
    [N], and is then counted.  Hence, for [N] at least 1, of [N + 1] calls
    on a fresh key that all fall in the window opened by the first one the
    first [N] are allowed and the last is rejected.  A use after the reset
    time is allowed and stores count 1 with a new reset time. *)
Theorem fixed_window_limiter (W N : Z) (key : string) :
  (forall now st, st !! key = None ->
     SecureLeads.fixed_window W N now key st =
       ({| SecureLeads.allowed := true; SecureLeads.remaining := N - 1 |},
        <[key := {| SecureLeads.count := 1;
                    SecureLeads.resetTime := now + W |}]> st))
  /\ (forall now st c r,
        st !! key = Some {| SecureLeads.count := c; SecureLeads.resetTime := r |} ->
        now <= r ->
        SecureLeads.allowed (SecureLeads.fixed_window W N now key st).1
          = bool_decide (c < N)
        /\ (SecureLeads.fixed_window W N now key st).2 =
             if bool_decide (c < N)
             then <[key := {| SecureLeads.count := c + 1;
                              SecureLeads.resetTime := r |}]> st
             else st)
  /\ (1 <= N ->
      forall t0 ts tlast st,
        st !! key = None ->
        Z.of_nat (length ts) = N - 1 ->
        Forall (fun t => t <= t0 + W) (ts ++ [tlast]) ->
        (Spec.calls W N key (t0 :: ts ++ [tlast]) st).1
          = replicate (Z.to_nat N) true ++ [false])
  /\ (forall now st c r,
        st !! key = Some {| SecureLeads.count := c; SecureLeads.resetTime := r |} ->
        r < now ->
        SecureLeads.fixed_window W N now key st =
          ({| SecureLeads.allowed := true; SecureLeads.remaining := N - 1 |},
           <[key := {| SecureLeads.count := 1;
                       SecureLeads.resetTime := now + W |}]> st))
  /\ (forall ToString now userId clientIP st,
        SecureLeads.checkRateLimit ToString now userId clientIP st =
          SecureLeads.fixed_window 3600000 1000 now
            (ToString userId +:+ "-" +:+ clientIP) st)
  /\ (forall now clientIP st,
        GetConfig.isRateLimited now clientIP st =
          (SecureLeads.allowed
             (SecureLeads.fixed_window 3600000 60 now clientIP st).1,
           (SecureLeads.fixed_window 3600000 60 now clientIP st).2)).
Proof.
  split; [|split; [|split; [|split; [|split]]]].
  - intros now st H. apply limiter_first_use, H.
  - intros now st c r H Hr. rewrite (limiter_in_window W N key now st c r H Hr).
    case_bool_decide; auto.
  - intros HN t0 ts tlast st Hfresh Hlen Hin.
    apply Forall_app in Hin as [Hts Hlast].
    inversion Hlast as [|? ? Hl _]; subst.
    cbn [Spec.calls]. rewrite (limiter_first_use W N key t0 st Hfresh).
    rewrite calls_app.
    destruct (calls_with_room W N key ts
                (<[key := {| SecureLeads.count := 1;
                             SecureLeads.resetTime := t0 + W |}]> st)
                1 (t0 + W)) as [st' [Hc Hk]].
    + apply lookup_insert_eq.
    + exact Hts.
    + lia.
    + rewrite Hc. cbn [Spec.calls].
      rewrite (limiter_in_window W N key tlast st' _ _ Hk Hl).
      rewrite bool_decide_eq_false_2 by lia. cbn.
      replace (Z.to_nat N) with (S (length ts)) by lia. reflexivity.
  - intros now st c r H Hr. apply (limiter_after_window W N key now st c r H Hr).
  - intros. reflexivity.
  - intros now ip st. unfold GetConfig.isRateLimited.
    change (60 * 60 * 1000) with 3600000.
    destruct (SecureLeads.fixed_window 3600000 60 now ip st). reflexivity.
Qed.

Lemma fixed_window_limiter_witness :
  (Spec.calls 10 2 "k" [0; 5; 7] ∅).1 = [true; true; false]
  /\ SecureLeads.fixed_window 10 2 11 "k"
       (<["k" := {| SecureLeads.count := 2; SecureLeads.resetTime := 10 |}]> ∅)
     = ({| SecureLeads.allowed := true; SecureLeads.remaining := 1 |},
        <["k" := {| SecureLeads.count := 1; SecureLeads.resetTime := 21 |}]>
          (<["k" := {| SecureLeads.count := 2; SecureLeads.resetTime := 10 |}]> ∅)).
Proof.
  destruct (fixed_window_limiter 10 2 "k") as (_ & _ & Hseq & Hafter & _).
  split.
  - apply (Hseq ltac:(lia) 0 [5] 7 ∅).
    + reflexivity.
    + reflexivity.
    + repeat constructor; lia.
  - apply (Hafter 11 _ 2 10).
    + reflexivity.
    + lia.
Defined.

Section EmailVerification.
Variable Date_parse : string -> timeval.

Lemma strlen_of_chars l : strlen (of_chars l) = Z.of_nat (length l).
Proof.
  unfold strlen, of_chars. f_equal.
  induction l as [|c l IH]; cbn; [reflexivity | now rewrite IH].
Qed.

Lemma strlen_chars s : strlen s = Z.of_nat (length (chars s)).
Proof.
  rewrite <- strlen_of_chars. unfold of_chars, chars.
  now rewrite String.string_of_list_ascii_of_string.
Qed.

Lemma filter_same_length {A} (f : A -> bool) (l : list A) :
  length (List.filter f l) = length l -> List.filter f l = l.
Proof.
  induction l as [|x l IH]; cbn; [reflexivity|].
  destruct (f x); cbn; intros H.
  - f_equal. apply IH. lia.
  - pose proof (filter_length_le f l). lia.
Qed.

(** A token that loses no character to the sanitizer is left as it is. *)
Lemma sanitize_token_same t :
  strlen (VerifyEmail.sanitize_token t) = strlen t ->
  VerifyEmail.sanitize_token t = t.
Proof.
  unfold VerifyEmail.sanitize_token.
  rewrite strlen_of_chars, (strlen_chars t). intros H.
  rewrite filter_same_length by lia.
  apply String.string_of_list_ascii_of_string.
Qed.

(** The rows [updateCompanyVerification] rewrites no longer hold a token;
    the other rows are kept. *)
Lemma select_after_verification up token companyId db :
  Companies.update_ok up = true ->
  (forall c, c ∈ db -> Companies.verification_token c = Some token ->
             Companies.id c = companyId) ->
  Companies.select_by_token token
    (VerifyEmail.updateCompanyVerification up companyId db).2 = [].
Proof.
  intros Hok Huniq. unfold VerifyEmail.updateCompanyVerification.
  rewrite Hok. cbn [snd].
  unfold Companies.select_by_token, Companies.patch_by_id.
  induction db as [|c db IH]; [reflexivity|].
  assert (forall c' : Companies.company, c' ∈ db ->
            Companies.verification_token c' = Some token ->
            Companies.id c' = companyId) as Hrest
    by (intros c' Hc'; apply Huniq; right; exact Hc').
  specialize (IH Hrest).
  cbn [map List.filter].
  destruct (bool_decide (Companies.id c = companyId)) eqn:Hid.
  - rewrite bool_decide_eq_false_2 by discriminate. exact IH.
  - apply bool_decide_eq_false in Hid.
    rewrite bool_decide_eq_false_2; [exact IH|].
    intros Htok. apply Hid, Huniq; [left | exact Htok].
Qed.

Lemma rows_after_verification up companyId db c :
  Companies.update_ok up = true ->
  c ∈ (VerifyEmail.updateCompanyVerification up companyId db).2 ->
  Companies.id c = companyId -> Spec.verified c.
Proof.
  intros Hok. unfold VerifyEmail.updateCompanyVerification. rewrite Hok.
  cbn [snd]. unfold Companies.patch_by_id.
  rewrite list_elem_of_fmap. intros [c0 [-> _]].
  case_bool_decide as Hid; [intros _; repeat split | intros Hc; contradiction].
Qed.

(** What a reply 200 that is not the already-verified one says about the
    request and the table it was served from. *)
Lemma first_success_inv up now token db r db' :
  VerifyEmail.handler Date_parse up now "POST" (Spec.token_request token) db
    = (r, db') ->
  statusCode r = 200 ->
  prop (body r) "alreadyVerified" = Some VUndefined ->
  exists company,
    head (Companies.select_by_token token db) = Some company
    /\ Companies.email_verified company = false
    /\ Companies.update_ok up = true
    /\ db' = (VerifyEmail.updateCompanyVerification up (Companies.id company) db).2
    /\ token <> ""
    /\ strlen (VerifyEmail.sanitize_token token) = strlen token
    /\ 16 <= strlen token.
Proof.
  unfold VerifyEmail.handler, Spec.token_request. cbn [mbind option_bind prop assoc].
  post_request "token".
  case_bool_decide as Hne; [intros [= <- <-]; discriminate|].
  destruct (strlen (VerifyEmail.sanitize_token token) =? strlen token) eqn:Hlen;
    cbn [negb orb]; [|intros [= <- <-]; discriminate].
  destruct (strlen (VerifyEmail.sanitize_token token) <? 16) eqn:Hmin;
    [intros [= <- <-]; discriminate|].
  apply Z.eqb_eq in Hlen. rewrite (sanitize_token_same token Hlen) in *.
  unfold VerifyEmail.findCompanyByToken.
  destruct (Companies.query_ok up); [|intros [= <- <-]; discriminate].
  destruct (head (Companies.select_by_token token db)) as [company|];
    [|intros [= <- <-]; discriminate].
  destruct (Companies.email_verified company) eqn:Hv;
    [intros [= <- <-] _; discriminate|].
  destruct (match Date_parse (Companies.created_at company) with
            | Some t0 => _ | None => false end);
    [intros [= <- <-]; discriminate|].
  unfold VerifyEmail.updateCompanyVerification.
  destruct (Companies.update_ok up); cbn [negb];
    [|intros [= <- <-]; discriminate].
  intros [= <- <-] _ _. exists company.
  repeat split; auto. lia.
Qed.

(** The already-verified reply is given for a row that the lookup by
    token found and that is verified. *)
Lemma already_verified_inv up now token db r db' :
  VerifyEmail.handler Date_parse up now "POST" (Spec.token_request token) db
    = (r, db') ->
  prop (body r) "alreadyVerified" = Some (VBool true) ->
  exists company,
    head (Companies.select_by_token token db) = Some company
    /\ Companies.email_verified company = true.
Proof.
  unfold VerifyEmail.handler, Spec.token_request. cbn [mbind option_bind prop assoc].
  post_request "token".
  case_bool_decide as Hne; [intros [= <- <-]; discriminate|].
  destruct (strlen (VerifyEmail.sanitize_token token) =? strlen token) eqn:Hlen;
    cbn [negb orb]; [|intros [= <- <-]; discriminate].
  destruct (strlen (VerifyEmail.sanitize_token token) <? 16) eqn:Hmin;
    [intros [= <- <-]; discriminate|].
  apply Z.eqb_eq in Hlen. rewrite (sanitize_token_same token Hlen) in *.
  unfold VerifyEmail.findCompanyByToken.
  destruct (Companies.query_ok up); [|intros [= <- <-]; discriminate].
  destruct (head (Companies.select_by_token token db)) as [company|];
    [|intros [= <- <-]; discriminate].
  destruct (Companies.email_verified company) eqn:Hv;
    [intros _ _; exists company; auto|].
  destruct (match Date_parse (Companies.created_at company) with
            | Some t0 => _ | None => false end);
    [intros [= <- <-]; discriminate|].
  unfold VerifyEmail.updateCompanyVerification.
  destruct (Companies.update_ok up); cbn [negb];
    intros [= <- <-]; discriminate.
Qed.
End EmailVerification.

(** C3, amended.  When a POST of a verification token is answered 200 by
    the verification itself (not by the already-verified branch), some
    account held that token unverified, and afterwards every row of that
    account has [email_verified] true, status [email_verified] and no
    stored token.  If no other account held the same token, presenting it
    again is answered 404 (invalid or expired token) at any later time at
    which the datastore answers, and leaves the table as it is: the lookup
    by token no longer finds the account.  The already-verified reply is
    only ever given for a row that the lookup by token finds and that is
    verified. *)
Theorem verification_consumes_token
    (Date_parse : string -> timeval) (up : Companies.upstream) (now : Z)
    (token : string) (db db' : list Companies.company) (r : response) :
  VerifyEmail.handler Date_parse up now "POST" (Spec.token_request token) db
    = (r, db') ->
  statusCode r = 200 ->
  prop (body r) "alreadyVerified" = Some VUndefined ->
  (exists company,
     head (Companies.select_by_token token db) = Some company
     /\ Companies.email_verified company = false
     /\ (forall c, c ∈ db' -> Companies.id c = Companies.id company ->
                   Spec.verified c)
     /\ ((forall c, c ∈ db -> Companies.verification_token c = Some token ->
                    Companies.id c = Companies.id company) ->
         forall up2 now2, Companies.query_ok up2 = true ->
           VerifyEmail.handler Date_parse up2 now2 "POST"
             (Spec.token_request token) db' = (Spec.token_not_found, db')))
  /\ (forall up2 now2 db2 r2 db2',
        VerifyEmail.handler Date_parse up2 now2 "POST"
          (Spec.token_request token) db2 = (r2, db2') ->
        prop (body r2) "alreadyVerified" = Some (VBool true) ->
        exists company,
          head (Companies.select_by_token token db2) = Some company
          /\ Companies.email_verified company = true).
Proof.
  intros Hrun Hok Hfirst.
  split; [|intros up2 now2 db2 r2 db2'; apply already_verified_inv].
  destruct (first_success_inv Date_parse up now token db r db' Hrun Hok Hfirst)
    as (company & Hfound & Hpending & Hup & -> & Hne & Hlen & Hmin).
  exists company. split; [exact Hfound|]. split; [exact Hpending|]. split.
  - intros c Hc Hid. exact (rows_after_verification up _ db c Hup Hc Hid).
  - intros Huniq up2 now2 Hq2.
    unfold VerifyEmail.handler, Spec.token_request.
    cbn [mbind option_bind prop assoc].
    post_request "token". rewrite (bool_decide_eq_false_2 (token = "")) by exact Hne.
    rewrite Hlen, Z.eqb_refl. cbn [negb orb].
    destruct (strlen token <? 16) eqn:E; [lia|].
    rewrite (sanitize_token_same token Hlen).
    unfold VerifyEmail.findCompanyByToken. rewrite Hq2.
    rewrite (select_after_verification up token _ db Hup Huniq).
    reflexivity.
Qed.

Lemma verification_consumes_token_witness :
  VerifyEmail.handler Sample.epoch_date Sample.all_ok 2000 "POST"
    (Spec.token_request Sample.pending_token) [Sample.verified_company]
  = (Spec.token_not_found, [Sample.verified_company]).
Proof.
  destruct (verification_consumes_token Sample.epoch_date Sample.all_ok 1000
              Sample.pending_token [Sample.pending_company]
              [Sample.verified_company]
              {| statusCode := 200;
                 body := VObj
                   [("success", VBool true);
                    ("message", VStr
                       "Email verified successfully! Your account is now active.");
                    ("company", VObj
                       [("company_name", VStr "Example Estates");
                        ("email", VStr "owner@example.com");
                        ("account_status", VStr "email_verified");
                        ("first_name", VStr "Pat")])] |}
              eq_refl eq_refl eq_refl)
    as ((company & Hfound & _ & _ & Hagain) & _).
  apply Hagain; [|reflexivity].
  injection Hfound as <-.
  intros c Hc _. apply list_elem_of_singleton in Hc. subst c. reflexivity.
Defined.

(** C3 as stated fails: the second presentation of the token that has
    just verified the sample account is answered 404, not 200 with
    [alreadyVerified]. *)
Lemma second_presentation_is_an_error :
  let first := VerifyEmail.handler Sample.epoch_date Sample.all_ok 1000 "POST"
                 (Spec.token_request Sample.pending_token)
                 [Sample.pending_company] in
  let second := VerifyEmail.handler Sample.epoch_date Sample.all_ok 2000 "POST"
                  (Spec.token_request Sample.pending_token) first.2 in
  statusCode first.1 = 200
  /\ prop (body first.1) "alreadyVerified" = Some VUndefined
  /\ first.2 = [Sample.verified_company]
  /\ second.1 = Spec.token_not_found
  /\ statusCode second.1 <> 200
  /\ prop (body second.1) "alreadyVerified" <> Some (VBool true).
Proof.
  cbv zeta. repeat split; try reflexivity; vm_compute; discriminate.
Qed.

Section ResendLimiter.
Variable URL : string.
Variable e : string.

Abbreviation key := ("resend_" +:+ e).
Abbreviation attempts_of st := (default [] (st !! key)).

Lemma recent_recent T C l :
  C <= T ->
  ResendVerification.recent T (ResendVerification.recent C l)
    = ResendVerification.recent T l.
Proof.
  intros HCT. unfold ResendVerification.recent.
  induction l as [|x l IH]; [reflexivity|]. cbn [List.filter].
  destruct (C - x <? ResendVerification.windowMs) eqn:EC; cbn [List.filter].
  - rewrite IH. reflexivity.
  - rewrite IH. destruct (T - x <? ResendVerification.windowMs) eqn:ET;
      [lia | reflexivity].
Qed.

Lemma recent_app T l1 l2 :
  ResendVerification.recent T (l1 ++ l2)
    = ResendVerification.recent T l1 ++ ResendVerification.recent T l2.
Proof. apply List.filter_app. Qed.

(** After an attempt is recorded, and whether or not the cleanup ran, the
    attempts of the key that are recent at a later time are those of the
    list with the new attempt pushed. *)
Lemma recent_after_record d st T :
  ResendVerification.at_cleanup d <= T ->
  ResendVerification.recent T
      (attempts_of (ResendVerification.recordRateLimitAttempt d e st))
    = ResendVerification.recent T
        (attempts_of st ++ [ResendVerification.at_record d]).
Proof.
  intros HT. unfold ResendVerification.recordRateLimitAttempt.
  destruct (ResendVerification.cleanup d).
  - unfold ResendVerification.cleanupRateLimit.
    rewrite lookup_omap, lookup_insert_eq. cbn [mbind option_bind].
    set (l := attempts_of st ++ [ResendVerification.at_record d]).
    rewrite <- (recent_recent T _ l HT).
    destruct (ResendVerification.recent (ResendVerification.at_cleanup d) l);
      reflexivity.
  - rewrite lookup_insert_eq. reflexivity.
Qed.

Lemma recent_all T l :
  Forall (fun x => T - x < ResendVerification.windowMs)
         (ResendVerification.recent T l).
Proof.
  unfold ResendVerification.recent. apply Forall_forall. intros x Hx.
  apply list_elem_of_In, List.filter_In in Hx as [_ Hx]. lia.
Qed.

Lemma list_min_recent T l :
  l <> [] ->
  Forall (fun x => T - x < ResendVerification.windowMs) l ->
  T - ResendVerification.list_min l < ResendVerification.windowMs.
Proof.
  destruct l as [|x xs]; [congruence|]. intros _ Hall.
  apply Forall_cons in Hall as [Hx Hxs]. cbn [ResendVerification.list_min].
  induction Hxs as [|y ys Hy _ IH]; cbn [foldr]; [exact Hx|].
  destruct (Z.min_spec y (foldr Z.min x ys)) as [[_ ->] | [_ ->]];
    [exact Hy | exact IH].
Qed.

(** With at least [maxAttempts] recent attempts the check refuses and
    asks to wait a positive number of seconds. *)
Lemma check_refuses T st :
  (3 <= length (ResendVerification.recent T (attempts_of st)))%nat ->
  ResendVerification.checkRateLimit T e st =
    {| ResendVerification.allowed := false;
       ResendVerification.retryAfter := Some (Spec.seconds_left T (attempts_of st)) |}
  /\ 0 < Spec.seconds_left T (attempts_of st).
Proof.
  intros Hlen. unfold ResendVerification.checkRateLimit, Spec.seconds_left.
  unfold ResendVerification.maxAttempts.
  destruct (3 <=? Z.of_nat (length (ResendVerification.recent T (attempts_of st))))
    eqn:E; [|lia].
  split; [reflexivity|].
  assert (T - ResendVerification.list_min
                (ResendVerification.recent T (attempts_of st))
          < ResendVerification.windowMs) as Hmin.
  { apply list_min_recent; [|apply recent_all].
    intros Hnil. rewrite Hnil in Hlen. cbn in Hlen. lia. }
  unfold ceil_div.
  set (left := ResendVerification.windowMs
               - (T - ResendVerification.list_min
                        (ResendVerification.recent T (attempts_of st)))).
  assert (- left / 1000 < 0) as Hdiv
    by (apply Z.div_lt_upper_bound; unfold left; lia).
  lia.
Qed.

(** The request of an address whose first matching row is unverified. *)
Lemma handler_pending up d raw db st company :
  Spec.clean_email raw = e ->
  test emailRegex e = true -> strlen e <= 254 ->
  head (Companies.select_by_email e db) = Some company ->
  Companies.email_verified company = false ->
  ResendVerification.handler URL up d "POST" (Spec.email_request raw) db st =
    if Companies.query_ok up then
      let res := ResendVerification.checkRateLimit
                   (ResendVerification.at_check d) e st in
      if ResendVerification.allowed res then
        if Companies.update_ok up then
          (Spec.resend_sent URL d,
           (ResendVerification.updateVerificationToken up (Companies.id company)
              (ResendVerification.newVerificationToken d) db).2,
           ResendVerification.recordRateLimitAttempt d e st)
        else (ResendVerification.internal_error, db, st)
      else (Spec.resend_refused (ResendVerification.retryAfter res), db, st)
    else (ResendVerification.internal_error, db, st).
Proof.
  intros Hclean Hre Hlen Hfound Hpending.
  assert (raw <> "") as Hraw.
  { intros ->. unfold Spec.clean_email in Hclean. cbn in Hclean.
    subst e. discriminate. }
  unfold ResendVerification.handler, Spec.email_request.
  cbn [mbind option_bind prop assoc].
  post_request "email". rewrite (bool_decide_eq_false_2 (raw = "")) by exact Hraw.
  fold (Spec.clean_email raw). rewrite Hclean, Hre. cbn [negb orb].
  destruct (254 <? strlen e) eqn:E; [lia|].
  unfold ResendVerification.findCompanyByEmail.
  destruct (Companies.query_ok up); [|reflexivity].
  rewrite Hfound, Hpending. cbv zeta.
  destruct (ResendVerification.allowed _) eqn:Hallowed; cbn [negb];
    [|reflexivity].
  unfold ResendVerification.updateVerificationToken.
  destruct (Companies.update_ok up); reflexivity.
Qed.

(** Rewriting the token of an account keeps the first row of its address
    unverified. *)
Lemma pending_after_update up companyId newToken db company :
  head (Companies.select_by_email e db) = Some company ->
  Companies.email_verified company = false ->
  exists company',
    head (Companies.select_by_email e
            (ResendVerification.updateVerificationToken up companyId newToken db).2)
      = Some company'
    /\ Companies.email_verified company' = false.
Proof.
  unfold ResendVerification.updateVerificationToken.
  destruct (Companies.update_ok up); cbn [snd]; [|eauto].
  unfold Companies.select_by_email, Companies.patch_by_id.
  induction db as [|c db IH]; cbn [List.filter map head]; [discriminate|].
  intros Hfound Hpending.
  destruct (bool_decide (Companies.id c = companyId)); cbn [Companies.email].
  - destruct (bool_decide (Companies.email c = e)); cbn [head] in *.
    + injection Hfound as ->. eexists. split; [reflexivity | exact Hpending].
    + apply IH; assumption.
  - destruct (bool_decide (Companies.email c = e)); cbn [head] in *.
    + injection Hfound as ->. eexists. split; [reflexivity | exact Hpending].
    + apply IH; assumption.
Qed.
End ResendLimiter.

Section ResendScenario.
Variable URL : string.
Variable e : string.

Lemma resend_ok_valid up d raw db st :
  statusCode (ResendVerification.handler URL up d "POST"
                (Spec.email_request raw) db st).1.1 = 200 ->
  test emailRegex (Spec.clean_email raw) = true
  /\ strlen (Spec.clean_email raw) <= 254.
Proof.
  unfold ResendVerification.handler, Spec.email_request.
  cbn [mbind option_bind prop assoc].
  post_request "email". case_bool_decide; [discriminate|].
  fold (Spec.clean_email raw).
  destruct (test emailRegex (Spec.clean_email raw)); cbn [negb orb];
    [|discriminate].
  destruct (254 <? strlen (Spec.clean_email raw)) eqn:E; [discriminate|].
  intros _. split; [reflexivity | lia].
Qed.

(** A request answered 200 for an address whose account is unverified
    went all the way: the attempt is recorded and the account is still
    unverified. *)
Lemma resend_step (c : Spec.resend_call) db st company :
  Spec.clean_email (Spec.call_email c) = e ->
  head (Companies.select_by_email e db) = Some company ->
  Companies.email_verified company = false ->
  statusCode (Spec.serve URL c (db, st)).1.1 = 200 ->
  (Spec.serve URL c (db, st)).2
    = ResendVerification.recordRateLimitAttempt (Spec.call_draws c) e st
  /\ exists company',
       head (Companies.select_by_email e (Spec.serve URL c (db, st)).1.2)
         = Some company'
       /\ Companies.email_verified company' = false.
Proof.
  intros Hclean Hfound Hpending. unfold Spec.serve. cbn [fst snd].
  intros H200. destruct (resend_ok_valid _ _ _ _ _ H200) as [Hre Hlen].
  rewrite Hclean in Hre, Hlen. revert H200.
  rewrite (handler_pending URL e _ _ _ db st company Hclean Hre Hlen Hfound Hpending).
  destruct (Companies.query_ok _); [|discriminate]. cbv zeta.
  destruct (ResendVerification.allowed _); [|discriminate].
  destruct (Companies.update_ok (Spec.call_upstream c)) eqn:Hup;
    [|discriminate].
  intros _. cbn [fst snd]. split; [reflexivity|].
  apply pending_after_update with (company := company); assumption.
Qed.

Lemma recent_one T x :
  T - x < ResendVerification.windowMs ->
  ResendVerification.recent T [x] = [x].
Proof.
  intros H. unfold ResendVerification.recent. cbn.
  destruct (T - x <? ResendVerification.windowMs) eqn:E; [reflexivity | lia].
Qed.
End ResendScenario.

(** C7. For an address whose account is unverified: if three resend
    requests for it were served one after the other, each answered 200,
    and a fourth follows while less than 15 minutes have passed since the
    first and the datastore answers, then the fourth is answered 429 with
    a [retryAfter] that is a positive number of seconds. *)
Theorem fourth_resend_is_refused
    (URL e : string) (db0 : list Companies.company)
    (st0 : ResendVerification.attempts_store) (company : Companies.company)
    (c1 c2 c3 c4 : Spec.resend_call) :
  Forall (fun c => Spec.clean_email (Spec.call_email c) = e
                   /\ Spec.clock_ordered c) [c1; c2; c3; c4] ->
  head (Companies.select_by_email e db0) = Some company ->
  Companies.email_verified company = false ->
  Spec.before c1 c2 -> Spec.before c2 c3 -> Spec.before c3 c4 ->
  ResendVerification.at_check (Spec.call_draws c4)
    - ResendVerification.at_check (Spec.call_draws c1)
    < ResendVerification.windowMs ->
  Companies.query_ok (Spec.call_upstream c4) = true ->
  let s1 := Spec.serve URL c1 (db0, st0) in
  let s2 := Spec.serve URL c2 (s1.1.2, s1.2) in
  let s3 := Spec.serve URL c3 (s2.1.2, s2.2) in
  let s4 := Spec.serve URL c4 (s3.1.2, s3.2) in
  statusCode s1.1.1 = 200 -> statusCode s2.1.1 = 200 ->
  statusCode s3.1.1 = 200 ->
  let n := Spec.seconds_left
             (ResendVerification.at_check (Spec.call_draws c4))
             (default [] (s3.2 !! ("resend_" +:+ e))) in
  statusCode s4.1.1 = 429
  /\ prop (body s4.1.1) "retryAfter" = Some (VNum (Fin (inject_Z n)))
  /\ 0 < n.
Proof.
  intros Hcalls Hfound Hpending H12 H23 H34 Hwindow Hq4 s1 s2 s3 s4
    Hok1 Hok2 Hok3 n.
  apply Forall_cons in Hcalls as [[He1 [Ha1 Hb1]] Hcalls].
  apply Forall_cons in Hcalls as [[He2 [Ha2 Hb2]] Hcalls].
  apply Forall_cons in Hcalls as [[He3 [Ha3 Hb3]] Hcalls].
  apply Forall_cons in Hcalls as [[He4 [Ha4 Hb4]] _].
  unfold Spec.before in H12, H23, H34.
  destruct (resend_ok_valid _ _ _ _ _ _ Hok1) as [Hre Hlen].
  rewrite He1 in Hre, Hlen.
  destruct (resend_step URL e c1 db0 st0 company He1 Hfound Hpending Hok1)
    as [Hst1 [co1 [Hf1 Hp1]]].
  fold s1 in Hst1, Hf1.
  destruct (resend_step URL e c2 s1.1.2 s1.2 co1 He2 Hf1 Hp1 Hok2)
    as [Hst2 [co2 [Hf2 Hp2]]].
  fold s2 in Hst2, Hf2.
  destruct (resend_step URL e c3 s2.1.2 s2.2 co2 He3 Hf2 Hp2 Hok3)
    as [Hst3 [co3 [Hf3 Hp3]]].
  fold s3 in Hst3, Hf3.
  set (T := ResendVerification.at_check (Spec.call_draws c4)) in *.
  assert (3 <= length (ResendVerification.recent T
                         (default [] (s3.2 !! ("resend_" +:+ e)))))%nat as Hthree.
  { rewrite Hst3, recent_after_record, recent_app by lia.
    rewrite Hst2, recent_after_record, recent_app by lia.
    rewrite Hst1, recent_after_record, recent_app by lia.
    rewrite !recent_one by lia. rewrite !length_app. cbn [length]. lia. }
  destruct (check_refuses e T s3.2 Hthree) as [Hcheck Hn].
  subst s4 n. unfold Spec.serve. cbn [fst snd].
  rewrite (handler_pending URL e _ _ _ _ _ co3 He4 Hre Hlen Hf3 Hp3).
  rewrite Hq4. cbv zeta. fold T. rewrite Hcheck. cbn.
  split; [reflexivity|]. split; [reflexivity | exact Hn].
Qed.

Lemma fourth_resend_is_refused_witness :
  let s1 := Spec.serve Sample.site (Sample.resend_at 0)
              ([Sample.pending_company], ∅) in
  let s2 := Spec.serve Sample.site (Sample.resend_at 100000) (s1.1.2, s1.2) in
  let s3 := Spec.serve Sample.site (Sample.resend_at 200000) (s2.1.2, s2.2) in
  let s4 := Spec.serve Sample.site (Sample.resend_at 300000) (s3.1.2, s3.2) in
  statusCode s4.1.1 = 429
  /\ prop (body s4.1.1) "retryAfter" = Some (VNum (Fin 601)).
Proof.
  cbv zeta.
  pose proof (fourth_resend_is_refused Sample.site "owner@example.com"
                [Sample.pending_company] ∅ Sample.pending_company
                (Sample.resend_at 0) (Sample.resend_at 100000)
                (Sample.resend_at 200000) (Sample.resend_at 300000)) as Hfourth.
  cbv zeta in Hfourth.
  destruct Hfourth as (Hstatus & Hretry & _).
  - repeat constructor; cbn; lia.
  - vm_compute. reflexivity.
  - vm_compute. reflexivity.
  - unfold Spec.before. cbn. lia.
  - unfold Spec.before. cbn. lia.
  - unfold Spec.before. cbn. lia.
  - vm_compute. reflexivity.
  - vm_compute. reflexivity.
  - vm_compute. reflexivity.
  - vm_compute. reflexivity.
  - vm_compute. reflexivity.
  - split; [exact Hstatus|]. rewrite Hretry. vm_compute. reflexivity.
Defined.

Section LeadValidation.
Variable remove_matches : string -> string -> string -> string.

Abbreviation errors_of st := (ValidateLeadData.errors st).

(** The messages of each kind of check, after those already pushed. *)
Lemma text_errors field maxLength minLength required tooShort input st :
  errors_of (ValidateLeadData.validate_text remove_matches field maxLength
               minLength required tooShort input st) =
    errors_of st ++
      if ValidateLeadData.missing (get input field) then [required]
      else if strlen (ValidateLeadData.sanitizeText remove_matches
                        (get input field) maxLength) <? minLength
           then [tooShort] else [].
Proof.
  unfold ValidateLeadData.validate_text.
  destruct (ValidateLeadData.missing (get input field)); [reflexivity|].
  destruct (strlen _ <? minLength); cbn; [reflexivity|].
  now rewrite app_nil_r.
Qed.

Lemma email_errors input st :
  errors_of (ValidateLeadData.validate_email input st) =
    errors_of st ++
      if ValidateLeadData.missing (get input "email") then ["Email is required"]
      else match get input "email" with
           | VStr s =>
               if ValidateLeadData.isValidEmail (toLowerCase (trim s))
               then [] else ["Invalid email format"]
           | _ => []
           end.
Proof.
  unfold ValidateLeadData.validate_email, ValidateLeadData.missing.
  destruct (get input "email") as [| |b|n|s|l|o]; try reflexivity.
  - destruct b; reflexivity.
  - destruct n as [| | |q]; try reflexivity. cbn.
    destruct (Qeq_bool q 0); reflexivity.
  - cbn. case_bool_decide; cbn; [reflexivity|].
    destruct (ValidateLeadData.isValidEmail _); cbn; [|reflexivity].
    now rewrite app_nil_r.
Qed.

Lemma phone_errors input st :
  errors_of (ValidateLeadData.validate_phone input st) =
    errors_of st ++
      if ValidateLeadData.missing (get input "phone")
      then ["Phone number is required"]
      else if bool_decide (ValidateLeadData.sanitizePhone (get input "phone") = "")
           then ["Invalid phone number format"] else [].
Proof.
  unfold ValidateLeadData.validate_phone.
  destruct (ValidateLeadData.missing (get input "phone")); [reflexivity|].
  case_bool_decide; cbn; [reflexivity|]. now rewrite app_nil_r.
Qed.

Lemma enum_errors field allowedValues msg input st :
  errors_of (ValidateLeadData.validate_enum field allowedValues msg input st) =
    errors_of st ++
      if negb (truthy (get input field))
         || negb (ValidateLeadData.includes allowedValues (get input field))
      then [msg] else [].
Proof.
  unfold ValidateLeadData.validate_enum.
  destruct (negb _ || negb _); cbn; [reflexivity|]. now rewrite app_nil_r.
Qed.

Lemma photo_errors input st :
  errors_of (ValidateLeadData.validate_photoUrls input st) = errors_of st.
Proof.
  unfold ValidateLeadData.validate_photoUrls.
  destruct (get input "photo-urls"); try reflexivity.
  case_bool_decide; reflexivity.
Qed.

(** Every check of the schema pushes its messages after those already
    there, whatever they are. *)
Lemma schema_checks_append input :
  Forall (fun rule => forall st,
            errors_of (Spec.field_check rule input st)
              = errors_of st ++ Spec.field_errors input rule)
         (Spec.lead_schema remove_matches).
Proof.
  unfold Spec.lead_schema, Spec.field_errors.
  each_rule;
    intros st; cbn [Spec.field_check Spec.text_rule Spec.enum_rule];
    unfold ValidateLeadData.validate_firstName, ValidateLeadData.validate_lastName,
      ValidateLeadData.validate_address, ValidateLeadData.validate_details,
      ValidateLeadData.validate_propertyType, ValidateLeadData.validate_timeline;
    rewrite ?text_errors, ?email_errors, ?phone_errors, ?enum_errors;
    reflexivity.
Qed.

Lemma validateLeadData_collects input :
  errors_of (ValidateLeadData.validateLeadData remove_matches input) =
    concat (map (Spec.field_errors input) (Spec.lead_schema remove_matches)).
Proof.
  pose proof (schema_checks_append input) as Happ.
  unfold Spec.lead_schema in *.
  repeat (apply Forall_cons in Happ as [?H Happ]).
  cbn [Spec.field_check Spec.text_rule Spec.enum_rule] in *.
  unfold ValidateLeadData.validateLeadData.
  rewrite photo_errors, H6, H5, H4, H3, H2, H1, H0, H.
  cbn [map concat ValidateLeadData.errors app]. rewrite app_nil_r, <- !app_assoc.
  reflexivity.
Qed.

Lemma missing_spec v :
  ValidateLeadData.missing v =
    match v with VStr s => bool_decide (s = "") | _ => true end.
Proof.
  unfold ValidateLeadData.missing.
  destruct v as [| |b|n|s|l|o]; cbn; try reflexivity.
  - apply orb_true_r.
  - apply orb_true_r.
  - rewrite orb_false_r. apply negb_involutive.
Qed.

(** A check of the schema reports nothing for an accepted field and
    exactly one message for any other. *)
Lemma text_verdict name maxLength minLength required tooShort input :
  let rule := Spec.text_rule remove_matches name maxLength minLength
                (ValidateLeadData.validate_text remove_matches name maxLength
                   minLength required tooShort) in
  if Spec.accepted input rule then Spec.field_errors input rule = []
  else exists msg, Spec.field_errors input rule = [msg].
Proof.
  cbv zeta. unfold Spec.accepted, Spec.field_errors, Spec.text_rule.
  cbn [Spec.field_check Spec.field_name Spec.field_valid].
  rewrite text_errors, missing_spec.
  cbn [Spec.nothing_yet ValidateLeadData.errors app].
  destruct (get input name) as [| |b|n|s|l|o]; eauto.
  case_bool_decide; cbn [negb andb]; [eauto|].
  destruct (minLength <=? strlen _) eqn:E1; destruct (strlen _ <? minLength) eqn:E2;
    try lia; eauto.
Qed.

Lemma enum_verdict name allowedValues msg input :
  let rule := Spec.enum_rule name allowedValues
                (ValidateLeadData.validate_enum name allowedValues msg) in
  if Spec.accepted input rule then Spec.field_errors input rule = []
  else Spec.field_errors input rule = [msg].
Proof.
  cbv zeta.
  unfold Spec.accepted, Spec.field_errors, Spec.enum_rule.
  cbn [Spec.field_check Spec.field_name Spec.field_valid].
  rewrite enum_errors. cbn [Spec.nothing_yet ValidateLeadData.errors app].
  destruct (get input name) as [| |b|n|s|l|o];
    cbn [ValidateLeadData.includes negb];
    try (rewrite orb_true_r; reflexivity).
  cbn [truthy].
  case_bool_decide as Hs; cbn [negb orb andb]; [reflexivity|].
  case_bool_decide; reflexivity.
Qed.

Lemma schema_verdicts input :
  Forall (fun rule =>
            if Spec.accepted input rule then Spec.field_errors input rule = []
            else exists msg, Spec.field_errors input rule = [msg])
         (Spec.lead_schema remove_matches).
Proof.
  unfold Spec.lead_schema.
  each_rule.
  - apply text_verdict.
  - apply text_verdict.
  - unfold Spec.accepted, Spec.field_errors.
    cbn [Spec.field_check Spec.field_name Spec.field_valid].
    rewrite email_errors, missing_spec.
    cbn [Spec.nothing_yet ValidateLeadData.errors app].
    destruct (get input "email") as [| |b|n|s|l|o]; eauto.
    case_bool_decide; cbn [negb andb]; [eauto|].
    unfold ValidateLeadData.isValidEmail.
    destruct (test emailRegex _ && _); eauto.
  - unfold Spec.accepted, Spec.field_errors.
    cbn [Spec.field_check Spec.field_name Spec.field_valid].
    rewrite phone_errors, missing_spec.
    cbn [Spec.nothing_yet ValidateLeadData.errors app].
    destruct (get input "phone") as [| |b|n|s|l|o]; eauto.
    case_bool_decide; cbn [negb andb]; [eauto|].
    unfold ValidateLeadData.sanitizePhone. fold (Spec.phone_cleaned s).
    destruct ((10 <=? strlen (Spec.phone_cleaned s))
              && (strlen (Spec.phone_cleaned s) <=? 20)) eqn:E.
    + rewrite bool_decide_eq_false_2; [reflexivity|].
      intros Hblank. rewrite Hblank in E. discriminate.
    + rewrite bool_decide_eq_true_2 by reflexivity. eauto.
  - apply text_verdict.
  - pose proof (enum_verdict "propertyType" ValidateLeadData.validPropertyTypes
                  "Invalid property type" input) as Hv.
    cbv zeta in Hv. destruct (Spec.accepted input _); [apply Hv | eexists; apply Hv].
  - pose proof (enum_verdict "timeline" ValidateLeadData.validTimelines
                  "Invalid timeline" input) as Hv.
    cbv zeta in Hv. destruct (Spec.accepted input _); [apply Hv | eexists; apply Hv].
  - apply text_verdict.
Qed.

(** A field that is absent, not a string or blank once sanitized is not
    accepted. *)
Lemma schema_unusable_rejected input :
  Forall (fun rule => Spec.unusable input rule ->
                      Spec.accepted input rule = false)
         (Spec.lead_schema remove_matches).
Proof.
  unfold Spec.lead_schema, Spec.unusable, Spec.accepted.
  each_rule;
    cbn [Spec.text_rule Spec.enum_rule Spec.field_name
         Spec.field_cleaned Spec.field_valid];
    rewrite missing_spec;
    (intros [Hm | [s [Hs Hblank]]];
     [ destruct (get input _); try reflexivity; rewrite Hm; reflexivity
     | rewrite Hs; try rewrite Hblank; apply andb_false_iff; right ]).
  - reflexivity.
  - reflexivity.
  - reflexivity.
  - reflexivity.
  - reflexivity.
  - apply bool_decide_eq_false_2. intros Hin.
    repeat (apply elem_of_cons in Hin as [-> | Hin]; [discriminate|]).
    apply elem_of_nil in Hin. exact Hin.
  - apply bool_decide_eq_false_2. intros Hin.
    repeat (apply elem_of_cons in Hin as [-> | Hin]; [discriminate|]).
    apply elem_of_nil in Hin. exact Hin.
  - reflexivity.
Qed.
End LeadValidation.

(** C8. For every raw input object, whatever the regular-expression
    engine removes, [validateLeadData] returns the messages of all eight
    field checks together, in schema order: each check reports after the
    ones before it whether or not they failed.  A field supplied as a
    non-empty string that passes its rule gets no message; every other
    field, missing or invalid, gets exactly one, and it is in the returned
    list.  In particular a required field that is absent, not a string, or
    blank after sanitization is not accepted, and the returned list is
    then not empty. *)
Theorem validateLeadData_collects_all_errors
    (remove_matches : string -> string -> string -> string) (input : jsobj) :
  let schema := Spec.lead_schema remove_matches in
  let errors := ValidateLeadData.errors
                  (ValidateLeadData.validateLeadData remove_matches input) in
  errors = concat (map (Spec.field_errors input) schema)
  /\ map Spec.field_name schema
       = ["firstName"; "lastName"; "email"; "phone"; "address";
          "propertyType"; "timeline"; "details"]
  /\ (forall rule, rule ∈ schema ->
        if Spec.accepted input rule then Spec.field_errors input rule = []
        else exists msg, Spec.field_errors input rule = [msg] /\ msg ∈ errors)
  /\ (forall rule, rule ∈ schema -> Spec.unusable input rule ->
        Spec.accepted input rule = false /\ errors <> []).
Proof.
  cbv zeta.
  assert (forall rule, rule ∈ Spec.lead_schema remove_matches ->
            if Spec.accepted input rule
            then Spec.field_errors input rule = []
            else exists msg, Spec.field_errors input rule = [msg]
                   /\ msg ∈ ValidateLeadData.errors
                        (ValidateLeadData.validateLeadData remove_matches input))
    as Hverdict.
  { intros rule Hrule.
    pose proof (proj1 (Forall_forall _ _) (schema_verdicts remove_matches input)
                  rule Hrule) as Hv.
    cbv beta in Hv.
    destruct (Spec.accepted input rule); [exact Hv|].
    destruct Hv as [msg Hmsg]. exists msg. split; [exact Hmsg|].
    rewrite validateLeadData_collects. apply list_elem_of_In, in_concat.
    exists (Spec.field_errors input rule). split.
    - apply in_map, list_elem_of_In, Hrule.
    - rewrite Hmsg. left. reflexivity. }
  split; [apply validateLeadData_collects|].
  split; [reflexivity|]. split; [exact Hverdict|].
  intros rule Hrule Hbad.
  pose proof (proj1 (Forall_forall _ _)
                (schema_unusable_rejected remove_matches input) rule Hrule Hbad)
    as Hrej.
  split; [exact Hrej|].
  specialize (Hverdict rule Hrule). rewrite Hrej in Hverdict.
  destruct Hverdict as [msg [_ Hin]].
  intros Hnil. rewrite Hnil in Hin. apply elem_of_nil in Hin. exact Hin.
Qed.

Lemma validateLeadData_collects_all_errors_witness :
  ValidateLeadData.errors
    (ValidateLeadData.validateLeadData Sample.no_matches
       (<["firstName" := VStr "   "]> ∅)) <> [].
Proof.
  destruct (validateLeadData_collects_all_errors Sample.no_matches
              (<["firstName" := VStr "   "]> ∅)) as (_ & _ & _ & Hbad).
  apply (Hbad (Spec.text_rule Sample.no_matches "firstName" 50 1
                 (ValidateLeadData.validate_firstName Sample.no_matches))).
  - apply list_elem_of_here.
  - right. exists "   ". split; reflexivity.
Defined.

Section ResendDisclosure.
Variable URL : string.

(** The part of C4 the handler does provide: an address that is well
    formed and has no row is answered 200 with the generic message,
    whatever else the request carries, and nothing is stored. *)
Lemma resend_unknown_address up d raw db st :
  raw <> "" ->
  test emailRegex (Spec.clean_email raw) = true ->
  strlen (Spec.clean_email raw) <= 254 ->
  Companies.query_ok up = true ->
  Companies.select_by_email (Spec.clean_email raw) db = [] ->
  ResendVerification.handler URL up d "POST" (Spec.email_request raw) db st
    = (Spec.resend_generic, db, st).
Proof.
  intros Hraw Hre Hlen Hq Hnone.
  unfold ResendVerification.handler, Spec.email_request.
  cbn [mbind option_bind prop assoc].
  post_request "email". rewrite (bool_decide_eq_false_2 (raw = "")) by exact Hraw.
  fold (Spec.clean_email raw). rewrite Hre. cbn [negb orb].
  destruct (254 <? strlen (Spec.clean_email raw)) eqn:E; [lia|].
  unfold ResendVerification.findCompanyByEmail. rewrite Hq, Hnone.
  reflexivity.
Qed.
End ResendDisclosure.

(** C4, evaluated.  The same request for the sample address is answered
    with the generic message when no account has it, with the
    already-verified message when a verified account has it, and with the
    sent message and the verification link when an unverified account has
    it: the three bodies differ, so the reply tells whether the account
    exists. *)
Theorem resend_reply_depends_on_account :
  let reply db :=
    (ResendVerification.handler Sample.site Sample.all_ok (Sample.draws_at 1000)
       "POST" Sample.resend_request db ∅).1.1 in
  reply [] = Spec.resend_generic
  /\ statusCode (reply [Sample.verified_company]) = 200
  /\ prop (body (reply [Sample.verified_company])) "alreadyVerified"
       = Some (VBool true)
  /\ reply [Sample.pending_company]
       = Spec.resend_sent Sample.site (Sample.draws_at 1000)
  /\ reply [Sample.verified_company] <> reply []
  /\ reply [Sample.pending_company] <> reply [].
Proof.
  cbv zeta. repeat split; try reflexivity; vm_compute; discriminate.
Qed.

Section Pagination.

Lemma parse_fallback s d :
  parseInt s = None \/ parseInt s = Some 0 -> parseInt_or s d = d.
Proof. unfold parseInt_or. intros [-> | ->]; reflexivity. Qed.

Lemma parse_kept s d n :
  parseInt s = Some n -> n <> 0 -> parseInt_or s d = n.
Proof.
  unfold parseInt_or. intros -> Hn.
  destruct (n =? 0) eqn:E; [lia | reflexivity].
Qed.

(** A slice over a span that is not negative has at most that many
    elements. *)
Lemma slice_length_le {A} (l : list A) start stop :
  0 <= stop - start ->
  Z.of_nat (length (slice l start stop)) <= stop - start.
Proof.
  intros Hspan. unfold slice, slice_pos.
  rewrite length_take, length_drop.
  destruct (start <? 0) eqn:E1; destruct (stop <? 0) eqn:E2; lia.
Qed.

(** The parts of C10 that hold for every query: the fallbacks of the two
    parameters on input that is not numeric or parses to zero, and the
    bound of the page by a positive limit.  ([hasMore] is the comparison
    of [offset + limit] with the number of filtered leads by the
    definition of the handler.) *)
Lemma pagination_with_positive_limit (q : gmap string string) (leads : list jsobj) :
  (forall s, q !! "limit" = Some s ->
             parseInt s = None \/ parseInt s = Some 0 ->
             SecureLeadsDemo.limitNum q = 20)
  /\ (forall s, q !! "offset" = Some s ->
                parseInt s = None \/ parseInt s = Some 0 ->
                SecureLeadsDemo.offsetNum q = 0)
  /\ (0 < SecureLeadsDemo.limitNum q ->
      Z.of_nat (length (SecureLeadsDemo.paginate q leads))
        <= SecureLeadsDemo.limitNum q).
Proof.
  split; [|split].
  - unfold SecureLeadsDemo.limitNum. intros s -> Hs. apply parse_fallback, Hs.
  - unfold SecureLeadsDemo.offsetNum. intros s -> Hs. apply parse_fallback, Hs.
  - intros Hpos. unfold SecureLeadsDemo.paginate.
    etransitivity; [apply slice_length_le; lia | lia].
Qed.
End Pagination.

(** C10, evaluated.  With [limit=-1] the authenticated listing of the demo
    leads parses the limit to [-1] without falling back, and returns a
    page of two leads: more than the effective limit it reports. *)
Theorem negative_limit_page_exceeds_limit :
  let q := SecureLeadsDemo.queryStringParameters Sample.negative_limit_event in
  let r := SecureLeadsDemo.handler Sample.no_date Sample.no_number
             Sample.no_string Sample.verifier None 1000000
             Sample.negative_limit_event in
  SecureLeadsDemo.limitNum q = -1
  /\ SecureLeadsDemo.offsetNum q = 0
  /\ SecureLeadsDemo.statusCode r = 200
  /\ length (Spec.page_of (SecureLeadsDemo.body r)) = 2%nat
  /\ (SecureLeadsDemo.meta_limit <$> Spec.meta_of (SecureLeadsDemo.body r))
       = Some (-1)
  /\ (SecureLeadsDemo.meta_hasMore <$> Spec.meta_of (SecureLeadsDemo.body r))
       = Some true
  /\ ~ (Z.of_nat (length (Spec.page_of (SecureLeadsDemo.body r)))
        <= SecureLeadsDemo.limitNum q).
Proof.
  cbv zeta. repeat split; try (vm_compute; reflexivity).
  vm_compute. intros H. apply H. reflexivity.
Qed.

Section LimiterFrame.
Variable W : Z.
Variable N : Z.
Variable key : string.

(** Once the counter has reached the maximum, calls inside the window are
    refused and leave the store as it is. *)
Lemma calls_without_room times : forall st c r,
  st !! key = Some (Notions.entry c r) ->
  Forall (fun t => t <= r) times ->
  N <= c ->
  Spec.calls W N key times st = (replicate (length times) false, st).
Proof.
  induction times as [|t rest IH]; intros st c r Hst Hin Hfull; [reflexivity|].
  apply Forall_cons in Hin as [Ht Hrest].
  cbn [Spec.calls length replicate].
  rewrite (limiter_in_window W N key t st c r Hst Ht).
  rewrite bool_decide_eq_false_2 by lia.
  rewrite (IH st c r Hst Hrest Hfull). reflexivity.
Qed.
End LimiterFrame.

(** X1. A call of the fixed-window limiter for one key reads and writes the
    entry of that key only: the entry of every other key is the same
    after the call, whether the call was allowed or refused. *)
Theorem fixed_window_keys_independent
    (W N now : Z) (key other : string) (st : gmap string SecureLeads.limit_entry) :
  key <> other ->
  (SecureLeads.fixed_window W N now key st).2 !! other = st !! other.
Proof.
  intros Hne. unfold SecureLeads.fixed_window.
  destruct (st !! key) as [userLimit|]; cbn [snd].
  - destruct (SecureLeads.resetTime userLimit <? now); cbn [snd];
      [apply lookup_insert_ne, Hne|].
    destruct (N <=? SecureLeads.count userLimit); cbn [snd];
      [reflexivity | apply lookup_insert_ne, Hne].
  - apply lookup_insert_ne, Hne.
Qed.

Lemma fixed_window_keys_independent_witness :
  (SecureLeads.fixed_window 10 2 5 "a"
     (<["b" := Notions.entry 2 7]> ∅)).2 !! "b" = Some (Notions.entry 2 7).
Proof.
  rewrite (fixed_window_keys_independent 10 2 5 "a" "b"); [|discriminate].
  reflexivity.
Defined.

(** X2. However many calls are made for a key before its reset time, the
    limiter lets through the first [N - c] of them, [c] being the count
    already stored, and refuses all the later ones; the refused calls do
    not change the store, so they neither count nor move the reset time. *)
Theorem fixed_window_admits_at_most_N
    (W N : Z) (key : string) (times : list Z)
    (st : gmap string SecureLeads.limit_entry) (c r : Z) :
  st !! key = Some (Notions.entry c r) ->
  Forall (fun t => t <= r) times ->
  let n := length times in
  let a := Notions.room N c n in
  (Spec.calls W N key times st).1 = replicate a true ++ replicate (n - a) false
  /\ (Spec.calls W N key times st).2 !! key
       = Some (Notions.entry (c + Z.of_nat a) r)
  /\ (N <= c -> (Spec.calls W N key times st).2 = st).
Proof.
  intros Hst Hin n a.
  destruct (Z_le_gt_dec N c) as [Hnone | Hsome].
  - assert (a = 0)%nat as -> by (unfold a, Notions.room; lia).
    rewrite (calls_without_room W N key times st c r Hst Hin Hnone).
    cbn [fst snd replicate app]. rewrite Nat.sub_0_r, Z.add_0_r. auto.
  - assert (a <= n)%nat as Han by (unfold a, Notions.room; lia).
    rewrite <- (take_drop a times) in Hin |- *.
    apply Forall_app in Hin as [Hfirst Hlast].
    assert (length (take a times) = a) as Hlen1 by (rewrite length_take; lia).
    assert (length (drop a times) = (n - a)%nat) as Hlen2
      by (rewrite length_drop; reflexivity).
    destruct (calls_with_room W N key (take a times) st c r Hst Hfirst)
      as [st1 [Hc1 Hk1]].
    { rewrite Hlen1. unfold a, Notions.room. lia. }
    rewrite Hlen1 in Hc1, Hk1.
    destruct (Z_le_gt_dec N (c + Z.of_nat a)) as [Hfull | Hroom].
    + rewrite calls_app, Hc1.
      rewrite (calls_without_room W N key (drop a times) st1 _ r Hk1 Hlast Hfull).
      rewrite Hlen2. cbn [fst snd]. split; [reflexivity|].
      split; [exact Hk1 | lia].
    + assert (a = n) as Hall by (unfold a, Notions.room in *; lia).
      assert (drop a times = []) as Hnil by (apply drop_ge; fold n; lia).
      rewrite Hnil, app_nil_r, Hc1. cbn [fst snd].
      replace (n - a)%nat with 0%nat by lia. cbn [replicate].
      rewrite app_nil_r. split; [reflexivity|]. split; [exact Hk1 | lia].
Qed.

Lemma fixed_window_admits_at_most_N_witness :
  (Spec.calls 10 3 "k" [2; 4; 6; 8; 9]
     (<["k" := Notions.entry 1 10]> ∅)).1 = [true; true; false; false; false].
Proof.
  apply (fixed_window_admits_at_most_N 10 3 "k" [2; 4; 6; 8; 9]
           (<["k" := Notions.entry 1 10]> ∅) 1 10).
  - reflexivity.
  - repeat constructor; lia.
Defined.

Section ResendWindow.
Variable e : string.

Lemma list_min_elem l : l <> [] -> ResendVerification.list_min l ∈ l.
Proof.
  destruct l as [|x xs]; [congruence|]. intros _.
  cbn [ResendVerification.list_min].
  induction xs as [|y ys IH]; cbn [foldr]; [apply list_elem_of_here|].
  destruct (Z.min_spec y (foldr Z.min x ys)) as [[_ ->] | [_ ->]].
  - apply list_elem_of_further, list_elem_of_here.
  - apply elem_of_cons in IH as [-> | IH];
      [apply list_elem_of_here | do 2 apply list_elem_of_further; exact IH].
Qed.

Lemma recent_sublist T l x : x ∈ ResendVerification.recent T l -> x ∈ l.
Proof.
  unfold ResendVerification.recent. rewrite !list_elem_of_In, List.filter_In.
  tauto.
Qed.

Lemma recent_none T l :
  Forall (fun x => ResendVerification.windowMs <= T - x) l ->
  ResendVerification.recent T l = [].
Proof.
  unfold ResendVerification.recent.
  induction 1 as [|x l Hx _ IH]; [reflexivity|]. cbn [List.filter].
  destruct (T - x <? ResendVerification.windowMs) eqn:E; [lia | exact IH].
Qed.

(** What the cleanup stores for a key is the recent part of what was
    stored, or nothing when no attempt is recent. *)
Lemma cleanup_lookup C (st : ResendVerification.attempts_store) k :
  default [] (ResendVerification.cleanupRateLimit C st !! k)
    = ResendVerification.recent C (default [] (st !! k)).
Proof.
  unfold ResendVerification.cleanupRateLimit. rewrite lookup_omap.
  destruct (st !! k) as [l|]; simpl; [|reflexivity].
  destruct (ResendVerification.recent C l); reflexivity.
Qed.
End ResendWindow.

(** X3. The cleanup of the resend limiter cannot be observed by later checks:
    a check at a time not before the cleanup answers the same with and
    without it.  What the cleanup leaves has no empty list and no attempt
    that has left the window, and every list it keeps is the recent part
    of the list that was stored. *)
Theorem cleanupRateLimit_is_transparent
    (C T : Z) (e : string) (st : ResendVerification.attempts_store) :
  (C <= T ->
   ResendVerification.checkRateLimit T e (ResendVerification.cleanupRateLimit C st)
     = ResendVerification.checkRateLimit T e st)
  /\ (forall k l,
        ResendVerification.cleanupRateLimit C st !! k = Some l ->
        l <> []
        /\ Forall (fun x => C - x < ResendVerification.windowMs) l
        /\ exists l0, st !! k = Some l0 /\ l = ResendVerification.recent C l0).
Proof.
  split.
  - intros HCT. unfold ResendVerification.checkRateLimit.
    rewrite cleanup_lookup, (recent_recent T C _ HCT). reflexivity.
  - intros k l. unfold ResendVerification.cleanupRateLimit.
    rewrite lookup_omap.
    destruct (st !! k) as [l0|]; cbn [mbind option_bind]; [|discriminate].
    destruct (ResendVerification.recent C l0) as [|x xs] eqn:Hr; [discriminate|].
    intros [= <-]. split; [discriminate|]. split; [|eauto].
    rewrite <- Hr. apply recent_all.
Qed.

Lemma cleanupRateLimit_is_transparent_witness :
  ResendVerification.checkRateLimit 1000000 "a@b.c"
    (ResendVerification.cleanupRateLimit 950000
       (<["resend_a@b.c" := [10; 200000; 300000; 400000]]> ∅))
  = {| ResendVerification.allowed := false;
       ResendVerification.retryAfter := Some 100 |}.
Proof.
  rewrite (proj1 (cleanupRateLimit_is_transparent 950000 1000000 "a@b.c" _))
    by lia.
  vm_compute. reflexivity.
Defined.

(** X4. The resend limiter is a sliding window over the recorded attempts of
    the address: a check is allowed exactly when fewer than three of them
    are less than 15 minutes old, so it is allowed whenever every attempt
    is at least 15 minutes old.  A refused check asks to wait at least one
    second, and at most 900 when no recorded attempt lies in the future. *)
Theorem resend_limiter_sliding_window
    (T : Z) (e : string) (st : ResendVerification.attempts_store) :
  let attempts := default [] (st !! ("resend_" +:+ e)) in
  let answer := ResendVerification.checkRateLimit T e st in
  (ResendVerification.allowed answer = true <->
     (length (ResendVerification.recent T attempts) < 3)%nat)
  /\ (Forall (fun x => ResendVerification.windowMs <= T - x) attempts ->
      ResendVerification.allowed answer = true)
  /\ (ResendVerification.allowed answer = false ->
      exists n, ResendVerification.retryAfter answer = Some n
                /\ 1 <= n
                /\ (Forall (fun x => x <= T) attempts -> n <= 900)).
Proof.
  cbv zeta. unfold ResendVerification.checkRateLimit, ResendVerification.maxAttempts.
  set (attempts := default [] (st !! ("resend_" +:+ e))).
  set (recentAttempts := ResendVerification.recent T attempts).
  destruct (3 <=? Z.of_nat (length recentAttempts)) eqn:E;
    cbn [ResendVerification.allowed ResendVerification.retryAfter].
  - split; [split; [discriminate | lia]|]. split.
    + intros Hold. exfalso. unfold recentAttempts in E.
      rewrite (recent_none T attempts Hold) in E. discriminate.
    + intros _. eexists. split; [reflexivity|].
      assert (recentAttempts <> []) as Hne
        by (intros Hnil; rewrite Hnil in E; discriminate).
      pose proof (list_min_recent T recentAttempts Hne (recent_all T attempts))
        as Hmin.
      pose proof (list_min_elem recentAttempts Hne) as Hin.
      unfold ceil_div, ResendVerification.windowMs in *.
      set (m := ResendVerification.list_min recentAttempts) in *.
      split.
      * assert (- (15 * 60 * 1000 - (T - m)) / 1000 < 0)
          by (apply Z.div_lt_upper_bound; lia). lia.
      * intros Hpast.
        assert (m <= T) as HmT
          by (apply (proj1 (Forall_forall _ _) Hpast),
                (recent_sublist T attempts m Hin)).
        assert (-900 <= - (15 * 60 * 1000 - (T - m)) / 1000)
          by (apply Z.div_le_lower_bound; lia). lia.
  - split; [split; [lia | reflexivity]|]. split; [reflexivity | discriminate].
Qed.

Lemma resend_limiter_sliding_window_witness :
  ResendVerification.allowed
    (ResendVerification.checkRateLimit 2000000 "a@b.c"
       (<["resend_a@b.c" := [10; 200000; 300000; 400000]]> ∅)) = true.
Proof.
  apply (proj1 (proj2 (resend_limiter_sliding_window 2000000 "a@b.c"
                         (<["resend_a@b.c" := [10; 200000; 300000; 400000]]> ∅)))).
  replace (default [] _) with [10; 200000; 300000; 400000]
    by (vm_compute; reflexivity).
  unfold ResendVerification.windowMs.
  repeat (apply Forall_cons_2; [lia|]). apply Forall_nil_2.
Defined.


Section VerifyEmailReplies.
Variable Date_parse : string -> timeval.

Lemma filter_keeps_all {A} (f : A -> bool) (l : list A) :
  (length (List.filter f l) =? length l)%nat = forallb f l.
Proof.
  induction l as [|x l IH]; [reflexivity|]. cbn [List.filter forallb].
  destruct (f x); cbn [length andb]; [exact IH|].
  pose proof (filter_length_le f l). apply Nat.eqb_neq. lia.
Qed.

Lemma token_gate t :
  negb (strlen (VerifyEmail.sanitize_token t) =? strlen t)
  || (strlen (VerifyEmail.sanitize_token t) <? 16)
  = negb (Notions.well_formed_token t).
Proof.
  unfold Notions.well_formed_token.
  rewrite <- (filter_keeps_all VerifyEmail.is_alnum (chars t)).
  unfold VerifyEmail.sanitize_token.
  rewrite strlen_of_chars, (strlen_chars t).
  destruct (Nat.eqb_spec (length (List.filter VerifyEmail.is_alnum (chars t)))
              (length (chars t))) as [-> | Hne].
  - rewrite Z.eqb_refl. cbn [negb orb andb].
    destruct (Z.ltb_spec (Z.of_nat (length (chars t))) 16);
      destruct (Z.leb_spec 16 (Z.of_nat (length (chars t)))); try lia; reflexivity.
  - destruct (Z.eqb_spec (Z.of_nat (length (List.filter VerifyEmail.is_alnum (chars t))))
                (Z.of_nat (length (chars t)))); [lia | reflexivity].
Qed.

Lemma well_formed_same t :
  Notions.well_formed_token t = true -> VerifyEmail.sanitize_token t = t.
Proof.
  intros Hw. apply sanitize_token_same.
  pose proof (token_gate t) as Hg. rewrite Hw in Hg. cbn [negb] in Hg.
  apply orb_false_iff in Hg as [Hg _]. apply negb_false_iff in Hg. lia.
Qed.

Lemma well_formed_nonempty t : Notions.well_formed_token t = true -> t <> "".
Proof. intros Hw ->. vm_compute in Hw. discriminate. Qed.

Lemma head_filter {A} (f : A -> bool) (l : list A) x :
  head (List.filter f l) = Some x -> x ∈ l /\ f x = true.
Proof.
  induction l as [|y l IH]; cbn [List.filter]; [discriminate|].
  destruct (f y) eqn:E.
  - intros [= ->]. split; [apply list_elem_of_here | exact E].
  - intros H. destruct (IH H). split; [now apply list_elem_of_further | assumption].
Qed.

(** The rows of the table after [updateCompanyVerification], one by one. *)
Lemma verification_rowwise up companyId db :
  Forall2 (fun c c' =>
             Notions.same_account c c'
             /\ (c' = c \/ (Companies.id c = companyId /\ Spec.verified c')))
    db (VerifyEmail.updateCompanyVerification up companyId db).2.
Proof.
  unfold VerifyEmail.updateCompanyVerification.
  destruct (Companies.update_ok up); cbn [snd].
  - unfold Companies.patch_by_id.
    induction db as [|c db IH]; [constructor|]. cbn [map].
    constructor; [|exact IH].
    case_bool_decide as Hid.
    + split; [repeat split | right; split; [exact Hid | repeat split]].
    + split; [repeat split | now left].
  - induction db as [|c db IH]; constructor;
      [split; [repeat split | now left] | exact IH].
Qed.

Lemma rows_untouched (db : list Companies.company)
    (P : Companies.company -> Companies.company -> Prop) :
  (forall c, P c c) -> Forall2 P db db.
Proof. intros HP. induction db; constructor; auto. Qed.
(** The reply of verify-email.js to a well-formed token whose first
    holder is unverified. *)
Lemma verify_pending up now t db company :
  Notions.well_formed_token t = true ->
  head (Companies.select_by_token t db) = Some company ->
  Companies.email_verified company = false ->
  Companies.query_ok up = true ->
  Companies.update_ok up = true ->
  VerifyEmail.handler Date_parse up now "POST" (Spec.token_request t) db
    = if match Date_parse (Companies.created_at company) with
         | Some t0 => Spec.day_ms <? now - t0
         | None => false
         end
      then (Notions.token_expired, db)
      else (Notions.verification_done company,
            (VerifyEmail.updateCompanyVerification up (Companies.id company) db).2).
Proof.
  intros Hw Hhead Hv Hq Hu.
  unfold VerifyEmail.handler, Spec.token_request.
  cbn [mbind option_bind prop assoc].
  post_request "token".
  rewrite (bool_decide_eq_false_2 (t = "")) by now apply well_formed_nonempty.
  rewrite token_gate, Hw. cbn [negb]. rewrite (well_formed_same t Hw).
  unfold VerifyEmail.findCompanyByToken, VerifyEmail.updateCompanyVerification.
  rewrite Hq, Hhead, Hv, Hu. cbn [negb snd]. reflexivity.
Qed.

(** Which of the two replies to a pending account carries status 200. *)
Lemma age_verdict (parsed : timeval) (now : Z) (company : Companies.company)
    (db db' : list Companies.company) :
  let out := if match parsed with
                | Some t0 => Spec.day_ms <? now - t0
                | None => false
                end
             then (Notions.token_expired, db)
             else (Notions.verification_done company, db') in
  (statusCode out.1 = 200 <->
     forall t0, parsed = Some t0 -> now - t0 <= Spec.day_ms)
  /\ (statusCode out.1 <> 200 -> out = (Notions.token_expired, db)).
Proof.
  cbv zeta. destruct parsed as [t0|].
  - destruct (Z.ltb_spec Spec.day_ms (now - t0)); cbn [fst snd statusCode].
    + split; [|reflexivity].
      split; [discriminate | intros H0; specialize (H0 t0 eq_refl); lia].
    + split; [|intros H0; now elim H0].
      split; [intros _ ? [= <-]; lia | reflexivity].
  - cbn [fst snd statusCode].
    split; [split; [discriminate | reflexivity] | intros H0; now elim H0].
Qed.

(** The reply of verify-email.js to a well-formed token no row holds. *)
Lemma verify_unknown up now t db :
  Notions.well_formed_token t = true ->
  Companies.select_by_token t db = [] ->
  Companies.query_ok up = true ->
  VerifyEmail.handler Date_parse up now "POST" (Spec.token_request t) db
    = (Spec.token_not_found, db).
Proof.
  intros Hw Hnone Hq.
  unfold VerifyEmail.handler, Spec.token_request.
  cbn [mbind option_bind prop assoc].
  post_request "token".
  rewrite (bool_decide_eq_false_2 (t = "")) by now apply well_formed_nonempty.
  rewrite token_gate, Hw. cbn [negb]. rewrite (well_formed_same t Hw).
  unfold VerifyEmail.findCompanyByToken. rewrite Hq, Hnone. reflexivity.
Qed.

End VerifyEmailReplies.

(** X5. verify-email.js, the format gate.  A POST whose token is a
    non-empty string is answered 400 "Invalid verification token format"
    exactly when the token has a character that is no letter or digit or
    is shorter than 16 characters, whatever the table holds and whatever
    the datastore would answer; the table is left as it was. *)
Theorem verify_email_rejects_malformed_token
    (Date_parse : string -> timeval) (up : Companies.upstream) (now : Z)
    (t : string) (db : list Companies.company) :
  VerifyEmail.handler Date_parse up now "POST" (Spec.token_request t) db
    = (Notions.token_format_error, db)
  <-> t <> "" /\ Notions.well_formed_token t = false.
Proof.
  unfold VerifyEmail.handler, Spec.token_request.
  cbn [mbind option_bind prop assoc].
  post_request "token".
  case_bool_decide as Ht.
  { split; [intros [= ?] | intros [? _]; contradiction]. }
  rewrite token_gate.
  destruct (Notions.well_formed_token t); cbn [negb].
  - split; [|intros [_ ?]; discriminate].
    unfold VerifyEmail.findCompanyByToken.
    destruct (Companies.query_ok up); [|intros [= ?]].
    destruct (head _) as [company|]; [|intros [= ?]].
    destruct (Companies.email_verified company); [intros [= ?]|].
    destruct (match Date_parse _ with Some _ => _ | None => _ end);
      [intros [= ?]|].
    destruct (VerifyEmail.updateCompanyVerification _ _ _) as [[] ?];
      cbn [negb]; intros [= ?].
  - split; [intros _; split; [exact Ht | reflexivity] | reflexivity].
Qed.

(** X6. verify-email.js writes to the table only when it answers 200.
    Every reply with another status leaves the table as it was.  A 200
    keeps every row's id, email, names and creation time; a row it changes
    is verified afterwards, and has the id of a row that was unverified and
    held the presented token. *)
Theorem verify_email_writes_only_on_success
    (Date_parse : string -> timeval) (up : Companies.upstream) (now : Z)
    (httpMethod : string) (parsed : option jsval) (db : list Companies.company) :
  let out := VerifyEmail.handler Date_parse up now httpMethod parsed db in
  (statusCode out.1 <> 200 -> out.2 = db)
  /\ Forall2
       (fun c c' =>
          Notions.same_account c c'
          /\ (c' = c
              \/ (Spec.verified c'
                  /\ exists t holder,
                       parsed ≫= (fun requestData => prop requestData "token")
                         = Some (VStr t)
                       /\ holder ∈ db
                       /\ Companies.verification_token holder = Some t
                       /\ Companies.email_verified holder = false
                       /\ Companies.id c = Companies.id holder)))
       db out.2.
Proof.
  cbv zeta.
  assert (forall c, Notions.same_account c c
            /\ (c = c
                \/ (Spec.verified c
                    /\ exists t holder,
                         parsed ≫= (fun requestData => prop requestData "token")
                           = Some (VStr t)
                         /\ holder ∈ db
                         /\ Companies.verification_token holder = Some t
                         /\ Companies.email_verified holder = false
                         /\ Companies.id c = Companies.id holder))) as Hsame
    by (intros c; split; [repeat split | now left]).
  unfold VerifyEmail.handler.
  destruct (bool_decide (httpMethod = "OPTIONS")); cbn [fst snd];
    [split; [reflexivity | now apply rows_untouched]|].
  destruct (negb (bool_decide (httpMethod = "POST"))); cbn [fst snd];
    [split; [reflexivity | now apply rows_untouched]|].
  destruct (parsed ≫= _) as [[| | | |t| |]|] eqn:Hparsed; cbn [fst snd];
    try (split; [reflexivity | now apply rows_untouched]).
  destruct (bool_decide (t = "")); cbn [fst snd];
    [split; [reflexivity | now apply rows_untouched]|].
  rewrite token_gate.
  destruct (Notions.well_formed_token t) eqn:Hw; cbn [negb fst snd];
    [|split; [reflexivity | now apply rows_untouched]].
  rewrite (well_formed_same t Hw).
  unfold VerifyEmail.findCompanyByToken.
  destruct (Companies.query_ok up); cbn [fst snd];
    [|split; [reflexivity | now apply rows_untouched]].
  destruct (head _) as [company|] eqn:Hhead; cbn [fst snd];
    [|split; [reflexivity | now apply rows_untouched]].
  apply head_filter in Hhead as [Hin Htok]. apply bool_decide_eq_true in Htok.
  destruct (Companies.email_verified company) eqn:Hv; cbn [fst snd];
    [split; [intros H; now elim H | now apply rows_untouched]|].
  destruct (match Date_parse _ with Some _ => _ | None => _ end); cbn [fst snd];
    [split; [reflexivity | now apply rows_untouched]|].
  pose proof (verification_rowwise up (Companies.id company) db) as Hrows.
  unfold VerifyEmail.updateCompanyVerification in *.
  destruct (Companies.update_ok up); cbn [negb fst snd] in *.
  - split; [intros H; now elim H|].
    eapply Forall2_impl; [exact Hrows|]. cbv beta.
    intros c c' [Hacc [-> | [Hid Hver]]]; split; try assumption; [now left|].
    right. split; [exact Hver|]. exists t, company. auto.
  - split; [reflexivity | now apply rows_untouched].
Qed.

(** X7. verify-email.js, the age check.  For a well-formed token held by
    an unverified account and a datastore that answers, the reply is 200
    exactly when the account's creation time, if it parses, lies at most
    24 hours back: one millisecond more is refused, and a creation time
    that does not parse never expires.  A refusal is the 400 that asks to
    request a new email, and leaves the table as it was. *)
Theorem verify_email_expiry
    (Date_parse : string -> timeval) (up : Companies.upstream) (now : Z)
    (t : string) (db : list Companies.company) (company : Companies.company) :
  Notions.well_formed_token t = true ->
  head (Companies.select_by_token t db) = Some company ->
  Companies.email_verified company = false ->
  Companies.query_ok up = true ->
  Companies.update_ok up = true ->
  let out := VerifyEmail.handler Date_parse up now "POST" (Spec.token_request t) db in
  (statusCode out.1 = 200 <->
     forall t0, Date_parse (Companies.created_at company) = Some t0 ->
                now - t0 <= Spec.day_ms)
  /\ (statusCode out.1 <> 200 -> out = (Notions.token_expired, db)).
Proof.
  intros Hw Hhead Hv Hq Hu out. unfold out.
  rewrite (verify_pending Date_parse up now t db company Hw Hhead Hv Hq Hu).
  apply age_verdict.
Qed.


Lemma verify_email_expiry_witness :
  statusCode
    (VerifyEmail.handler Sample.epoch_date Sample.all_ok 86400000 "POST"
       (Spec.token_request Sample.pending_token) [Sample.pending_company]).1
  = 200.
Proof.
  refine (proj2 (proj1 (verify_email_expiry Sample.epoch_date Sample.all_ok
                          86400000 Sample.pending_token [Sample.pending_company]
                          Sample.pending_company _ _ _ _ _)) _).
  - vm_compute. reflexivity.
  - vm_compute. reflexivity.
  - reflexivity.
  - reflexivity.
  - reflexivity.
  - intros t0 [= <-]. vm_compute. discriminate.
Defined.

Section ResendWrites.
Variable URL : string.
Variable Date_parse : string -> timeval.

(** The rows of the table after [updateVerificationToken], one by one. *)
Lemma token_update_rowwise up companyId newToken db :
  Forall2 (fun c c' =>
             Notions.same_account c c'
             /\ Companies.email_verified c' = Companies.email_verified c
             /\ Companies.account_status c' = Companies.account_status c
             /\ (c' = c
                 \/ (Companies.id c = companyId
                     /\ Companies.verification_token c' = Some newToken)))
    db (ResendVerification.updateVerificationToken up companyId newToken db).2.
Proof.
  unfold ResendVerification.updateVerificationToken.
  destruct (Companies.update_ok up); cbn [snd].
  - unfold Companies.patch_by_id.
    induction db as [|c db IH]; [constructor|]. cbn [map].
    constructor; [|exact IH].
    case_bool_decide as Hid.
    + split; [repeat split|]. split; [reflexivity|]. split; [reflexivity|].
      right. split; [exact Hid | reflexivity].
    + split; [repeat split|]. split; [reflexivity|]. split; [reflexivity|].
      now left.
  - apply rows_untouched. intros c.
    split; [repeat split|]. split; [reflexivity|]. split; [reflexivity|].
    now left.
Qed.

Lemma fresh_token_holder newToken db company :
  company ∈ db ->
  (forall c, c ∈ db -> Companies.id c = Companies.id company -> c = company) ->
  (forall c, c ∈ db -> Companies.verification_token c <> Some newToken) ->
  head (Companies.select_by_token newToken
          (Companies.patch_by_id (Companies.id company) (Notions.with_token newToken) db))
    = Some (Notions.with_token newToken company).
Proof.
  unfold Companies.select_by_token, Companies.patch_by_id.
  induction db as [|c db IH]; intros Hin Hkey Hfresh.
  - now apply elem_of_nil in Hin.
  - cbn [map List.filter].
    destruct (bool_decide (Companies.id c = Companies.id company)) eqn:Hid.
    + apply bool_decide_eq_true in Hid.
      rewrite (Hkey c (list_elem_of_here _ _) Hid).
      cbn [Notions.with_token Companies.verification_token].
      rewrite bool_decide_eq_true_2 by reflexivity. reflexivity.
    + apply bool_decide_eq_false in Hid.
      rewrite bool_decide_eq_false_2
        by (apply Hfresh, list_elem_of_here).
      apply IH.
      * apply elem_of_cons in Hin as [-> | Hin]; [now elim Hid | exact Hin].
      * intros c0 Hc0. apply Hkey. now apply list_elem_of_further.
      * intros c0 Hc0. apply Hfresh. now apply list_elem_of_further.
Qed.

Lemma old_token_gone old newToken companyId db :
  old <> newToken ->
  (forall c, c ∈ db -> Companies.verification_token c = Some old ->
             Companies.id c = companyId) ->
  Companies.select_by_token old
    (Companies.patch_by_id companyId (Notions.with_token newToken) db) = [].
Proof.
  intros Hne. unfold Companies.select_by_token, Companies.patch_by_id.
  induction db as [|c db IH]; intros Hkey; [reflexivity|].
  cbn [map List.filter].
  rewrite IH by (intros c0 Hc0; apply Hkey; now apply list_elem_of_further).
  destruct (bool_decide (Companies.id c = companyId)) eqn:Hid.
  - cbn [Notions.with_token Companies.verification_token].
    rewrite bool_decide_eq_false_2 by congruence. reflexivity.
  - apply bool_decide_eq_false in Hid.
    rewrite bool_decide_eq_false_2; [reflexivity|].
    intros Hold. apply Hid, Hkey; [apply list_elem_of_here | exact Hold].
Qed.
End ResendWrites.

(** X8. resend-verification.js changes its state only when it answers
    that the email was sent.  With any other reply (wrong method, bad
    body or address, unknown or verified account, 429, 500) the table and
    the limiter's store are as before, so a refused request is not counted
    as an attempt.  When it does write, every row keeps its id, email,
    names, creation time, verified flag and status; a row it changes holds
    the new token. *)
Theorem resend_counts_only_sent_emails
    (URL : string) (up : Companies.upstream) (d : ResendVerification.draws)
    (httpMethod : string) (parsed : option jsval)
    (db : list Companies.company) (st : ResendVerification.attempts_store) :
  let out := ResendVerification.handler URL up d httpMethod parsed db st in
  (out.1.1 <> Spec.resend_sent URL d -> out.1.2 = db /\ out.2 = st)
  /\ Forall2
       (fun c c' =>
          Notions.same_account c c'
          /\ Companies.email_verified c' = Companies.email_verified c
          /\ Companies.account_status c' = Companies.account_status c
          /\ (c' = c
              \/ Companies.verification_token c'
                 = Some (ResendVerification.newVerificationToken d)))
       db out.1.2.
Proof.
  cbv zeta.
  assert (forall c : Companies.company,
            Notions.same_account c c
            /\ Companies.email_verified c = Companies.email_verified c
            /\ Companies.account_status c = Companies.account_status c
            /\ (c = c
                \/ Companies.verification_token c
                   = Some (ResendVerification.newVerificationToken d))) as Hsame
    by (intros c; split; [repeat split|]; split; [reflexivity|];
        split; [reflexivity | now left]).
  unfold ResendVerification.handler.
  destruct (bool_decide (httpMethod = "OPTIONS")); cbn [fst snd];
    [split; [intros _; split; reflexivity | now apply rows_untouched]|].
  destruct (negb (bool_decide (httpMethod = "POST"))); cbn [fst snd];
    [split; [intros _; split; reflexivity | now apply rows_untouched]|].
  destruct (parsed ≫= _) as [[| | | |e| |]|]; cbn [fst snd];
    try (split; [intros _; split; reflexivity | now apply rows_untouched]).
  destruct (bool_decide (e = "")); cbn [fst snd];
    [split; [intros _; split; reflexivity | now apply rows_untouched]|].
  destruct (negb _ || _); cbn [fst snd];
    [split; [intros _; split; reflexivity | now apply rows_untouched]|].
  destruct (ResendVerification.findCompanyByEmail _ _ _) as [[company|]|];
    cbn [fst snd];
    try (split; [intros _; split; reflexivity | now apply rows_untouched]).
  destruct (Companies.email_verified company); cbn [fst snd];
    [split; [intros _; split; reflexivity | now apply rows_untouched]|].
  destruct (negb (ResendVerification.allowed _)); cbn [fst snd];
    [split; [intros _; split; reflexivity | now apply rows_untouched]|].
  pose proof (token_update_rowwise up (Companies.id company)
                (ResendVerification.newVerificationToken d) db) as Hrows.
  unfold ResendVerification.updateVerificationToken in *.
  destruct (Companies.update_ok up); cbn [negb fst snd] in *.
  - split; [intros H; now elim H|].
    eapply Forall2_impl; [exact Hrows|]. cbv beta.
    intros c c' (Hacc & Hv & Hs & [-> | [_ Htok]]);
      (split; [exact Hacc|]; split; [exact Hv|]; split; [exact Hs|]);
      [now left | now right].
  - split; [intros _; split; reflexivity | now apply rows_untouched].
Qed.

(** X9. A resent token inherits the age of the account.  After a resend
    that answered "sent" for an unverified account, where ids are unique
    and the new token is well formed and not yet in the table, presenting
    the new token verifies the account exactly when the account was
    created at most 24 hours before (or its creation time does not parse);
    later the new token is refused as expired at once.  The token the
    account held before no longer finds any row: it is answered 404. *)
Theorem resend_then_verify
    (URL : string) (Date_parse : string -> timeval)
    (up1 up2 : Companies.upstream) (d : ResendVerification.draws)
    (raw : string) (db : list Companies.company)
    (st : ResendVerification.attempts_store)
    (company : Companies.company) (now : Z) :
  let newToken := ResendVerification.newVerificationToken d in
  let sent := ResendVerification.handler URL up1 d "POST"
                (Spec.email_request raw) db st in
  head (Companies.select_by_email (Spec.clean_email raw) db) = Some company ->
  Companies.email_verified company = false ->
  (forall c, c ∈ db -> Companies.id c = Companies.id company -> c = company) ->
  (forall c, c ∈ db -> Companies.verification_token c <> Some newToken) ->
  Notions.well_formed_token newToken = true ->
  Companies.query_ok up2 = true ->
  Companies.update_ok up2 = true ->
  sent.1.1 = Spec.resend_sent URL d ->
  let verify t := VerifyEmail.handler Date_parse up2 now "POST"
                    (Spec.token_request t) sent.1.2 in
  (statusCode (verify newToken).1 = 200 <->
     forall t0, Date_parse (Companies.created_at company) = Some t0 ->
                now - t0 <= Spec.day_ms)
  /\ (statusCode (verify newToken).1 <> 200 ->
      verify newToken = (Notions.token_expired, sent.1.2))
  /\ (forall old,
        Companies.verification_token company = Some old ->
        Notions.well_formed_token old = true ->
        (forall c, c ∈ db -> Companies.verification_token c = Some old ->
                   Companies.id c = Companies.id company) ->
        verify old = (Spec.token_not_found, sent.1.2)).
Proof.
  intros newToken sent Hfound Hpending Hkey Hfresh Hw Hq Hu Hsent verify.
  assert (statusCode sent.1.1 = 200) as H200 by (rewrite Hsent; reflexivity).
  destruct (resend_ok_valid URL up1 d raw db st H200) as [Hre Hlen].
  assert (sent.1.2
          = Companies.patch_by_id (Companies.id company) (Notions.with_token newToken) db)
    as Hdb.
  { revert Hsent. unfold sent.
    rewrite (handler_pending URL (Spec.clean_email raw) up1 d raw db st company
               eq_refl Hre Hlen Hfound Hpending).
    unfold ResendVerification.updateVerificationToken.
    destruct (Companies.query_ok up1); [|intros [= ?]].
    cbv zeta. destruct (ResendVerification.allowed _); [|intros [= ?]].
    destruct (Companies.update_ok up1); [|intros [= ?]].
    intros _. reflexivity. }
  apply head_filter in Hfound as [Hin _].
  unfold verify. rewrite Hdb.
  pose proof (fresh_token_holder newToken db company Hin Hkey Hfresh) as Hhead.
  rewrite (verify_pending Date_parse up2 now newToken _ _ Hw Hhead Hpending Hq Hu).
  cbn [Notions.with_token Companies.created_at Companies.id].
  destruct (age_verdict (Date_parse (Companies.created_at company)) now
              (Notions.with_token newToken company)
              (Companies.patch_by_id (Companies.id company)
                 (Notions.with_token newToken) db)
              (VerifyEmail.updateCompanyVerification up2 (Companies.id company)
                 (Companies.patch_by_id (Companies.id company)
                    (Notions.with_token newToken) db)).2)
    as [Hiff Hexp].
  split; [exact Hiff|]. split; [exact Hexp|].
  intros old Hold Hwold Huniq. apply verify_unknown; [exact Hwold | | exact Hq].
  apply old_token_gone; [|exact Huniq].
  intros ->. apply (Hfresh company Hin Hold).
Qed.

Lemma resend_then_verify_witness :
  statusCode
    (VerifyEmail.handler Sample.epoch_date Sample.all_ok 5 "POST"
       (Spec.token_request "ZYXWVUTSRQPONMLKJIHGFEDCBA987654")
       (ResendVerification.handler Sample.site Sample.all_ok (Sample.draws_at 0)
          "POST" (Spec.email_request "Owner@Example.com ")
          [Sample.pending_company] ∅).1.2).1
  = 200.
Proof.
  refine (proj2 (proj1 (resend_then_verify Sample.site Sample.epoch_date
                          Sample.all_ok Sample.all_ok (Sample.draws_at 0)
                          "Owner@Example.com " [Sample.pending_company] ∅
                          Sample.pending_company 5 _ _ _ _ _ _ _ _)) _).
  - vm_compute. reflexivity.
  - reflexivity.
  - intros c Hc _. apply elem_of_cons in Hc as [-> | Hc];
      [reflexivity | now apply elem_of_nil in Hc].
  - intros c Hc. apply elem_of_cons in Hc as [-> | Hc];
      [discriminate | now apply elem_of_nil in Hc].
  - vm_compute. reflexivity.
  - reflexivity.
  - reflexivity.
  - vm_compute. reflexivity.
  - intros t0 [= <-]. vm_compute. discriminate.
Defined.


Section Listing.
Variable Date_parse : string -> timeval.
Variable String_toNumber : string -> jsnum.
Variable Object_toString : jsval -> string.
Variable jwt_verify : string -> string -> option jsobj.
Variable JWT_SECRET : option string.

(** A caller [authenticate] lets through has an active subscription. *)
Lemma authenticated_is_subscribed fallback now headers user :
  SecureLeadsDemo.authenticate String_toNumber Object_toString jwt_verify
    JWT_SECRET fallback now headers = SecureLeadsDemo.AuthSuccess user ->
  Spec.subscribed user = true.
Proof.
  unfold SecureLeadsDemo.authenticate.
  destruct (negb (truthy _)); [discriminate|].
  destruct (or_else _ _); try discriminate.
  destruct (negb (startsWith _ _)); [discriminate|].
  destruct (jwt_verify _ _) as [decoded|]; [|discriminate].
  destruct (lt_number _ _ _ _); [discriminate|].
  destruct (strict_eq_str (get decoded "subscriptionStatus") "active") eqn:Hs;
    cbn [negb]; [|discriminate].
  intros [= <-]. unfold Spec.subscribed, get. read_prop. exact Hs.
Qed.

End Listing.

Section ListingPages.
Lemma filter_if_spec field q leads lead :
  lead ∈ SecureLeadsDemo.filter_if field q leads <->
  lead ∈ leads /\ (forall v, q = Some v -> v <> "" -> get lead field = VStr v).
Proof.
  unfold SecureLeadsDemo.filter_if. destruct q as [v|].
  - case_bool_decide as Hv.
    + split; [intros H; split; [exact H | intros ? [= <-] ?; contradiction] | tauto].
    + rewrite list_elem_of_In, List.filter_In, <- list_elem_of_In.
      unfold strict_eq_str. split.
      * intros [Hin Heq]. split; [exact Hin|]. intros ? [= <-] _.
        destruct (get lead field); try discriminate.
        apply bool_decide_eq_true in Heq. now subst.
      * intros [Hin Heq]. split; [exact Hin|].
        rewrite (Heq v eq_refl Hv). now apply bool_decide_eq_true_2.
  - split; [intros H; split; [exact H | discriminate] | tauto].
Qed.

Lemma filtered_spec q leads lead :
  lead ∈ SecureLeadsDemo.filtered q leads <-> lead ∈ leads /\ Notions.passes q lead.
Proof.
  unfold SecureLeadsDemo.filtered, Notions.passes.
  rewrite !filter_if_spec. split.
  - intros [[[Hin Ht] Hp] Hz]. split; [exact Hin|].
    intros k v Hk. repeat (apply elem_of_cons in Hk as [-> | Hk]); auto.
    now apply elem_of_nil in Hk.
  - intros [Hin Hall].
    repeat split; try exact Hin; intros v; apply Hall;
      repeat first [apply list_elem_of_here | apply list_elem_of_further].
Qed.

Lemma slice_sublist {A} (l : list A) start stop x :
  x ∈ slice l start stop -> x ∈ l.
Proof.
  unfold slice. intros H.
  eapply elem_of_sublist; [|apply sublist_drop].
  eapply elem_of_sublist; [exact H | apply sublist_take].
Qed.

(** For an offset that is not negative and a positive limit the page is
    the next [limit] elements after the first [offset]. *)
Lemma slice_page {A} (l : list A) offset limit :
  0 <= offset -> 0 < limit ->
  slice l offset (offset + limit)
    = take (Z.to_nat limit) (drop (Z.to_nat offset) l).
Proof.
  intros Ho Hl. unfold slice, slice_pos.
  destruct (Z.ltb_spec offset 0); [lia|].
  destruct (Z.ltb_spec (offset + limit) 0); [lia|].
  set (len := Z.of_nat (length l)).
  destruct (Z.le_gt_cases len offset) as [Hout | Hin].
  - rewrite !drop_ge by lia. now rewrite !take_nil.
  - rewrite (Z.min_l offset len) by lia.
    destruct (Z.le_gt_cases (offset + limit) len).
    + rewrite Z.min_l by lia. f_equal. lia.
    + rewrite Z.min_r by lia.
      rewrite !take_ge; [reflexivity | |]; rewrite length_drop; lia.
Qed.
End ListingPages.


(** X10. The demo listing endpoint serves leads to active subscribers
    only, so in a listing the placeholders stand for one thing: every
    record of a reply that carries leads is the projection of a lead of
    the table that passes the filters of the query, and it shows the five
    raw contact fields unless the lead has an exclusive buyer, in which
    case it shows the five placeholders. *)
Theorem listing_shows_contacts_unless_bought
    (Date_parse : string -> timeval) (String_toNumber : string -> jsnum)
    (Object_toString : jsval -> string)
    (jwt_verify : string -> string -> option jsobj) (JWT_SECRET : option string)
    (leads : list jsobj) (now : Z) (ev : SecureLeadsDemo.event)
    (data : list jsobj) (meta : SecureLeadsDemo.page_meta) :
  SecureLeadsDemo.body
    (SecureLeadsDemo.handler_on Date_parse String_toNumber Object_toString
       jwt_verify JWT_SECRET leads now ev)
    = SecureLeadsDemo.BodyLeads data meta ->
  exists user,
    SecureLeadsDemo.authenticateRequest String_toNumber Object_toString
      jwt_verify JWT_SECRET now (SecureLeadsDemo.headers ev)
      = SecureLeadsDemo.AuthSuccess user
    /\ Spec.subscribed user = true
    /\ Forall
         (fun out =>
            exists lead,
              lead ∈ leads
              /\ Notions.passes (SecureLeadsDemo.queryStringParameters ev) lead
              /\ out = SecureLeadsDemo.sanitizeLead Date_parse Object_toString
                         now lead user
              /\ Spec.contact_view out
                 = if Spec.has_buyer (get lead "exclusivePurchasedBy")
                   then Spec.placeholders
                   else Notions.raw_contacts lead)
         data.
Proof.
  unfold SecureLeadsDemo.handler_on.
  destruct (bool_decide (SecureLeadsDemo.httpMethod ev = "OPTIONS"));
    [discriminate|].
  destruct (negb (bool_decide (SecureLeadsDemo.httpMethod ev = "GET")));
    [discriminate|].
  destruct (SecureLeadsDemo.authenticateRequest _ _ _ _ _ _) as [e|user] eqn:Hauth;
    [discriminate|].
  cbn [SecureLeadsDemo.body]. intros [= <- _].
  pose proof (authenticated_is_subscribed _ _ _ _ _ _ _ _ Hauth) as Hsub.
  exists user. split; [reflexivity|]. split; [exact Hsub|].
  apply Forall_forall. intros out Hout.
  apply list_elem_of_fmap in Hout as [lead [-> Hlead]].
  apply slice_sublist, filtered_spec in Hlead as [Hin Hpass].
  exists lead. split; [exact Hin|]. split; [exact Hpass|]. split; [reflexivity|].
  rewrite demo_contact_view, Hsub. cbn [andb].
  destruct (Spec.has_buyer _); reflexivity.
Qed.

Lemma listing_shows_contacts_unless_bought_witness :
  exists user,
    SecureLeadsDemo.authenticateRequest Sample.no_number Sample.no_string
      Sample.verifier None 1000
      (SecureLeadsDemo.headers Notions.listing_event)
      = SecureLeadsDemo.AuthSuccess user.
Proof.
  destruct (listing_shows_contacts_unless_bought Sample.no_date Sample.no_number
              Sample.no_string Sample.verifier None SecureLeadsDemo.DEMO_LEADS
              1000 Notions.listing_event
              (Spec.page_of
                 (SecureLeadsDemo.body
                    (SecureLeadsDemo.handler Sample.no_date Sample.no_number
                       Sample.no_string Sample.verifier None 1000
                       Notions.listing_event)))
              (default Notions.no_meta
                 (Spec.meta_of
                    (SecureLeadsDemo.body
                       (SecureLeadsDemo.handler Sample.no_date Sample.no_number
                          Sample.no_string Sample.verifier None 1000
                          Notions.listing_event)))))
    as [user [Hauth _]].
  - vm_compute. reflexivity.
  - exists user. exact Hauth.
Defined.

(** X11. Paging of the demo listing.  For an offset that is not negative
    and a positive limit, the page is the next [limit] leads after the
    first [offset] of those that pass the filters, [total] counts all that
    pass, [count] is the length of the page, and [hasMore] is true exactly
    when leads remain after this page; a page with [hasMore] is full. *)
Theorem listing_hasMore_is_truthful
    (Date_parse : string -> timeval) (String_toNumber : string -> jsnum)
    (Object_toString : jsval -> string)
    (jwt_verify : string -> string -> option jsobj) (JWT_SECRET : option string)
    (leads : list jsobj) (now : Z) (ev : SecureLeadsDemo.event)
    (data : list jsobj) (meta : SecureLeadsDemo.page_meta) :
  SecureLeadsDemo.body
    (SecureLeadsDemo.handler_on Date_parse String_toNumber Object_toString
       jwt_verify JWT_SECRET leads now ev)
    = SecureLeadsDemo.BodyLeads data meta ->
  0 <= SecureLeadsDemo.meta_offset meta ->
  0 < SecureLeadsDemo.meta_limit meta ->
  let matching :=
    SecureLeadsDemo.filtered (SecureLeadsDemo.queryStringParameters ev) leads in
  let offset := Z.to_nat (SecureLeadsDemo.meta_offset meta) in
  let limit := Z.to_nat (SecureLeadsDemo.meta_limit meta) in
  (exists user,
     data = map (fun lead =>
                   SecureLeadsDemo.sanitizeLead Date_parse Object_toString
                     now lead user)
                (take limit (drop offset matching)))
  /\ SecureLeadsDemo.meta_total meta = Z.of_nat (length matching)
  /\ SecureLeadsDemo.meta_count meta = Z.of_nat (length data)
  /\ (SecureLeadsDemo.meta_hasMore meta = true <->
        drop (offset + limit) matching <> [])
  /\ (SecureLeadsDemo.meta_hasMore meta = true -> length data = limit).
Proof.
  intros Hbody Hoff Hlim matching offset limit.
  revert Hbody Hoff Hlim offset limit. unfold SecureLeadsDemo.handler_on.
  destruct (bool_decide (SecureLeadsDemo.httpMethod ev = "OPTIONS"));
    [discriminate|].
  destruct (negb (bool_decide (SecureLeadsDemo.httpMethod ev = "GET")));
    [discriminate|].
  destruct (SecureLeadsDemo.authenticateRequest _ _ _ _ _ _) as [e|user];
    [discriminate|].
  cbn [SecureLeadsDemo.body]. intros [= <- <-].
  cbn [SecureLeadsDemo.meta_offset SecureLeadsDemo.meta_limit
       SecureLeadsDemo.meta_total SecureLeadsDemo.meta_count
       SecureLeadsDemo.meta_hasMore].
  intros Hoff Hlim.
  set (offset := Z.to_nat (SecureLeadsDemo.offsetNum
                             (SecureLeadsDemo.queryStringParameters ev))).
  set (limit := Z.to_nat (SecureLeadsDemo.limitNum
                            (SecureLeadsDemo.queryStringParameters ev))).
  unfold SecureLeadsDemo.paginate. fold matching.
  rewrite (slice_page matching _ _ Hoff Hlim). fold offset limit.
  assert (length (drop (offset + limit) matching)
          = (length matching - (offset + limit))%nat) as Hrest
    by apply length_drop.
  split; [exists user; reflexivity|]. split; [reflexivity|].
  split; [reflexivity|].
  rewrite length_map, length_take, length_drop.
  split; [|intros Hmore; apply Z.ltb_lt in Hmore; lia].
  rewrite Z.ltb_lt. split.
  - intros Hmore Hnil. rewrite Hnil in Hrest. cbn [length] in Hrest. lia.
  - intros Hne. destruct (drop (offset + limit) matching) eqn:Hd;
      [congruence|]. cbn [length] in Hrest. lia.
Qed.

Lemma listing_hasMore_is_truthful_witness :
  SecureLeadsDemo.meta_total
    (default Notions.no_meta
       (Spec.meta_of
          (SecureLeadsDemo.body
             (SecureLeadsDemo.handler Sample.no_date Sample.no_number
                Sample.no_string Sample.verifier None 1000
                Notions.listing_event))))
  = 3.
Proof.
  destruct (listing_hasMore_is_truthful Sample.no_date Sample.no_number
              Sample.no_string Sample.verifier None SecureLeadsDemo.DEMO_LEADS
              1000 Notions.listing_event
              (Spec.page_of
                 (SecureLeadsDemo.body
                    (SecureLeadsDemo.handler Sample.no_date Sample.no_number
                       Sample.no_string Sample.verifier None 1000
                       Notions.listing_event)))
              (default Notions.no_meta
                 (Spec.meta_of
                    (SecureLeadsDemo.body
                       (SecureLeadsDemo.handler Sample.no_date Sample.no_number
                          Sample.no_string Sample.verifier None 1000
                          Notions.listing_event)))))
    as (_ & Htotal & _).
  - vm_compute. reflexivity.
  - vm_compute. discriminate.
  - vm_compute. reflexivity.
  - rewrite Htotal. vm_compute. reflexivity.
Defined.


Section PhotoUrls.

Lemma chars_append s1 s2 : chars (s1 +:+ s2) = chars s1 ++ chars s2.
Proof.
  unfold chars. induction s1 as [|c s1 IH]; [reflexivity|].
  change (String.list_ascii_of_string (String c s1 +:+ s2))
    with (c :: String.list_ascii_of_string (s1 +:+ s2)).
  rewrite IH. reflexivity.
Qed.


Lemma chars_of_chars l : chars (of_chars l) = l.
Proof. apply String.list_ascii_of_string_of_list_ascii. Qed.







Lemma list_filter_holds {A} (f : A -> bool) (l : list A) :
  Forall (fun x => f x = true) (List.filter f l).
Proof.
  induction l as [|x l IH]; [constructor|].
  cbn [List.filter]. destruct (f x) eqn:E; [constructor|]; assumption.
Qed.
End PhotoUrls.




Section AcceptedLead.
Variable remove_matches : string -> string -> string -> string.

Lemma sanitizeText_bounded v maxLength :
  0 <= maxLength ->
  strlen (ValidateLeadData.sanitizeText remove_matches v maxLength) <= maxLength.
Proof.
  intros Hmax. unfold ValidateLeadData.sanitizeText.
  destruct v; try (unfold strlen; simpl; lia). cbv zeta.
  destruct (maxLength <? strlen _) eqn:Hlong; [|lia].
  unfold substring_to. rewrite strlen_of_chars, length_take. lia.
Qed.

Lemma drop_space_keeps (P : ascii -> Prop) l :
  Forall P l -> Forall P (drop_space l).
Proof.
  induction 1 as [|c l Hc Hl IH]; [constructor|]. cbn [drop_space].
  destruct (is_space c); [exact IH | now constructor].
Qed.

Lemma trim_keeps (P : ascii -> Prop) s :
  Forall P (chars s) -> Forall P (chars (trim s)).
Proof.
  intros H. unfold trim. rewrite chars_of_chars.
  assert (forall l : list ascii, Forall P l -> Forall P (rev l)) as Hrev.
  { intros l Hl. apply Forall_forall. intros x Hx.
    apply list_elem_of_In, in_rev, list_elem_of_In in Hx.
    exact (proj1 (Forall_forall _ _) Hl x Hx). }
  apply Hrev, drop_space_keeps, Hrev, drop_space_keeps, H.
Qed.

(** What each kind of check stores when it reports nothing. *)
Lemma text_accepts field maxLength minLength required tooShort input st :
  0 <= maxLength ->
  (if ValidateLeadData.missing (get input field) then [required]
   else if strlen (ValidateLeadData.sanitizeText remove_matches
                     (get input field) maxLength) <? minLength
        then [tooShort] else []) = [] ->
  exists s,
    ValidateLeadData.data
      (ValidateLeadData.validate_text remove_matches field maxLength minLength
         required tooShort input st)
      = <[field := VStr s]> (ValidateLeadData.data st)
    /\ minLength <= strlen s <= maxLength.
Proof.
  intros Hmax. unfold ValidateLeadData.validate_text.
  destruct (ValidateLeadData.missing (get input field)); [discriminate|].
  pose proof (sanitizeText_bounded (get input field) maxLength Hmax) as Hle.
  destruct (Z.ltb_spec (strlen (ValidateLeadData.sanitizeText remove_matches
                                  (get input field) maxLength)) minLength);
    [discriminate|].
  intros _. eexists. split; [reflexivity | lia].
Qed.

Lemma email_accepts input st :
  (if ValidateLeadData.missing (get input "email") then ["Email is required"]
   else match get input "email" with
        | VStr s =>
            if ValidateLeadData.isValidEmail (toLowerCase (trim s))
            then [] else ["Invalid email format"]
        | _ => []
        end) = [] ->
  exists e,
    ValidateLeadData.data (ValidateLeadData.validate_email input st)
      = <["email" := VStr e]> (ValidateLeadData.data st)
    /\ test emailRegex e = true /\ strlen e <= 254.
Proof.
  rewrite missing_spec. unfold ValidateLeadData.validate_email.
  destruct (get input "email") as [| | | |s| |]; try discriminate.
  case_bool_decide; [discriminate|].
  destruct (ValidateLeadData.isValidEmail _) eqn:Hvalid; [|discriminate].
  intros _. cbn [negb]. eexists. split; [reflexivity|].
  unfold ValidateLeadData.isValidEmail in Hvalid.
  apply andb_true_iff in Hvalid as [Hre Hlen]. split; [exact Hre | lia].
Qed.

Lemma phone_accepts input st :
  (if ValidateLeadData.missing (get input "phone")
   then ["Phone number is required"]
   else if bool_decide (ValidateLeadData.sanitizePhone (get input "phone") = "")
        then ["Invalid phone number format"] else []) = [] ->
  exists p,
    ValidateLeadData.data (ValidateLeadData.validate_phone input st)
      = <["phone" := VStr p]> (ValidateLeadData.data st)
    /\ 10 <= strlen p <= 20
    /\ Forall (fun c => ValidateLeadData.phone_char c = true) (chars p).
Proof.
  unfold ValidateLeadData.validate_phone.
  destruct (ValidateLeadData.missing (get input "phone")); [discriminate|].
  case_bool_decide as Hp; [discriminate|]. intros _.
  eexists. split; [reflexivity|].
  revert Hp. unfold ValidateLeadData.sanitizePhone.
  destruct (get input "phone") as [| | | |s| |]; try congruence.
  destruct (_ && _) eqn:Hlen; [|congruence]. intros _.
  apply andb_true_iff in Hlen as [Hlo Hhi]. split; [lia|].
  apply trim_keeps. rewrite chars_of_chars. apply list_filter_holds.
Qed.

Lemma enum_accepts field allowedValues msg input st :
  (if negb (truthy (get input field))
      || negb (ValidateLeadData.includes allowedValues (get input field))
   then [msg] else []) = [] ->
  exists t,
    ValidateLeadData.data
      (ValidateLeadData.validate_enum field allowedValues msg input st)
      = <[field := VStr t]> (ValidateLeadData.data st)
    /\ t ∈ allowedValues.
Proof.
  unfold ValidateLeadData.validate_enum.
  destruct (negb (truthy _) || negb _) eqn:Hbad; [discriminate|]. intros _.
  apply orb_false_iff in Hbad as [_ Hin]. apply negb_false_iff in Hin.
  unfold ValidateLeadData.includes in Hin.
  destruct (get input field) as [| | | |t| |]; try discriminate.
  apply bool_decide_eq_true in Hin. exists t. split; [reflexivity | exact Hin].
Qed.

Lemma photo_data input st :
  exists p,
    ValidateLeadData.data (ValidateLeadData.validate_photoUrls input st)
      = <["photoUrls" := VStr p]> (ValidateLeadData.data st).
Proof.
  unfold ValidateLeadData.validate_photoUrls, ValidateLeadData.set.
  cbn [ValidateLeadData.data].
  destruct (get input "photo-urls") as [| | | |s| |]; eauto.
  case_bool_decide; cbn [ValidateLeadData.data]; [eauto|].
  eexists. apply insert_insert_eq.
Qed.
End AcceptedLead.

(** X13. What validateLeadData lets through fits the columns.  When it
    reports no error, the sanitized record holds first and last name of
    1 to 50 characters, address of 10 to 200 and details of 10 to 2000,
    whatever the tag patterns removed; an email that matches the address
    pattern and has at most 254 characters; a phone of 10 to 20 characters
    out of digits, plus, minus, parentheses and space; and a property type
    and a timeline from the two lists. *)
Theorem accepted_lead_fits_columns
    (remove_matches : string -> string -> string -> string) (input : jsobj) :
  ValidateLeadData.errors (ValidateLeadData.validateLeadData remove_matches input)
    = [] ->
  let d := ValidateLeadData.data
             (ValidateLeadData.validateLeadData remove_matches input) in
  Forall (fun column =>
            exists s, d !! column.1 = Some (VStr s)
                      /\ column.2.1 <= strlen s <= column.2.2)
         Notions.text_columns
  /\ (exists e, d !! "email" = Some (VStr e)
                /\ test emailRegex e = true /\ strlen e <= 254)
  /\ (exists p, d !! "phone" = Some (VStr p)
                /\ 10 <= strlen p <= 20
                /\ Forall (fun c => ValidateLeadData.phone_char c = true) (chars p))
  /\ (exists t, d !! "propertyType" = Some (VStr t)
                /\ t ∈ ValidateLeadData.validPropertyTypes)
  /\ (exists t, d !! "timeline" = Some (VStr t)
                /\ t ∈ ValidateLeadData.validTimelines).
Proof.
  intros Herr d. revert Herr. unfold d. clear d.
  unfold ValidateLeadData.validateLeadData,
    ValidateLeadData.validate_firstName, ValidateLeadData.validate_lastName,
    ValidateLeadData.validate_address, ValidateLeadData.validate_details,
    ValidateLeadData.validate_propertyType, ValidateLeadData.validate_timeline.
  rewrite photo_errors, text_errors, !enum_errors, text_errors, phone_errors,
    email_errors, !text_errors.
  cbn [ValidateLeadData.errors app].
  intros Herr.
  repeat (apply app_eq_nil in Herr as [Herr ?Hfield]).
  match goal with
  | |- context [ValidateLeadData.validate_photoUrls input ?st] =>
      destruct (photo_data input st) as [photos ->]
  end.
  edestruct text_accepts as [details [-> Hdetails]];
    [| exact Hfield |]; [lia|].
  edestruct enum_accepts as [timeline [-> Htimeline]]; [exact Hfield0|].
  edestruct enum_accepts as [propertyType [-> HpropertyType]]; [exact Hfield1|].
  edestruct text_accepts as [address [-> Haddress]];
    [| exact Hfield2 |]; [lia|].
  edestruct phone_accepts as [phone [-> Hphone]]; [exact Hfield3|].
  edestruct email_accepts as [email [-> Hemail]]; [exact Hfield4|].
  edestruct text_accepts as [lastName [-> HlastName]];
    [| exact Hfield5 |]; [lia|].
  edestruct text_accepts as [firstName [-> HfirstName]];
    [| exact Herr |]; [lia|].
  cbn [ValidateLeadData.data].
  split; [|split; [|split; [|split]]].
  - unfold Notions.text_columns.
    each_rule; cbn [fst snd]; eexists; (split; [read_prop; reflexivity | assumption]).
  - exists email. split; [read_prop; reflexivity | exact Hemail].
  - exists phone. split; [read_prop; reflexivity | exact Hphone].
  - exists propertyType. split; [read_prop; reflexivity | exact HpropertyType].
  - exists timeline. split; [read_prop; reflexivity | exact Htimeline].
Qed.

Lemma accepted_lead_fits_columns_witness :
  exists e,
    ValidateLeadData.data
      (ValidateLeadData.validateLeadData Sample.no_matches Notions.valid_lead)
      !! "email" = Some (VStr e)
    /\ test emailRegex e = true /\ strlen e <= 254.
Proof.
  refine (proj1 (proj2 (accepted_lead_fits_columns Sample.no_matches
                          Notions.valid_lead _))).
  vm_compute. reflexivity.
Defined.


Section TokenGenerator.

Lemma characters_alnum n :
  (n < 62)%nat ->
  exists c, chars ResendVerification.characters !! n = Some c
            /\ VerifyEmail.is_alnum c = true.
Proof.
  intros Hn.
  assert (forallb VerifyEmail.is_alnum (chars ResendVerification.characters)
          = true) as Hall by (vm_compute; reflexivity).
  destruct (lookup_lt_is_Some_2 (chars ResendVerification.characters) n)
    as [c Hc]; [exact Hn|].
  exists c. split; [exact Hc|].
  apply (proj1 (forallb_forall _ _) Hall).
  apply list_elem_of_In. exact (list_elem_of_lookup_2 _ _ _ Hc).
Qed.

Lemma generated_chars pick (rounds : list nat) result :
  (forall i, i ∈ rounds -> (pick i < 62)%nat) ->
  exists cs,
    chars (foldl (fun result i =>
                    result +:+ charAt ResendVerification.characters (pick i))
                 result rounds)
      = chars result ++ cs
    /\ length cs = length rounds
    /\ Forall (fun c => VerifyEmail.is_alnum c = true) cs.
Proof.
  revert result. induction rounds as [|i rounds IH]; intros result Hpick.
  - exists []. rewrite app_nil_r. repeat split. constructor.
  - cbn [foldl].
    destruct (characters_alnum (pick i)) as [c [Hc Halnum]];
      [apply Hpick, list_elem_of_here|].
    destruct (IH (result +:+ charAt ResendVerification.characters (pick i)))
      as [cs [Hcs [Hlen Hall]]];
      [intros j Hj; apply Hpick; now apply list_elem_of_further|].
    exists (c :: cs). rewrite Hcs. unfold charAt. rewrite Hc, chars_append.
    rewrite <- app_assoc. cbn [length].
    split; [reflexivity|]. split; [now rewrite Hlen | now constructor].
Qed.
End TokenGenerator.

(** X14. The tokens the handlers generate pass the format gate of
    verify-email.js.  Whatever positions the 32 rounds draw inside the
    62-character alphabet, generateVerificationToken returns 32
    characters, all letters or digits, which verify-email.js accepts as
    well formed. *)
Theorem generated_token_is_well_formed (pick : nat -> nat) :
  (forall i, (i < 32)%nat -> (pick i < 62)%nat) ->
  strlen (ResendVerification.generateVerificationToken pick) = 32
  /\ Notions.well_formed_token (ResendVerification.generateVerificationToken pick)
     = true.
Proof.
  intros Hpick. unfold ResendVerification.generateVerificationToken.
  destruct (generated_chars pick (List.seq 0 32) "") as [cs [Hcs [Hlen Hall]]].
  { intros i Hi. apply Hpick.
    apply list_elem_of_In, in_seq in Hi. lia. }
  change (chars "" ++ cs) with cs in Hcs.
  rewrite length_seq in Hlen.
  set (token := foldl _ _ _) in *. clearbody token.
  assert (strlen token = 32) as H32
    by (rewrite strlen_chars, Hcs, Hlen; reflexivity).
  split; [exact H32|].
  unfold Notions.well_formed_token. rewrite H32, Hcs.
  apply andb_true_iff. split; [|reflexivity].
  apply forallb_forall. intros c Hc.
  exact (proj1 (Forall_forall _ _) Hall c (proj2 (list_elem_of_In _ _) Hc)).
Qed.

Lemma generated_token_is_well_formed_witness :
  strlen (ResendVerification.generateVerificationToken (fun i => i)) = 32
  /\ Notions.well_formed_token
       (ResendVerification.generateVerificationToken (fun i => i)) = true.
Proof.
  apply (generated_token_is_well_formed (fun i => i)). intros i Hi. lia.
Defined.


Section TokenEndpoints.
Variable String_toNumber : string -> jsnum.
Variable Object_toString : jsval -> string.
Variable jwt_verify : string -> string -> option jsobj.
Variable JWT_SECRET : option string.

Lemma claims_read decoded :
  Notions.token_is_valid (Spec.claims_of decoded) = Notions.token_is_valid decoded.
Proof.
  unfold Notions.token_is_valid, Spec.claims_of, get.
  repeat f_equal; read_prop; reflexivity.
Qed.

(** auth-verify.js past its method check, for a token that is a
    non-empty string. *)
Lemma verify_cascade now headers parsed token :
  AuthVerify.jwtToken_of (get headers "authorization")
    <$> (parsed ≫= (fun requestData => prop requestData "token"))
    = Some (Some (VStr token)) ->
  token <> "" ->
  AuthVerify.handler String_toNumber Object_toString jwt_verify JWT_SECRET
      now "POST" headers parsed =
    match jwt_verify token
            (str_or JWT_SECRET "your-super-secret-jwt-key-change-this-in-production")
    with
    | None => AuthVerify.invalid_token
    | Some decoded =>
        if Spec.exp_passed String_toNumber Object_toString now decoded
        then {| statusCode := 401; body := error_body "Token expired" |}
        else Notions.token_is_valid decoded
    end.
Proof.
  intros Htoken Hne. unfold AuthVerify.handler.
  rewrite (bool_decide_eq_true_2 ("POST" = "POST")) by reflexivity. cbn [negb].
  destruct (parsed ≫= _) as [t|]; [|discriminate].
  cbn [fmap option_fmap option_map] in Htoken.
  injection Htoken as Htoken. rewrite Htoken.
  cbn [truthy]. rewrite (bool_decide_eq_false_2 (token = "")) by exact Hne.
  cbn [negb]. reflexivity.
Qed.
End TokenEndpoints.

(** X15. auth-verify.js and the listing endpoint judge a bearer token
    alike, but for the subscription.  For a request whose authorization
    header is Bearer followed by a non-empty token and whose body parses to
    an object: when authenticateRequest of the listing endpoint succeeds,
    auth-verify.js answers 200 with the same four claims; when it fails
    for the subscription only, auth-verify.js still answers 200; and when
    it fails as invalid or expired, auth-verify.js answers 401 with the
    same message. *)
Theorem auth_verify_agrees_with_listing
    (String_toNumber : string -> jsnum) (Object_toString : jsval -> string)
    (jwt_verify : string -> string -> option jsobj) (JWT_SECRET : option string)
    (now : Z) (headers : jsobj) (token : string)
    (props : list (string * jsval)) :
  get headers "authorization" = VStr ("Bearer " +:+ token) ->
  token <> "" ->
  let reply := AuthVerify.handler String_toNumber Object_toString jwt_verify
                 JWT_SECRET now "POST" headers (Some (VObj props)) in
  match SecureLeads.authenticateRequest String_toNumber Object_toString
          jwt_verify JWT_SECRET now headers with
  | SecureLeadsDemo.AuthSuccess user => reply = Notions.token_is_valid user
  | SecureLeadsDemo.AuthFailure e =>
      if bool_decide (e = "Active subscription required")
      then statusCode reply = 200
      else reply = {| statusCode := 401; body := error_body e |}
  end.
Proof.
  intros Hheader Hne reply. unfold reply. clear reply.
  rewrite (verify_cascade String_toNumber Object_toString jwt_verify JWT_SECRET
             now headers (Some (VObj props)) token);
    [| | exact Hne].
  - unfold SecureLeads.authenticateRequest.
    rewrite (authenticate_bearer String_toNumber Object_toString jwt_verify
               JWT_SECRET _ now headers token)
      by (unfold or_else; rewrite Hheader, bearer_header_truthy; reflexivity).
    unfold str_or, SecureLeadsDemo.secret_or.
    destruct (jwt_verify token _) as [decoded|]; [|reflexivity].
    destruct (Spec.exp_passed _ _ _ _); [reflexivity|].
    destruct (Spec.subscribed decoded); cbn [negb]; [|reflexivity].
    symmetry. apply claims_read.
  - cbn [mbind option_bind prop fmap option_fmap option_map].
    rewrite Hheader. cbn [AuthVerify.jwtToken_of].
    change (startsWith ("Bearer " +:+ token) "Bearer ") with true. cbv iota.
    rewrite bearer_token. reflexivity.
Qed.

Lemma auth_verify_agrees_with_listing_witness :
  AuthVerify.handler Sample.no_number Sample.no_string Sample.verifier None
    1000 "POST" (Notions.bearer "good") (Some (VObj []))
  = Notions.token_is_valid Sample.payload.
Proof.
  pose proof (auth_verify_agrees_with_listing Sample.no_number Sample.no_string
                Sample.verifier None 1000 (Notions.bearer "good") "good" [])
    as H.
  cbv zeta in H.
  replace (SecureLeads.authenticateRequest Sample.no_number Sample.no_string
             Sample.verifier None 1000 (Notions.bearer "good"))
    with (SecureLeadsDemo.AuthSuccess (Spec.claims_of Sample.payload)) in H
    by (vm_compute; reflexivity).
  rewrite H; [| vm_compute; reflexivity | discriminate].
  vm_compute. reflexivity.
Defined.

(** X16. Where auth-verify.js takes the token from.  Without an
    authorization header a token sent as the body's [token] is judged
    exactly as the same token sent as a Bearer header; with a Bearer header
    the body's [token] is ignored; but a body that does not parse, or
    parses to null, is answered 401 "Invalid token" even with a good
    header. *)
Theorem auth_verify_token_sources
    (String_toNumber : string -> jsnum) (Object_toString : jsval -> string)
    (jwt_verify : string -> string -> option jsobj) (JWT_SECRET : option string)
    (now : Z) (token : string) :
  let verify := AuthVerify.handler String_toNumber Object_toString jwt_verify
                  JWT_SECRET now "POST" in
  token <> "" ->
  verify ∅ (Notions.token_body token) = verify (Notions.bearer token) (Some (VObj []))
  /\ (forall other : jsval,
        verify (Notions.bearer token) (Some (VObj [("token", other)]))
        = verify (Notions.bearer token) (Some (VObj [])))
  /\ (forall headers, verify headers None = AuthVerify.invalid_token
                      /\ verify headers (Some VNull) = AuthVerify.invalid_token).
Proof.
  intros verify Hne. unfold verify. clear verify.
  assert (forall parsed t,
            parsed ≫= (fun requestData => prop requestData "token") = Some t ->
            AuthVerify.jwtToken_of (get (Notions.bearer token) "authorization")
              <$> (parsed ≫= (fun requestData => prop requestData "token"))
            = Some (Some (VStr token))) as Hbearer.
  { intros parsed t ->. cbn [fmap option_fmap option_map].
    unfold Notions.bearer, get. rewrite lookup_insert_eq.
    cbn [default from_option id AuthVerify.jwtToken_of].
    change (startsWith ("Bearer " +:+ token) "Bearer ") with true. cbv iota.
    now rewrite bearer_token. }
  split; [|split].
  - rewrite (verify_cascade String_toNumber Object_toString jwt_verify
               JWT_SECRET now ∅ (Notions.token_body token) token);
      [| | exact Hne].
    + rewrite (verify_cascade String_toNumber Object_toString jwt_verify
                 JWT_SECRET now (Notions.bearer token) (Some (VObj [])) token);
        [reflexivity | eapply Hbearer; reflexivity | exact Hne].
    + cbn [mbind option_bind prop assoc Notions.token_body].
      rewrite (bool_decide_eq_true_2 ("token" = "token")) by reflexivity.
      unfold get. rewrite lookup_empty. reflexivity.
  - intros other.
    rewrite (verify_cascade String_toNumber Object_toString jwt_verify
               JWT_SECRET now (Notions.bearer token)
               (Some (VObj [("token", other)])) token);
      [| eapply Hbearer; reflexivity | exact Hne].
    rewrite (verify_cascade String_toNumber Object_toString jwt_verify
               JWT_SECRET now (Notions.bearer token) (Some (VObj [])) token);
      [reflexivity | eapply Hbearer; reflexivity | exact Hne].
  - intros headers. split; reflexivity.
Qed.

Lemma auth_verify_token_sources_witness :
  AuthVerify.handler Sample.no_number Sample.no_string Sample.verifier None
    1000 "POST" ∅ (Notions.token_body "good")
  = AuthVerify.handler Sample.no_number Sample.no_string Sample.verifier None
      1000 "POST" (Notions.bearer "good") (Some (VObj [])).
Proof.
  apply (auth_verify_token_sources Sample.no_number Sample.no_string
           Sample.verifier None 1000 "good").
  discriminate.
Defined.


Section ConfigEndpoint.
Variable String_toNumber : string -> jsnum.
Variable Object_toString : jsval -> string.
Variable jwt_verify : string -> string -> option jsobj.
Variable JWT_SECRET : option string.
Variable NODE_ENV : option string.




End ConfigEndpoint.



Section Login.
Variable ToString : jsval -> string.
Variable bcrypt_compare : jsval -> string -> option bool.
Variable jwt_sign : jsobj -> string -> string.
Variable JWT_SECRET : option string.
Variable parse_message : string.
Variable loginTime : string.

Abbreviation login :=
  (AuthLogin.handler ToString bcrypt_compare jwt_sign JWT_SECRET parse_message
     loginTime).


Lemma find_company (f : AuthLogin.secure_company -> bool) user :
  List.find f AuthLogin.SECURE_COMPANIES = Some user ->
  user ∈ AuthLogin.SECURE_COMPANIES /\ f user = true.
Proof.
  intros H. apply find_some in H as [Hin Hf].
  split; [now apply list_elem_of_In | exact Hf].
Qed.

(** Every account of the table is active and subscribed. *)
Lemma companies_active user :
  user ∈ AuthLogin.SECURE_COMPANIES ->
  AuthLogin.isActive user = true /\ AuthLogin.subscriptionStatus user = "active".
Proof.
  unfold AuthLogin.SECURE_COMPANIES. intros Hin.
  repeat (apply elem_of_cons in Hin as [-> | Hin]; [split; reflexivity|]).
  now apply elem_of_nil in Hin.
Qed.

(** A login with a well-formed address and a password either fails with
    the one reply or signs the claims of the account of that address. *)
Lemma login_outcome now requestData s password :
  prop requestData "email" = Some (VStr s) ->
  prop requestData "password" = Some password ->
  truthy password = true ->
  test emailRegex s = true ->
  login now "POST" (Some requestData) = AuthLogin.invalid_credentials
  \/ exists user,
       user ∈ AuthLogin.SECURE_COMPANIES
       /\ toLowerCase (AuthLogin.email user) = toLowerCase s
       /\ AuthLogin.isValidPassword bcrypt_compare s password user = true
       /\ statusCode (login now "POST" (Some requestData)) = 200
       /\ prop (body (login now "POST" (Some requestData))) "token"
          = Some (VStr (jwt_sign (AuthLogin.tokenPayload now user)
                          (str_or JWT_SECRET "fallback-secret-key-for-demo"))).
Proof.
  intros He Hp Hpw Hre. unfold AuthLogin.handler.
  rewrite (bool_decide_eq_false_2 ("POST" = "OPTIONS")) by discriminate.
  rewrite (bool_decide_eq_true_2 ("POST" = "POST")) by reflexivity.
  cbn [negb]. rewrite He, Hp, Hpw.
  assert (truthy (VStr s) = true) as Hs.
  { cbn [truthy]. apply negb_true_iff, bool_decide_eq_false_2.
    intros ->. vm_compute in Hre. discriminate. }
  rewrite Hs, Hre. cbn [negb orb].
  destruct (List.find _ _) as [user|] eqn:Hfind; [|now left].
  apply find_company in Hfind as [Hin Hmatch].
  apply bool_decide_eq_true in Hmatch.
  destruct (companies_active user Hin) as [Hactive _]. rewrite Hactive.
  cbn [negb].
  destruct (AuthLogin.isValidPassword bcrypt_compare s password user) eqn:Hvalid;
    cbn [negb]; [|now left].
  right. exists user. cbv zeta. cbn [statusCode body prop assoc].
  repeat (rewrite bool_decide_eq_false_2 by discriminate).
  rewrite (bool_decide_eq_true_2 ("token" = "token")) by reflexivity.
  repeat split; assumption || reflexivity.
Qed.
End Login.

(** X18. auth-login.js does not tell an unknown address from a wrong
    password.  For a request with an address that passes the format check
    and a password, the reply is either the one 401 "Invalid credentials"
    or a 200 for an account of the table whose address equals the sent one
    up to letter case and whose password check passed; no other status
    (403, 404, 500) distinguishes the failures. *)
Theorem login_failures_look_alike
    (ToString : jsval -> string) (bcrypt_compare : jsval -> string -> option bool)
    (jwt_sign : jsobj -> string -> string) (JWT_SECRET : option string)
    (parse_message loginTime : string)
    (now : Z) (requestData : jsval) (s : string) (password : jsval) :
  prop requestData "email" = Some (VStr s) ->
  prop requestData "password" = Some password ->
  truthy password = true ->
  test emailRegex s = true ->
  let reply := AuthLogin.handler ToString bcrypt_compare jwt_sign JWT_SECRET
                 parse_message loginTime now "POST" (Some requestData) in
  reply = AuthLogin.invalid_credentials
  \/ (statusCode reply = 200
      /\ exists user,
           user ∈ AuthLogin.SECURE_COMPANIES
           /\ toLowerCase (AuthLogin.email user) = toLowerCase s
           /\ AuthLogin.isValidPassword bcrypt_compare s password user = true).
Proof.
  intros He Hp Hpw Hre reply. unfold reply. clear reply.
  destruct (login_outcome ToString bcrypt_compare jwt_sign JWT_SECRET
              parse_message loginTime now requestData s password He Hp Hpw Hre)
    as [Hfail | (user & Hin & Hmail & Hvalid & H200 & _)];
    [now left | right].
  split; [exact H200|]. exists user. auto.
Qed.

Lemma login_failures_look_alike_witness :
  AuthLogin.handler Sample.no_string Notions.bcrypt_demo Notions.signs None
    "" "" 0 "POST" (Notions.login_body "nobody@example.com" "demo123")
  = AuthLogin.handler Sample.no_string Notions.bcrypt_demo Notions.signs None
      "" "" 0 "POST" (Notions.login_body "demo@estatesales.com" "wrong").
Proof.
  destruct (login_failures_look_alike Sample.no_string Notions.bcrypt_demo
              Notions.signs None "" "" 0
              (VObj [("email", VStr "nobody@example.com");
                     ("password", VStr "demo123")])
              "nobody@example.com" (VStr "demo123"))
    as [Hfail | [H200 _]].
  - vm_compute. reflexivity.
  - vm_compute. reflexivity.
  - reflexivity.
  - vm_compute. reflexivity.
  - unfold Notions.login_body. rewrite Hfail. vm_compute. reflexivity.
  - exfalso. vm_compute in H200. discriminate.
Defined.




Section ZipCodes.

Lemma matches_Void l : matches Void l = false.
Proof. induction l as [|c l IH]; [reflexivity | exact IH]. Qed.

(** [/^\d{5}$/] accepts the strings of five digits. *)
Lemma zip_matches l :
  matches LeadsQuery.zipRegex l =
    match l with
    | [d1; d2; d3; d4; d5] => forallb LeadsQuery.is_digit [d1; d2; d3; d4; d5]
    | _ => false
    end.
Proof.
  unfold LeadsQuery.zipRegex.
  destruct l as [|d1 [|d2 [|d3 [|d4 [|d5 [|d6 l]]]]]];
    cbn [matches deriv accepts_empty seq alt forallb andb orb];
    repeat match goal with
      | |- context [LeadsQuery.is_digit ?d] =>
          destruct (LeadsQuery.is_digit d);
          cbn [matches deriv accepts_empty seq alt forallb andb orb]
      end;
    rewrite ?matches_Void; reflexivity.
Qed.

Lemma zip_at_digits prev l z :
  LeadSubmission.zip_at prev l = Some z ->
  matches LeadsQuery.zipRegex z = true /\ exists post, l = z ++ post.
Proof.
  unfold LeadSubmission.zip_at.
  destruct l as [|d1 [|d2 [|d3 [|d4 [|d5 rest]]]]]; try discriminate.
  destruct (forallb _ _ && _ && _) eqn:Hok; [|discriminate].
  intros [= <-]. rewrite zip_matches.
  apply andb_true_iff in Hok as [Hok _]. apply andb_true_iff in Hok as [Hok _].
  split; [exact Hok | exists rest; reflexivity].
Qed.

Lemma find_zip_digits prev l z :
  LeadSubmission.find_zip prev l = Some z ->
  matches LeadsQuery.zipRegex z = true /\ exists pre post, l = pre ++ z ++ post.
Proof.
  revert prev. induction l as [|c l IH]; intros prev; cbn [LeadSubmission.find_zip].
  - destruct (LeadSubmission.zip_at prev []) eqn:Hat; [|discriminate].
    intros [= <-]. destruct (zip_at_digits _ _ _ Hat) as [Hm [post Hpost]].
    split; [exact Hm|]. exists [], post. exact Hpost.
  - destruct (LeadSubmission.zip_at prev (c :: l)) eqn:Hat.
    + intros [= <-]. destruct (zip_at_digits _ _ _ Hat) as [Hm [post Hpost]].
      split; [exact Hm|]. exists [], post. exact Hpost.
    + intros Hfind. destruct (IH _ Hfind) as [Hm [pre [post Hl]]].
      split; [exact Hm|]. exists (c :: pre), post. now rewrite Hl.
Qed.
Lemma extracted_zip_code_cases address :
  LeadSubmission.extractZipCode address = ""
  \/ test LeadsQuery.zipRegex (LeadSubmission.extractZipCode address) = true.
Proof.
  unfold LeadSubmission.extractZipCode.
  case_bool_decide; [now left|].
  destruct (LeadSubmission.find_zip None (chars address)) as [z|] eqn:Hfind;
    [|now left].
  right. destruct (find_zip_digits _ _ _ Hfind) as [Hm _].
  unfold test. now rewrite chars_of_chars.
Qed.
End ZipCodes.



(** X21. What validateQueryParams lets through.  When it reports no error
    the numbers are handed on as they came: a limit within 1 to 100, an
    offset that is not negative and a radius within 1 to 1000, or NaN,
    which no check reports; a zip code that is given has five digits, and
    a timeline or property type that is given is in its list.  The
    defaults named in the messages (20, 0, 25) are set only together with
    an error. *)
Theorem accepted_query_params (p : LeadsQuery.params) :
  let v := LeadsQuery.validatedParams (LeadsQuery.validateQueryParams p) in
  LeadsQuery.errors (LeadsQuery.validateQueryParams p) = [] ->
  (LeadsQuery.limit v = LeadsQuery.limit p
   /\ LeadsQuery.offset v = LeadsQuery.offset p
   /\ LeadsQuery.radius v = LeadsQuery.radius p)
  /\ (forall n, LeadsQuery.limit p = Some n -> 1 <= n <= 100)
  /\ (forall n, LeadsQuery.offset p = Some n -> 0 <= n)
  /\ (forall n, LeadsQuery.radius p = Some n -> 1 <= n <= 1000)
  /\ (forall z, LeadsQuery.zipCode v = Some z ->
                LeadsQuery.zipCode p = Some z
                /\ strlen z = 5
                /\ forallb LeadsQuery.is_digit (chars z) = true)
  /\ (forall t, LeadsQuery.timeline v = Some t ->
                LeadsQuery.timeline p = Some t /\ t ∈ LeadsQuery.validTimelines)
  /\ (forall t, LeadsQuery.propertyType v = Some t ->
                LeadsQuery.propertyType p = Some t
                /\ t ∈ LeadsQuery.validPropertyTypes).
Proof.
  intros v. unfold v. clear v. unfold LeadsQuery.validateQueryParams.
  cbn [LeadsQuery.errors LeadsQuery.validatedParams LeadsQuery.limit
       LeadsQuery.offset LeadsQuery.radius LeadsQuery.zipCode
       LeadsQuery.timeline LeadsQuery.propertyType].
  destruct (LeadsQuery.outside 1 100 (LeadsQuery.limit p)) eqn:Hlimit;
    [discriminate|].
  destruct (match LeadsQuery.offset p with Some n => n <? 0 | None => false end)
    eqn:Hoffset; [discriminate|].
  destruct (LeadsQuery.given (LeadsQuery.zipCode p)
            && negb (test LeadsQuery.zipRegex
                       (default "" (LeadsQuery.zipCode p)))) eqn:Hzip;
    [discriminate|].
  destruct (LeadsQuery.outside 1 1000 (LeadsQuery.radius p)) eqn:Hradius;
    [discriminate|].
  destruct (LeadsQuery.given (LeadsQuery.timeline p)
            && negb (LeadsQuery.listed LeadsQuery.validTimelines
                       (LeadsQuery.timeline p))) eqn:Htimeline;
    [discriminate|].
  destruct (LeadsQuery.given (LeadsQuery.propertyType p)
            && negb (LeadsQuery.listed LeadsQuery.validPropertyTypes
                       (LeadsQuery.propertyType p))) eqn:Htype;
    [discriminate|].
  intros _. cbn [negb]. rewrite !andb_true_r.
  split; [repeat split|].
  split; [intros n Hn; rewrite Hn in Hlimit; cbn in Hlimit; lia|].
  split; [intros n Hn; rewrite Hn in Hoffset; lia|].
  split; [intros n Hn; rewrite Hn in Hradius; cbn in Hradius; lia|].
  split; [|split].
  - intros z. destruct (LeadsQuery.zipCode p) as [z0|]; cbn [LeadsQuery.given] in *;
      [|discriminate].
    destruct (negb (bool_decide (z0 = ""))); [|discriminate].
    intros [= ->]. cbn [andb default from_option id] in Hzip.
    apply negb_false_iff in Hzip. unfold test in Hzip.
    rewrite zip_matches in Hzip.
    split; [reflexivity|]. rewrite strlen_chars.
    destruct (chars z) as [|d1 [|d2 [|d3 [|d4 [|d5 [|d6 l]]]]]];
      try discriminate.
    split; [reflexivity | exact Hzip].
  - intros t. destruct (LeadsQuery.timeline p) as [t0|];
      cbn [LeadsQuery.given LeadsQuery.listed] in *; [|discriminate].
    destruct (negb (bool_decide (t0 = ""))); [|discriminate].
    intros [= ->]. cbn [andb] in Htimeline. apply negb_false_iff in Htimeline.
    apply bool_decide_eq_true in Htimeline. auto.
  - intros t. destruct (LeadsQuery.propertyType p) as [t0|];
      cbn [LeadsQuery.given LeadsQuery.listed] in *; [|discriminate].
    destruct (negb (bool_decide (t0 = ""))); [|discriminate].
    intros [= ->]. cbn [andb] in Htype. apply negb_false_iff in Htype.
    apply bool_decide_eq_true in Htype. auto.
Qed.

Lemma accepted_query_params_witness :
  LeadsQuery.limit
    (LeadsQuery.validatedParams
       (LeadsQuery.validateQueryParams
          (LeadsQuery.params_of {["limit" := "abc"]})))
  = None.
Proof.
  destruct (accepted_query_params (LeadsQuery.params_of {["limit" := "abc"]}))
    as [[Hlimit _] _].
  - vm_compute. reflexivity.
  - rewrite Hlimit. vm_compute. reflexivity.
Defined.

(** X22. validate-lead-data.js stores a lead only with a 200.  Every other
    reply (405, 400, 500) leaves the table as it was; a body that is not
    JSON, or is null, is answered 500, not 400.  A 200 appends exactly one
    row, built from a submission without validation errors: not purchased,
    no buyer, price 39.99, and a zip code that is empty or five digits. *)
Theorem submission_stores_only_valid_leads
    (remove_matches : string -> string -> string -> string)
    (insert_ok : bool) (created_at httpMethod : string)
    (parsed : option jsval) (leads : list jsobj) :
  let out := LeadSubmission.handler remove_matches insert_ok created_at
               httpMethod parsed leads in
  (statusCode out.1 <> 200 -> out.2 = leads)
  /\ (httpMethod = "POST" -> parsed = None \/ parsed = Some VNull ->
      out.1 = LeadSubmission.failed)
  /\ (statusCode out.1 = 200 ->
      exists rawData row,
        ValidateLeadData.errors
          (ValidateLeadData.validateLeadData remove_matches rawData) = []
        /\ row = LeadSubmission.leadData created_at
                   (ValidateLeadData.data
                      (ValidateLeadData.validateLeadData remove_matches rawData))
        /\ out.2 = leads ++ [row]
        /\ row !! "purchased" = Some (VBool false)
        /\ row !! "purchased_by" = Some VNull
        /\ row !! "exclusive_purchased_by" = Some VNull
        /\ row !! "price" = Some (VNum (Fin 39.99))
        /\ exists zip, row !! "zip_code" = Some (VStr zip)
                       /\ (zip = "" \/ test LeadsQuery.zipRegex zip = true)).
Proof.
  cbv zeta. unfold LeadSubmission.handler.
  destruct (bool_decide (httpMethod = "POST")) eqn:Hpost; cbn [negb fst snd].
  2:{ apply bool_decide_eq_false in Hpost.
      split; [reflexivity|]. split; [intros ?; contradiction | discriminate]. }
  destruct (parsed ≫= LeadSubmission.fields_of) as [rawData|] eqn:Hparsed;
    cbn [fst snd].
  2:{ split; [reflexivity|]. split; [reflexivity | discriminate]. }
  split; [|split].
  - destruct (ValidateLeadData.errors _); [|reflexivity].
    destruct insert_ok; cbn [negb fst snd statusCode]; [|reflexivity].
    intros H; now elim H.
  - intros _ [-> | ->]; discriminate Hparsed.
  - destruct (ValidateLeadData.errors _) eqn:Herr; [|discriminate].
    destruct insert_ok; cbn [negb fst snd statusCode]; [|discriminate].
    intros _. exists rawData. eexists. split; [exact Herr|].
    split; [reflexivity|]. split; [reflexivity|].
    unfold LeadSubmission.leadData. cbn [list_to_map foldr uncurry fst snd].
    repeat split; try (read_prop; reflexivity).
    eexists. split; [read_prop; reflexivity|].
    destruct (get _ "address"); try (now left).
    destruct (extracted_zip_code_cases s) as [-> | Hz]; [now left | now right].
Qed.


Section Signup.
Variable remove_matches : string -> string -> string -> string.
Variable ToString : jsval -> string.

Abbreviation sdata st := (ValidateLeadData.data st).
Abbreviation serrors st := (ValidateLeadData.errors st).

Lemma required_from input (fields : list string) st :
  serrors (foldl (fun st field =>
                    if CompanySignup.blank (get input field)
                    then ValidateLeadData.push (field +:+ " is required") st
                    else st) st fields)
  = serrors st
    ++ flat_map (fun field =>
                   if CompanySignup.blank (get input field)
                   then [field +:+ " is required"] else []) fields
  /\ sdata (foldl (fun st field =>
                     if CompanySignup.blank (get input field)
                     then ValidateLeadData.push (field +:+ " is required") st
                     else st) st fields)
     = sdata st.
Proof.
  revert st. induction fields as [|f fields IH]; intros st; cbn [foldl flat_map].
  - now rewrite app_nil_r.
  - destruct (IH (if CompanySignup.blank (get input f)
                  then ValidateLeadData.push (f +:+ " is required") st
                  else st)) as [-> ->].
    destruct (CompanySignup.blank (get input f));
      cbn [ValidateLeadData.push ValidateLeadData.errors ValidateLeadData.data];
      [now rewrite <- app_assoc | auto].
Qed.

Lemma signup_text_errors field maxLength minLength msg input st :
  serrors (CompanySignup.check_text remove_matches field maxLength minLength
             msg input st)
  = serrors st
    ++ if truthy (get input field)
          && (strlen (ValidateLeadData.sanitizeText remove_matches
                        (get input field) maxLength) <? minLength)
       then [msg] else [].
Proof.
  unfold CompanySignup.check_text.
  destruct (truthy (get input field)); cbn [andb]; [|now rewrite app_nil_r].
  destruct (strlen _ <? minLength); cbn; [reflexivity | now rewrite app_nil_r].
Qed.

Lemma signup_email_errors input st st' :
  CompanySignup.check_email input st = Some st' ->
  CompanySignup.blank (get input "email") = false ->
  serrors st' = [] ->
  serrors st = []
  /\ exists s, get input "email" = VStr s
               /\ test emailRegex (toLowerCase (trim s)) = true
               /\ strlen (toLowerCase (trim s)) <= 254
               /\ sdata st' = <["email" := VStr (toLowerCase (trim s))]> (sdata st).
Proof.
  unfold CompanySignup.check_email, CompanySignup.blank.
  destruct (get input "email") as [| | | |s| |]; try discriminate.
  cbn [truthy]. case_bool_decide as Hs;
    [subst s; intros _ Hb; vm_compute in Hb; discriminate|].
  cbn [negb]. intros Hst _.
  destruct (test emailRegex _) eqn:Hre; cbn [negb orb] in Hst.
  - destruct (254 <? strlen _) eqn:Hlen; injection Hst as <-;
      cbn [ValidateLeadData.set ValidateLeadData.push ValidateLeadData.errors
           ValidateLeadData.data].
    + intros Herr. now apply app_eq_nil in Herr as [_ ?].
    + intros Herr. split; [exact Herr|]. exists s.
      split; [reflexivity|]. split; [exact Hre|].
      split; [apply Z.ltb_ge in Hlen; exact Hlen | reflexivity].
  - injection Hst as <-.
    cbn [ValidateLeadData.push ValidateLeadData.errors].
    intros Herr. now apply app_eq_nil in Herr as [_ ?].
Qed.

Lemma signup_phone_errors input st st' :
  CompanySignup.check_phone input st = Some st' ->
  serrors st' = [] -> serrors st = [].
Proof.
  unfold CompanySignup.check_phone.
  destruct (truthy (get input "phone")); [|now intros [= <-]].
  destruct (get input "phone") as [| | | |s| |]; try discriminate.
  destruct (negb (test _ _)); intros [= <-]; cbn;
    [intros Herr; now apply app_eq_nil in Herr as [? _] | auto].
Qed.

Lemma signup_password_errors input st :
  serrors (CompanySignup.check_password ToString input st)
  = serrors st
    ++ if truthy (get input "password") then
         if negb (CompanySignup.passwordRegex_test
                    (CompanySignup.string_of ToString (get input "password")))
         then ["Password must be at least 8 characters with uppercase, lowercase, and number"]
         else if negb (strict_eq (get input "password")
                         (get input "confirmPassword"))
         then ["Passwords do not match"] else []
       else [].
Proof.
  unfold CompanySignup.check_password.
  destruct (truthy (get input "password")); [|now rewrite app_nil_r].
  destruct (negb (CompanySignup.passwordRegex_test _)); [reflexivity|].
  destruct (negb (strict_eq _ _)); cbn; [reflexivity | now rewrite app_nil_r].
Qed.

Lemma signup_enum_errors field allowedValues msg input st :
  serrors (CompanySignup.check_enum field allowedValues msg input st)
  = serrors st
    ++ if truthy (get input field)
          && negb (ValidateLeadData.includes allowedValues (get input field))
       then [msg] else [].
Proof.
  unfold CompanySignup.check_enum.
  destruct (truthy _ && negb _); cbn; [reflexivity | now rewrite app_nil_r].
Qed.

Lemma signup_optional_errors field maxLength input st :
  serrors (CompanySignup.check_optional remove_matches field maxLength input st)
  = serrors st.
Proof.
  unfold CompanySignup.check_optional. destruct (truthy _); reflexivity.
Qed.

Lemma signup_website_errors input st :
  serrors (CompanySignup.check_websiteUrl ToString input st)
  = serrors st
    ++ if truthy (get input "websiteUrl")
          && negb (test CompanySignup.urlRegex
                     (CompanySignup.string_of ToString (get input "websiteUrl")))
       then ["Invalid website URL format"] else [].
Proof.
  unfold CompanySignup.check_websiteUrl.
  destruct (truthy _); cbn [andb]; [|now rewrite app_nil_r].
  destruct (negb _); cbn; [reflexivity | now rewrite app_nil_r].
Qed.

Lemma signup_agreement_errors input st :
  serrors (CompanySignup.check_agreements input st)
  = serrors st
    ++ (if is_true (get input "termsAgreement") then []
        else ["Terms of service agreement is required"])
    ++ (if is_true (get input "backgroundCheck") then []
        else ["Background check consent is required"])
    ++ (if is_true (get input "professionalConduct") then []
        else ["Professional conduct agreement is required"]).
Proof.
  unfold CompanySignup.check_agreements.
  destruct (is_true (get input "termsAgreement")),
    (is_true (get input "backgroundCheck")),
    (is_true (get input "professionalConduct"));
    cbn; rewrite ?app_nil_r, <- ?app_assoc; reflexivity.
Qed.

(** The validator throws exactly on a crashing body. *)
Lemma signup_throws input :
  CompanySignup.validateSignupData remove_matches ToString input = None
  <-> Notions.crashing input = true.
Proof.
  unfold CompanySignup.validateSignupData, Notions.crashing,
    CompanySignup.check_email, CompanySignup.check_phone.
  cbv zeta.
  destruct (get input "email") as [| |[]|n|s| |];
    destruct (get input "phone") as [| |[]|m|t| |];
    cbn [truthy is_string negb andb orb mbind option_bind];
    repeat match goal with
      | |- context [if ?b then _ else _] => destruct b
      end;
    cbn [truthy is_string negb andb orb mbind option_bind];
    split; congruence.
Qed.
End Signup.


Section SignupFacts.
Variable remove_matches : string -> string -> string -> string.
Variable ToString : jsval -> string.

Lemma signup_email_grows input st st' :
  CompanySignup.check_email input st = Some st' ->
  exists more, ValidateLeadData.errors st' = ValidateLeadData.errors st ++ more.
Proof.
  unfold CompanySignup.check_email.
  destruct (truthy (get input "email"));
    [|intros [= <-]; exists []; now rewrite app_nil_r].
  destruct (get input "email") as [| | | |s| |]; try discriminate.
  destruct (negb _ || _); intros [= <-]; cbn;
    [eexists; reflexivity | exists []; now rewrite app_nil_r].
Qed.

Lemma signup_phone_grows input st st' :
  CompanySignup.check_phone input st = Some st' ->
  exists more, ValidateLeadData.errors st' = ValidateLeadData.errors st ++ more.
Proof.
  unfold CompanySignup.check_phone.
  destruct (truthy (get input "phone"));
    [|intros [= <-]; exists []; now rewrite app_nil_r].
  destruct (get input "phone") as [| | | |s| |]; try discriminate.
  destruct (negb _); intros [= <-]; cbn;
    [eexists; reflexivity | exists []; now rewrite app_nil_r].
Qed.

Lemma none_reported {A} (P : A -> bool) (g : A -> string) (l : list A) :
  flat_map (fun x => if P x then [g x] else []) l = [] ->
  Forall (fun x => P x = false) l.
Proof.
  induction l as [|x l IH]; cbn [flat_map]; [constructor|].
  intros H. apply app_eq_nil in H as [Hx Hl].
  constructor; [destruct (P x); [discriminate | reflexivity] | exact (IH Hl)].
Qed.

Lemma not_blank v :
  CompanySignup.blank v = false ->
  exists s, v = VStr s /\ trim s <> "" /\ truthy v = true.
Proof.
  unfold CompanySignup.blank. destruct v as [| | | |s| |]; try discriminate.
  intros Hb. apply bool_decide_eq_false in Hb. exists s.
  split; [reflexivity|]. split; [exact Hb|].
  cbn [truthy]. apply negb_true_iff, bool_decide_eq_false_2.
  intros ->. apply Hb. reflexivity.
Qed.

(** The messages of a run of the validator that does not throw: those of
    the required fields and the three name checks, then those of the
    email and phone checks, then those of the remaining checks. *)
Lemma signup_errors_split input v :
  CompanySignup.validateSignupData remove_matches ToString input = Some v ->
  exists contact,
    ValidateLeadData.errors v
    = ((flat_map (fun field =>
                    if CompanySignup.blank (get input field)
                    then [field +:+ " is required"] else [])
                 CompanySignup.requiredFields
        ++ (if truthy (get input "firstName")
               && (strlen (ValidateLeadData.sanitizeText remove_matches
                             (get input "firstName") 50) <? 2)
            then ["First name must be at least 2 characters"] else [])
        ++ (if truthy (get input "lastName")
               && (strlen (ValidateLeadData.sanitizeText remove_matches
                             (get input "lastName") 50) <? 2)
            then ["Last name must be at least 2 characters"] else [])
        ++ (if truthy (get input "companyName")
               && (strlen (ValidateLeadData.sanitizeText remove_matches
                             (get input "companyName") 100) <? 2)
            then ["Company name must be at least 2 characters"] else []))
       ++ contact)
      ++ (if truthy (get input "password") then
            if negb (CompanySignup.passwordRegex_test
                       (CompanySignup.string_of ToString (get input "password")))
            then ["Password must be at least 8 characters with uppercase, lowercase, and number"]
            else if negb (strict_eq (get input "password")
                            (get input "confirmPassword"))
            then ["Passwords do not match"] else []
          else [])
      ++ (if truthy (get input "businessAddress")
             && (strlen (ValidateLeadData.sanitizeText remove_matches
                           (get input "businessAddress") 200) <? 10)
          then ["Business address must be complete"] else [])
      ++ (if truthy (get input "businessType")
             && negb (ValidateLeadData.includes CompanySignup.validBusinessTypes
                        (get input "businessType"))
          then ["Invalid business type"] else [])
      ++ (if truthy (get input "yearsInBusiness")
             && negb (ValidateLeadData.includes CompanySignup.validYears
                        (get input "yearsInBusiness"))
          then ["Invalid years in business"] else [])
      ++ (if truthy (get input "serviceAreas")
             && (strlen (ValidateLeadData.sanitizeText remove_matches
                           (get input "serviceAreas") 500) <? 5)
          then ["Service areas must be at least 5 characters"] else [])
      ++ (if truthy (get input "websiteUrl")
             && negb (test CompanySignup.urlRegex
                        (CompanySignup.string_of ToString (get input "websiteUrl")))
          then ["Invalid website URL format"] else [])
      ++ (if is_true (get input "termsAgreement") then []
          else ["Terms of service agreement is required"])
      ++ (if is_true (get input "backgroundCheck") then []
          else ["Background check consent is required"])
      ++ (if is_true (get input "professionalConduct") then []
          else ["Professional conduct agreement is required"]).
Proof.
  unfold CompanySignup.validateSignupData. cbv zeta.
  destruct (CompanySignup.check_email input _) as [st2|] eqn:Hemail;
    [|discriminate].
  cbn [mbind option_bind].
  destruct (CompanySignup.check_phone input st2) as [st3|] eqn:Hphone;
    [|discriminate].
  cbn [mbind option_bind]. intros [= <-].
  destruct (signup_email_grows _ _ _ Hemail) as [more1 Hst2].
  destruct (signup_phone_grows _ _ _ Hphone) as [more2 Hst3].
  rewrite !signup_text_errors in Hst2.
  unfold CompanySignup.check_required in Hst2.
  rewrite (proj1 (required_from input CompanySignup.requiredFields _)) in Hst2.
  cbn [ValidateLeadData.errors app] in Hst2.
  exists (more1 ++ more2).
  rewrite signup_agreement_errors, signup_website_errors,
    !signup_optional_errors, signup_text_errors, !signup_enum_errors,
    signup_text_errors, signup_password_errors, Hst3, Hst2.
  rewrite <- !app_assoc. reflexivity.
Qed.
End SignupFacts.

(** X23. What a signup needs to be valid.  When validateSignupData reports
    no error, each of the eleven required fields is a string that is not
    blank; the password has at least eight characters out of letters,
    digits and @$!%*?&, among them a small letter, a capital and a digit,
    and the confirmation is the same string; the terms, the background
    check and the professional conduct are agreed to with the literal
    true; and business type and years in business are from their lists. *)
Theorem valid_signup_is_complete
    (remove_matches : string -> string -> string -> string)
    (ToString : jsval -> string) (input : jsobj)
    (v : ValidateLeadData.validation) :
  CompanySignup.validateSignupData remove_matches ToString input = Some v ->
  ValidateLeadData.errors v = [] ->
  Forall (fun field => exists s, get input field = VStr s /\ trim s <> "")
         CompanySignup.requiredFields
  /\ (exists password,
        get input "password" = VStr password
        /\ get input "confirmPassword" = VStr password
        /\ CompanySignup.passwordRegex_test password = true)
  /\ Forall (fun agreement => get input agreement = VBool true)
            ["termsAgreement"; "backgroundCheck"; "professionalConduct"]
  /\ (exists t, get input "businessType" = VStr t
                /\ t ∈ CompanySignup.validBusinessTypes)
  /\ (exists y, get input "yearsInBusiness" = VStr y
                /\ y ∈ CompanySignup.validYears).
Proof.
  intros Hv Herr.
  destruct (signup_errors_split remove_matches ToString input v Hv)
    as [contact Hsplit].
  rewrite Herr in Hsplit. symmetry in Hsplit.
  repeat match goal with
    | H : _ ++ _ = [] |- _ => apply app_eq_nil in H as [?Hpart ?Hpart]
    end.
  match goal with
  | H : flat_map _ _ = [] |- _ => apply none_reported in H; rename H into Hrequired
  end.
  match goal with
  | H : (if truthy (get input "password") then _ else _) = [] |- _ =>
      rename H into Hpassword
  end.
  match goal with
  | H : (if truthy (get input "businessType") && _ then _ else _) = [] |- _ =>
      rename H into Htype
  end.
  match goal with
  | H : (if truthy (get input "yearsInBusiness") && _ then _ else _) = [] |- _ =>
      rename H into Hyears
  end.
  match goal with
  | H : (if is_true (get input "termsAgreement") then _ else _) = [] |- _ =>
      rename H into Hterms
  end.
  match goal with
  | H : (if is_true (get input "backgroundCheck") then _ else _) = [] |- _ =>
      rename H into Hbackground
  end.
  match goal with
  | H : (if is_true (get input "professionalConduct") then _ else _) = [] |- _ =>
      rename H into Hconduct
  end.
  assert (forall field, field ∈ CompanySignup.requiredFields ->
            exists s, get input field = VStr s /\ trim s <> ""
                      /\ truthy (get input field) = true) as Hreq.
  { intros field Hin. apply not_blank.
    exact (proj1 (Forall_forall _ _) Hrequired field Hin). }
  assert (forall k, is_true (get input k) = true -> get input k = VBool true)
    as Htrue
    by (intros k; destruct (get input k) as [| |[]| | | |]; cbn; congruence).
  assert (forall field, In field CompanySignup.requiredFields ->
            field ∈ CompanySignup.requiredFields) as Hlisted
    by (intros field; apply list_elem_of_In).
  split; [|split; [|split; [|split]]].
  - apply Forall_forall. intros field Hin.
    destruct (Hreq field Hin) as (s & Hs & Hb & _). eauto.
  - destruct (Hreq "password") as (pw & Hpw & _ & Htruthy);
      [apply Hlisted; cbn; tauto|].
    destruct (Hreq "confirmPassword") as (cpw & Hcpw & _ & _);
      [apply Hlisted; cbn; tauto|].
    rewrite Htruthy, Hpw, Hcpw in Hpassword.
    cbn [CompanySignup.string_of strict_eq] in Hpassword.
    destruct (CompanySignup.passwordRegex_test pw) eqn:Hstrong;
      cbn [negb] in Hpassword; [|discriminate].
    case_bool_decide as Hsame; cbn [negb] in Hpassword; [|discriminate].
    exists pw. subst cpw. auto.
  - repeat apply Forall_cons_2; [.. | apply Forall_nil_2]; apply Htrue.
    + destruct (is_true (get input "termsAgreement")); [reflexivity | discriminate].
    + destruct (is_true (get input "backgroundCheck")); [reflexivity | discriminate].
    + destruct (is_true (get input "professionalConduct"));
        [reflexivity | discriminate].
  - destruct (Hreq "businessType") as (t & Ht & _ & Htruthy);
      [apply Hlisted; cbn; tauto|].
    rewrite Htruthy, Ht in Htype. cbn [andb ValidateLeadData.includes] in Htype.
    case_bool_decide as Hin; cbn [negb] in Htype; [|discriminate].
    exists t. auto.
  - destruct (Hreq "yearsInBusiness") as (y & Hy & _ & Htruthy);
      [apply Hlisted; cbn; tauto|].
    rewrite Htruthy, Hy in Hyears. cbn [andb ValidateLeadData.includes] in Hyears.
    case_bool_decide as Hin; cbn [negb] in Hyears; [|discriminate].
    exists y. auto.
Qed.


Lemma valid_signup_is_complete_witness :
  exists t, get Notions.valid_signup "businessType" = VStr t
            /\ t ∈ CompanySignup.validBusinessTypes.
Proof.
  destruct (valid_signup_is_complete Sample.no_matches Sample.no_string
              Notions.valid_signup
              (default Spec.nothing_yet
                 (CompanySignup.validateSignupData Sample.no_matches
                    Sample.no_string Notions.valid_signup)))
    as (_ & _ & _ & Htype & _).
  - vm_compute. reflexivity.
  - vm_compute. reflexivity.
  - exact Htype.
Defined.

Section SignupReplies.
Variable remove_matches : string -> string -> string -> string.
Variable ToString : jsval -> string.

Lemma not_a_string v maxLength :
  is_string v = false ->
  CompanySignup.blank v = true
  /\ ValidateLeadData.sanitizeText remove_matches v maxLength = "".
Proof. destruct v; try discriminate; intros _; split; reflexivity. Qed.

(** A signup leaves the table as it was, or appends the row of a valid
    submission whose address the lookup did not find; it answers 201 only
    in the second case. *)
Lemma signup_table ds pick created_at parsed db :
  let out := CompanySignup.handler remove_matches ToString ds pick created_at
               "POST" parsed db in
  (out.2 = db /\ statusCode out.1 <> 201)
  \/ exists v,
       CompanySignup.checkExistingUser ds (CompanySignup.field v "email") db
         = false
       /\ out.2 = db ++ [Notions.pending_row ds pick created_at v].
Proof.
  cbv zeta. unfold CompanySignup.handler.
  rewrite (bool_decide_eq_false_2 ("POST" = "OPTIONS")) by discriminate.
  rewrite (bool_decide_eq_true_2 ("POST" = "POST")) by reflexivity.
  cbn [negb].
  destruct (parsed ≫= LeadSubmission.fields_of) as [requestData|];
    [|left; split; [reflexivity | discriminate]].
  destruct (CompanySignup.validateSignupData _ _ _) as [v|];
    [|left; split; [reflexivity | discriminate]].
  destruct (negb (CompanySignup.isValid v));
    [left; split; [reflexivity | discriminate]|].
  destruct (CompanySignup.checkExistingUser _ _ _) eqn:Hexists;
    [left; split; [reflexivity | discriminate]|].
  cbv zeta. unfold CompanySignup.saveCompanyToDatabase.
  destruct (CompanySignup.insert_ok ds); cbn [negb fst snd];
    [|left; split; [reflexivity | discriminate]].
  right. exists v. split; [exact Hexists|].
  destruct (negb (negb _)); reflexivity.
Qed.

Lemma select_token_app token db row :
  Companies.select_by_token token (db ++ [row])
  = Companies.select_by_token token db ++ Companies.select_by_token token [row].
Proof. apply List.filter_app. Qed.

Lemma select_none_token token db :
  (forall c, c ∈ db -> Companies.verification_token c <> Some token) ->
  Companies.select_by_token token db = [].
Proof.
  unfold Companies.select_by_token.
  induction db as [|c db IH]; intros Hfresh; [reflexivity|].
  cbn [List.filter].
  rewrite bool_decide_eq_false_2 by (apply Hfresh, list_elem_of_here).
  apply IH. intros c0 Hc0. apply Hfresh. now apply list_elem_of_further.
Qed.

End SignupReplies.

(** X24. validateSignupData throws on a contact that is no string.  It
    throws (a TypeError of [trim] or [replace]) exactly when the email or
    the phone of the body is truthy but not a string, and company-signup.js
    then answers 500 instead of a 400 with the validation messages; the
    table is left as it was. *)
Theorem signup_crashes_on_non_string_contact
    (remove_matches : string -> string -> string -> string)
    (ToString : jsval -> string)
    (ds : CompanySignup.datastore) (pick : nat -> nat) (created_at : string)
    (parsed : option jsval) (db : list Companies.company) (input : jsobj) :
  parsed ≫= LeadSubmission.fields_of = Some input ->
  (CompanySignup.validateSignupData remove_matches ToString input = None
   <-> Notions.crashing input = true)
  /\ (Notions.crashing input = true ->
      CompanySignup.handler remove_matches ToString ds pick created_at
        "POST" parsed db
      = (CompanySignup.internal_error, db)).
Proof.
  intros Hparsed.
  split; [apply signup_throws|].
  intros Hcrash. apply signup_throws with (remove_matches := remove_matches)
                         (ToString := ToString) in Hcrash.
  unfold CompanySignup.handler.
  rewrite (bool_decide_eq_false_2 ("POST" = "OPTIONS")) by discriminate.
  rewrite (bool_decide_eq_true_2 ("POST" = "POST")) by reflexivity.
  cbn [negb]. rewrite Hparsed, Hcrash. reflexivity.
Qed.

Lemma signup_crashes_on_non_string_contact_witness :
  CompanySignup.handler Sample.no_matches Sample.no_string Notions.answering
    (fun i => i) "2024-01-15T10:00:00Z" "POST"
    (Some (VObj [("email", VNum (Fin 5))])) []
  = (CompanySignup.internal_error, []).
Proof.
  refine (proj2 (signup_crashes_on_non_string_contact Sample.no_matches
                   Sample.no_string Notions.answering (fun i => i)
                   "2024-01-15T10:00:00Z"
                   (Some (VObj [("email", VNum (Fin 5))])) []
                   (<["email" := VNum (Fin 5)]> ∅) _) _).
  - reflexivity.
  - vm_compute. reflexivity.
Defined.

(** An element of a list written as appended pieces. *)
Ltac member :=
  first [ apply list_elem_of_here
        | apply elem_of_app; left; member
        | apply elem_of_app; right; member ].

(** X25. A field can be reported twice.  For each of the five text fields
    of a signup, a value that is truthy but not a string (a number, true,
    an array) is reported as required and, again, as too short. *)
Theorem signup_reports_a_field_twice
    (remove_matches : string -> string -> string -> string)
    (ToString : jsval -> string) (input : jsobj)
    (v : ValidateLeadData.validation) :
  CompanySignup.validateSignupData remove_matches ToString input = Some v ->
  Forall (fun entry =>
            truthy (get input entry.1) = true ->
            is_string (get input entry.1) = false ->
            (entry.1 +:+ " is required") ∈ ValidateLeadData.errors v
            /\ entry.2 ∈ ValidateLeadData.errors v)
         Notions.signup_text_fields.
Proof.
  intros Hv.
  destruct (signup_errors_split remove_matches ToString input v Hv)
    as [contact ->].
  unfold Notions.signup_text_fields.
  repeat apply Forall_cons_2; [.. | apply Forall_nil_2];
    cbn [fst snd]; intros Htruthy Hstring;
    destruct (not_a_string remove_matches _ 50 Hstring) as [Hblank Hclean50];
    destruct (not_a_string remove_matches _ 100 Hstring) as [_ Hclean100];
    destruct (not_a_string remove_matches _ 200 Hstring) as [_ Hclean200];
    destruct (not_a_string remove_matches _ 500 Hstring) as [_ Hclean500];
    cbn [flat_map CompanySignup.requiredFields];
    rewrite Hblank, Htruthy, ?Hclean50, ?Hclean100, ?Hclean200, ?Hclean500;
    change (strlen "") with 0; cbn [andb Z.ltb Z.compare];
    split; member.
Qed.

Lemma signup_reports_a_field_twice_witness :
  "First name must be at least 2 characters"
  ∈ ValidateLeadData.errors
      (default Spec.nothing_yet
         (CompanySignup.validateSignupData Sample.no_matches Sample.no_string
            (<["firstName" := VBool true]> ∅))).
Proof.
  pose proof (signup_reports_a_field_twice Sample.no_matches Sample.no_string
                (<["firstName" := VBool true]> ∅)
                (default Spec.nothing_yet
                   (CompanySignup.validateSignupData Sample.no_matches
                      Sample.no_string (<["firstName" := VBool true]> ∅))))
    as H.
  apply Forall_cons in H as [H _]; [|vm_compute; reflexivity].
  apply H; reflexivity.
Defined.

(** X26. From signup to verification.  When company-signup.js answers 201,
    the table has one more row: unverified, pending, holding the generated
    token.  If no earlier row holds that token, presenting it to
    verify-email.js (with a datastore that answers) verifies the account
    exactly when the signup's creation time, if it parses, lies at most 24
    hours back; the generated token always passes the format check. *)
Theorem signup_then_verify
    (remove_matches : string -> string -> string -> string)
    (ToString : jsval -> string) (Date_parse : string -> timeval)
    (ds : CompanySignup.datastore) (pick : nat -> nat) (created_at : string)
    (parsed : option jsval) (db : list Companies.company)
    (up : Companies.upstream) (now : Z) :
  let token := ResendVerification.generateVerificationToken pick in
  let out := CompanySignup.handler remove_matches ToString ds pick created_at
               "POST" parsed db in
  statusCode out.1 = 201 ->
  (forall i, (i < 32)%nat -> (pick i < 62)%nat) ->
  (forall c, c ∈ db -> Companies.verification_token c <> Some token) ->
  Companies.query_ok up = true ->
  Companies.update_ok up = true ->
  let verified := VerifyEmail.handler Date_parse up now "POST"
                    (Spec.token_request token) out.2 in
  (exists row,
     out.2 = db ++ [row]
     /\ Companies.email_verified row = false
     /\ Companies.account_status row = "pending_verification"
     /\ Companies.verification_token row = Some token
     /\ Companies.created_at row = created_at)
  /\ (statusCode verified.1 = 200 <->
        forall t0, Date_parse created_at = Some t0 -> now - t0 <= Spec.day_ms)
  /\ (statusCode verified.1 <> 200 -> verified = (Notions.token_expired, out.2)).
Proof.
  intros token out H201 Hpick Hfresh Hq Hu verified.
  destruct (signup_table remove_matches ToString ds pick created_at parsed db)
    as [[_ Hnot] | [v [_ Hdb]]]; [now elim Hnot|].
  fold out in Hdb.
  split; [exists (Notions.pending_row ds pick created_at v); repeat split; exact Hdb|].
  assert (Notions.well_formed_token token = true) as Hw.
  { pose proof (generated_chars pick (List.seq 0 32) "") as Hgen.
    destruct Hgen as [cs [Hcs [Hlen Hall]]].
    { intros i Hi. apply Hpick. apply list_elem_of_In, in_seq in Hi. lia. }
    change (chars "" ++ cs) with cs in Hcs. rewrite length_seq in Hlen.
    unfold token, ResendVerification.generateVerificationToken.
    set (t := foldl _ _ _) in *. clearbody t.
    unfold Notions.well_formed_token. rewrite strlen_chars, Hcs, Hlen.
    apply andb_true_iff. split; [|reflexivity].
    apply forallb_forall. intros c Hc.
    exact (proj1 (Forall_forall _ _) Hall c (proj2 (list_elem_of_In _ _) Hc)). }
  assert (head (Companies.select_by_token token out.2)
          = Some (Notions.pending_row ds pick created_at v)) as Hhead.
  { rewrite Hdb, select_token_app, (select_none_token token db Hfresh).
    unfold Companies.select_by_token. cbn [app List.filter].
    cbn [Notions.pending_row Companies.verification_token].
    rewrite bool_decide_eq_true_2 by reflexivity. reflexivity. }
  unfold verified.
  rewrite (verify_pending Date_parse up now token out.2 _ Hw Hhead eq_refl Hq Hu).
  apply (age_verdict (Date_parse created_at) now
           (Notions.pending_row ds pick created_at v)).
Qed.

Lemma signup_then_verify_witness :
  statusCode
    (VerifyEmail.handler Sample.epoch_date Sample.all_ok 1000 "POST"
       (Spec.token_request
          (ResendVerification.generateVerificationToken (fun i => i)))
       (CompanySignup.handler Sample.no_matches Sample.no_string
          Notions.answering (fun i => i) "2024-01-15T10:00:00Z" "POST"
          Notions.valid_signup_body []).2).1
  = 200.
Proof.
  refine (proj2 (proj1 (proj2 (signup_then_verify Sample.no_matches
                                 Sample.no_string Sample.epoch_date
                                 Notions.answering (fun i => i)
                                 "2024-01-15T10:00:00Z"
                                 Notions.valid_signup_body [] Sample.all_ok 1000
                                 _ _ _ _ _))) _).
  - vm_compute. reflexivity.
  - intros i Hi. lia.
  - intros c Hc. now apply elem_of_nil in Hc.
  - reflexivity.
  - reflexivity.
  - intros t0 [= <-]. vm_compute. discriminate.
Defined.




(** X28. The datastore listing endpoint charges authenticated requests
    only.  A GET whose token authenticateRequest refuses is answered 401
    and leaves the limiter's store as it was.  A GET it accepts is counted
    by the limiter under the caller's id and client address whatever
    happens next (429, 400 for the parameters, 500, 200).  A reply that
    carries leads holds the projection of each fetched row, in order,
    showing the raw contact fields unless the row has an exclusive buyer;
    its count is their number, its limit is within 1 to 100 when it is a
    number, and hasMore says that the page is full. *)
Theorem listing_counts_authenticated_requests
    (Date_parse : string -> timeval) (String_toNumber : string -> jsnum)
    (Object_toString : jsval -> string)
    (jwt_verify : string -> string -> option jsobj) (JWT_SECRET : option string)
    (ToString : jsval -> string)
    (fetchLeadsSecurely :
       LeadsQuery.params -> jsobj -> option (list SecureLeads.lead_row))
    (now : Z) (ev : SecureLeadsDemo.event)
    (rateLimitStorage : gmap string SecureLeads.limit_entry) :
  SecureLeadsDemo.httpMethod ev = "GET" ->
  let out := SecureLeadsApi.handler Date_parse String_toNumber Object_toString
               jwt_verify JWT_SECRET ToString fetchLeadsSecurely now ev
               rateLimitStorage in
  match SecureLeads.authenticateRequest String_toNumber Object_toString
          jwt_verify JWT_SECRET now (SecureLeadsDemo.headers ev) with
  | SecureLeadsDemo.AuthFailure e =>
      out = ({| SecureLeadsApi.statusCode := 401;
                SecureLeadsApi.body := SecureLeadsApi.BodyError e |},
             rateLimitStorage)
  | SecureLeadsDemo.AuthSuccess user =>
      let charged :=
        SecureLeads.checkRateLimit ToString now (get user "userId")
          (SecureLeadsApi.clientIP ToString (SecureLeadsDemo.headers ev))
          rateLimitStorage in
      out.2 = charged.2
      /\ (SecureLeadsApi.statusCode out.1 = 429 <->
            SecureLeads.allowed charged.1 = false)
      /\ forall data meta,
           SecureLeadsApi.body out.1 = SecureLeadsApi.BodyLeads data meta ->
           (exists rows,
              Forall2 (fun row shown =>
                         shown = SecureLeads.sanitizeLead Date_parse
                                   Object_toString now row user
                         /\ Spec.contact_view shown
                            = if Spec.has_buyer
                                   (SecureLeads.exclusive_purchased_by row)
                              then Spec.placeholders
                              else [Some (SecureLeads.first_name row);
                                    Some (SecureLeads.last_name row);
                                    Some (SecureLeads.email row);
                                    Some (SecureLeads.phone row);
                                    Some (SecureLeads.address row)])
                      rows data)
           /\ SecureLeadsApi.count meta = Z.of_nat (length data)
           /\ (forall n, SecureLeadsApi.limit meta = Some n -> 1 <= n <= 100)
           /\ (SecureLeadsApi.hasMore meta = true <->
                 SecureLeadsApi.limit meta = Some (Z.of_nat (length data)))
  end.
Proof.
  intros Hget out. unfold out. clear out. unfold SecureLeadsApi.handler.
  rewrite Hget.
  rewrite (bool_decide_eq_false_2 ("GET" = "OPTIONS")) by discriminate.
  rewrite (bool_decide_eq_true_2 ("GET" = "GET")) by reflexivity.
  cbn [negb].
  destruct (SecureLeads.authenticateRequest _ _ _ _ _ _) as [e|user] eqn:Hauth;
    [reflexivity|].
  pose proof (authenticated_is_subscribed _ _ _ _ _ _ _ _ Hauth) as Hsub.
  cbv zeta.
  destruct (SecureLeads.checkRateLimit ToString now (get user "userId") _ _)
    as [result storage].
  cbn [fst snd].
  destruct (SecureLeads.allowed result) eqn:Hallowed; cbn [negb fst snd].
  2:{ split; [reflexivity|]. split; [split; reflexivity|].
      intros data meta Hbody. discriminate Hbody. }
  set (q := LeadsQuery.params_of _).
  assert (LeadsQuery.errors (LeadsQuery.validateQueryParams q) = [] ->
          forall n,
            LeadsQuery.limit
              (LeadsQuery.validatedParams (LeadsQuery.validateQueryParams q))
            = Some n -> 1 <= n <= 100) as Hbound.
  { unfold LeadsQuery.validateQueryParams.
    cbn [LeadsQuery.errors LeadsQuery.validatedParams LeadsQuery.limit].
    destruct (LeadsQuery.outside 1 100 (LeadsQuery.limit q)) eqn:Hout;
      [discriminate|].
    intros _ n Hn. rewrite Hn in Hout. cbn in Hout. lia. }
  set (v := LeadsQuery.validateQueryParams q) in *. clearbody v.
  destruct (LeadsQuery.errors v) eqn:Herr.
  2:{ cbn [fst snd SecureLeadsApi.statusCode SecureLeadsApi.body].
      split; [reflexivity|]. split; [split; discriminate|].
      intros data meta Hbody. discriminate Hbody. }
  destruct (fetchLeadsSecurely _ user) as [rows|];
    cbn [fst snd SecureLeadsApi.statusCode SecureLeadsApi.body].
  2:{ split; [reflexivity|]. split; [split; discriminate|].
      intros data meta Hbody. discriminate Hbody. }
  split; [reflexivity|]. split; [split; discriminate|].
  intros data meta [= <- <-].
  cbn [SecureLeadsApi.count SecureLeadsApi.limit SecureLeadsApi.hasMore].
  split; [|split; [reflexivity|split; [exact (Hbound eq_refl)|]]].
  - exists rows. induction rows as [|row rows IH]; cbn [map]; constructor;
      [|exact IH].
    split; [reflexivity|]. rewrite row_contact_view, Hsub. cbn [andb].
    destruct (Spec.has_buyer _); reflexivity.
  - destruct (LeadsQuery.limit _) as [n|]; [|split; discriminate].
    rewrite Z.eqb_eq. split; [intros ->; reflexivity | intros [= <-]; reflexivity].
Qed.

Lemma listing_counts_authenticated_requests_witness :
  (SecureLeadsApi.handler Sample.no_date Sample.no_number Sample.no_string
     Sample.verifier None Sample.no_string (fun _ _ => Some []) 3000000
     Notions.listing_event ∅)
  = ({| SecureLeadsApi.statusCode := 401;
        SecureLeadsApi.body := SecureLeadsApi.BodyError "Token expired" |}, ∅).
Proof.
  pose proof (listing_counts_authenticated_requests Sample.no_date
                Sample.no_number Sample.no_string Sample.verifier None
                Sample.no_string (fun _ _ => Some []) 3000000
                Notions.listing_event ∅ eq_refl) as H.
  cbv zeta in H.
  replace (SecureLeads.authenticateRequest Sample.no_number Sample.no_string
             Sample.verifier None 3000000
             (SecureLeadsDemo.headers Notions.listing_event))
    with (SecureLeadsDemo.AuthFailure "Token expired") in H
    by (vm_compute; reflexivity).
  exact H.
Defined.
